(** * Direct-mail sampling tool: segmentation and stratified sampling

    A shallow embedding of [scripts/stratified_sampling.py] and
    [scripts/data_processing.py].  Tables (pandas DataFrames) are lists of
    row records; Python integers are [Z]; Python floats are idealised as
    exact rationals [Q] (with the two infinities for bin edges); the
    functions that mutate a table in place or touch process-wide state are
    written in a state-and-exception monad over an explicit [World]. *)

From Stdlib Require Import List ZArith QArith Qround Qabs String Ascii Bool Lia
  Permutation Arith DecimalString DecimalNat Lqa Sorted.
Import ListNotations.

Local Open Scope Z_scope.

(* ================================================================= *)
(** ** Numbers *)

Module Num.

(** Python's built-in [round(x)] on a float: nearest integer, ties to the
    even neighbour; the result is an [int], so [int(round(x))] is the same
    value. *)
Definition py_round (x : Q) : Z :=
  let f := Qfloor x in
  match (x - inject_Z f ?= 1 # 2)%Q with
  | Lt => f
  | Gt => f + 1
  | Eq => if Z.even f then f else f + 1
  end.

(** Sum of a list of rationals / integers (the [+] reductions of the code). *)
Definition Qsum (l : list Q) : Q := fold_right Qplus 0%Q l.
Definition Zsum (l : list Z) : Z := fold_right Z.add 0 l.

End Num.
Import Num.


(* ================================================================= *)
(** ** Tables *)

(** A calendar date; only year and month enter the recency computation. *)
Record Date := mkDate { year : Z; month : Z; day_of_month : Z }.

(** One row of the customer table.  The summary columns are produced by
    the aggregator, the bucket columns by [bin_customers], [Group] by
    [stratified_sample].  [None] is pandas' missing value (NaN / NaT); a
    column that has not been created yet holds [None] in every row. *)
Record Row := mkRow {
  customer_id : string;
  customer_email : option string;
  frequency : Z;
  last_order_date : option Date;
  gross_sales : Q;
  discounts : Q;
  net_sales : Q;
  recency : option Z;
  Recency_Bucket : option string;
  Frequency_Bucket : option string;
  Segment : option string;
  Group : option string
}.

Definition DataFrame := list Row.

Definition set_Recency_Bucket (v : option string) (r : Row) : Row :=
  mkRow (customer_id r) (customer_email r) (frequency r) (last_order_date r)
        (gross_sales r) (discounts r) (net_sales r) (recency r)
        v (Frequency_Bucket r) (Segment r) (Group r).

Definition set_Frequency_Bucket (v : option string) (r : Row) : Row :=
  mkRow (customer_id r) (customer_email r) (frequency r) (last_order_date r)
        (gross_sales r) (discounts r) (net_sales r) (recency r)
        (Recency_Bucket r) v (Segment r) (Group r).

Definition set_Segment (v : option string) (r : Row) : Row :=
  mkRow (customer_id r) (customer_email r) (frequency r) (last_order_date r)
        (gross_sales r) (discounts r) (net_sales r) (recency r)
        (Recency_Bucket r) (Frequency_Bucket r) v (Group r).

Definition set_Group (v : option string) (r : Row) : Row :=
  mkRow (customer_id r) (customer_email r) (frequency r) (last_order_date r)
        (gross_sales r) (discounts r) (net_sales r) (recency r)
        (Recency_Bucket r) (Frequency_Bucket r) (Segment r) v.

(** One row of the order history.  [None] is a missing cell.  The [day]
    column is held as the date [pd.to_datetime(..., errors="coerce")]
    makes of it ([None] where the text is not a date). *)
Module Orders.

Record row := mkOrder {
  customer_id : option string;
  customer_email : option string;
  order_id : option string;
  day : option Date;
  gross_sales : Q;
  discounts : Q;
  net_sales : Q
}.

Definition table := list row.

End Orders.

(* ================================================================= *)
(** ** The pandas operations the scripts call *)

Module Pd.

(** [len(df)] as a Python integer. *)
Definition len {A} (l : list A) : Z := Z.of_nat (List.length l).

(** [series == value] on a string column: a missing cell compares false. *)
Definition cell_eqb (c : option string) (s : string) : bool :=
  match c with
  | Some t => String.eqb t s
  | None => false
  end.

(** Distinct values in order of first appearance. *)
Fixpoint uniques (l : list string) : list string :=
  match l with
  | [] => []
  | x :: r => x :: filter (fun y => negb (String.eqb x y)) (uniques r)
  end.

(** The non-missing cells of a column. *)
Fixpoint dropna_cells (col : list (option string)) : list string :=
  match col with
  | [] => []
  | Some s :: r => s :: dropna_cells r
  | None :: r => dropna_cells r
  end.

Definition count_of (s : string) (l : list string) : Z :=
  len (filter (String.eqb s) l).

Fixpoint insert_by_count (p : string * Z) (l : list (string * Z)) : list (string * Z) :=
  match l with
  | [] => [p]
  | q :: r => if snd q <=? snd p then p :: q :: r else q :: insert_by_count p r
  end.

(** [Series.value_counts()]: one entry per distinct non-missing value,
    most frequent first (equal counts keep first-appearance order). *)
Definition value_counts (col : list (option string)) : list (string * Z) :=
  let cells := dropna_cells col in
  fold_right insert_by_count [] (map (fun s => (s, count_of s cells)) (uniques cells)).

(** Python slice bound normalisation for a sequence of length [n]
    ([slice.indices] with step 1): negative bounds count from the end,
    everything is clipped to [0, n]. *)
Definition slice_bound (n i : Z) : Z :=
  if i <? 0 then Z.max (i + n) 0 else Z.min i n.

(** [df.iloc[start:stop]]. *)
Definition iloc {A} (l : list A) (start stop : Z) : list A :=
  let a := slice_bound (len l) start in
  let b := slice_bound (len l) stop in
  firstn (Z.to_nat (b - a)) (skipn (Z.to_nat a) l).

(** [df.take(positions)]. *)
Definition take {A} (l : list A) (positions : list nat) : list A :=
  flat_map (fun i => match nth_error l i with Some r => [r] | None => [] end) positions.

End Pd.
Import Pd.

(* ================================================================= *)
(** ** Process state and the monad of the stateful functions *)

(** Python exceptions that reach the caller. *)
Inductive exn :=
| ValueError (msg : string)
| DanglingReference.

(** A table object is addressed by its position in the heap. *)
Definition loc := nat.

Record World := mkWorld {
  tables : list DataFrame;        (* the customer DataFrame objects alive in the process *)
  order_tables : list Orders.table; (* the order-history DataFrame objects *)
  np_random_seed : option Z;      (* numpy's process-wide generator: the seed it was last given *)
  today : Date;                   (* the wall clock, as [datetime.today()] reads it *)
  files : list (string * DataFrame) (* the file system: path and table written there as CSV *)
}.

Definition M (A : Type) : Type := World -> (exn + A) * World.

Definition ret {A} (a : A) : M A := fun w => (inr a, w).

Definition bind {A B} (c : M A) (k : A -> M B) : M B :=
  fun w => match c w with
           | (inl e, w') => (inl e, w')
           | (inr a, w') => k a w'
           end.

Definition raise {A} (e : exn) : M A := fun w => (inl e, w).

Notation "x <- c ;; k" := (bind c (fun x => k))
  (at level 61, c at next level, right associativity).

(** Propagate the exception of a library call. *)
Definition lift {A} (r : exn + A) : M A :=
  match r with
  | inl e => raise e
  | inr a => ret a
  end.

Fixpoint store_set {A} (l : list A) (i : nat) (v : A) : list A :=
  match l, i with
  | [], _ => []
  | _ :: r, O => v :: r
  | x :: r, S j => x :: store_set r j v
  end.

(** Read the table object behind a reference. *)
Definition read (df : loc) : M DataFrame :=
  fun w => match nth_error (tables w) df with
           | Some t => (inr t, w)
           | None => (inl DanglingReference, w)
           end.

Definition with_tables (w : World) (ts : list DataFrame) : World :=
  mkWorld ts (order_tables w) (np_random_seed w) (today w) (files w).

(** Overwrite the table object behind a reference (in-place update). *)
Definition write (df : loc) (t : DataFrame) : M unit :=
  fun w => (inr tt, with_tables w (store_set (tables w) df t)).

(** The same for an order-history table. *)
Definition read_orders (df : loc) : M Orders.table :=
  fun w => match nth_error (order_tables w) df with
           | Some t => (inr t, w)
           | None => (inl DanglingReference, w)
           end.

Definition write_orders (df : loc) (t : Orders.table) : M unit :=
  fun w => (inr tt, mkWorld (tables w) (store_set (order_tables w) df t)
                            (np_random_seed w) (today w) (files w)).

(** [np.random.seed(seed)], for a seed numpy accepts
    ([0 <= seed < 2**32]); it raises [ValueError] for any other, which
    is not modelled. *)
Definition np_random_seed_set (seed : Z) : M unit :=
  fun w => (inr tt, mkWorld (tables w) (order_tables w) (Some seed) (today w) (files w)).

(** [datetime.today()]. *)
Definition datetime_today : M Date := fun w => (inr (today w), w).

(** [df.to_csv(path)]: a later write to the same path shadows the earlier.
    The directory tree is not part of the state: the directory of [path]
    is taken to exist, and a write that fails with [OSError] is not
    modelled. *)
Definition to_csv_file (path : string) (t : DataFrame) : M unit :=
  fun w => (inr tt, mkWorld (tables w) (order_tables w) (np_random_seed w) (today w) ((path, t) :: files w)).

(* ================================================================= *)
(** ** scripts/stratified_sampling.py: stratified_sample *)

Record SampleSizes := mkSizes { Test : Z; Control : Z; Holdout : Z }.

Definition DEFAULT_SAMPLE_SIZES : SampleSizes :=
  {| Test := 7500; Control := 7500; Holdout := 15000 |}.

Definition RANDOM_SEED : Z := 42.

(** The three accumulators [test_group], [control_group], [holdout_group]. *)
Definition Groups : Type := DataFrame * DataFrame * DataFrame.

Section Sampler.

(** [numpy.random.RandomState(seed).permutation(n)]: the positions drawn by
    a generator freshly created from [seed].  numpy is not part of the
    repository; the sampler is written over any such function. *)
Variable rng_permutation : Z -> nat -> list nat.

(** [df.sample(frac=1, random_state=seed).reset_index(drop=True)]: a new
    generator is made from [seed] for this call, the positions
    [0 .. len(df)-1] are drawn in its order and the rows taken there. *)
Definition sample_frac1 (seed : Z) (df : DataFrame) : DataFrame :=
  take df (rng_permutation seed (List.length df)).

(** [segment_counts / segment_counts.sum()]. *)
Definition segment_proportions (df : DataFrame) : list (string * Q) :=
  let segment_counts := value_counts (map Segment df) in
  let total := Zsum (map snd segment_counts) in
  map (fun sc => (fst sc, (inject_Z (snd sc) / inject_Z total)%Q)) segment_counts.

(** Lines 84-86: the counts asked of a segment of share [proportion]. *)
Definition desired (sample_sizes : SampleSizes) (proportion : Q) : Z * Z * Z :=
  let n_test := py_round (inject_Z (Test sample_sizes) * proportion) in
  let n_control := py_round (inject_Z (Control sample_sizes) * proportion) in
  let n_holdout := py_round (inject_Z (Holdout sample_sizes) * proportion) in
  (n_test, n_control, n_holdout).

(** Lines 92-97: the adjustment when the segment has fewer rows than asked. *)
Definition adjust (n_rows : Z) (n : Z * Z * Z) : Z * Z * Z :=
  let '(n_test, n_control, n_holdout) := n in
  let total_needed := n_test + n_control + n_holdout in
  if n_rows <? total_needed then
    let scaling_factor := (inject_Z n_rows / inject_Z total_needed)%Q in
    let n_test := py_round (inject_Z n_test * scaling_factor) in
    let n_control := py_round (inject_Z n_control * scaling_factor) in
    let n_holdout := n_rows - n_test - n_control in
    (n_test, n_control, n_holdout)
  else (n_test, n_control, n_holdout).

(** The three slices taken from a shuffled segment (lines 100-102). *)
Definition slices (segment_data : DataFrame) (n : Z * Z * Z) : Groups :=
  let '(n_test, n_control, n_holdout) := n in
  (iloc segment_data 0 n_test,
   iloc segment_data n_test (n_test + n_control),
   iloc segment_data (n_test + n_control) (n_test + n_control + n_holdout)).

(** The shuffled rows of one segment (lines 81 and 89). *)
Definition shuffled_segment (df : DataFrame) (seed : Z) (segment : string) : DataFrame :=
  let segment_data := filter (fun r => cell_eqb (Segment r) segment) df in
  sample_frac1 seed segment_data.

(** What one iteration of the loop cuts out of its segment. *)
Definition segment_slices (df : DataFrame) (sample_sizes : SampleSizes) (seed : Z)
    (item : string * Q) : Groups :=
  let '(segment, proportion) := item in
  let segment_data := shuffled_segment df seed segment in
  slices segment_data (adjust (len segment_data) (desired sample_sizes proportion)).

(** One iteration of the loop over [segment_proportions.items()]:
    [pd.concat] appends the slices to the accumulators. *)
Definition sample_segment (df : DataFrame) (sample_sizes : SampleSizes) (seed : Z)
    (acc : Groups) (item : string * Q) : Groups :=
  let '(test_group, control_group, holdout_group) := acc in
  let '(t, c, h) := segment_slices df sample_sizes seed item in
  (test_group ++ t, control_group ++ c, holdout_group ++ h).

(** The loop of lines 73-102: the three groups before they are labelled. *)
Definition sample_groups (df : DataFrame) (sample_sizes : SampleSizes) (seed : Z) : Groups :=
  fold_left (sample_segment df sample_sizes seed) (segment_proportions df) ([], [], []).

(** Lines 105-110: label each group and concatenate them. *)
Definition label_groups (g : Groups) : DataFrame :=
  let '(test_group, control_group, holdout_group) := g in
  map (set_Group (Some "Test"%string)) test_group
  ++ map (set_Group (Some "Control"%string)) control_group
  ++ map (set_Group (Some "Holdout"%string)) holdout_group.

(** [stratified_sample(df, sample_sizes, seed)].  [df] is only read; the
    result is a new table.  The table is taken to have its [Segment]
    column, as every table [bin_customers] returned has; a [Row] does not
    tell a column that is absent ([KeyError] at line 76) from one whose
    cells are all missing. *)
Definition stratified_sample (df : loc) (sample_sizes : option SampleSizes) (seed : Z)
  : M DataFrame :=
  let sample_sizes :=
    match sample_sizes with Some s => s | None => DEFAULT_SAMPLE_SIZES end in
  _ <- np_random_seed_set seed ;;
  tbl <- read df ;;
  ret (label_groups (sample_groups tbl sample_sizes seed)).

End Sampler.

(** Target sizes are sizes: none is negative. *)
Definition valid_sizes (s : SampleSizes) : Prop :=
  0 <= Test s /\ 0 <= Control s /\ 0 <= Holdout s.

(** What the sampler needs of the generator: the positions drawn for [n]
    rows are [0 .. n-1] in some order. *)
Definition is_shuffle (rng_permutation : Z -> nat -> list nat) : Prop :=
  forall seed n, Permutation (rng_permutation seed n) (seq 0 n).

(** A generator to run the definitions with: rotate by the seed. *)
Definition rotate_permutation (seed : Z) (n : nat) : list nat :=
  let k := Z.to_nat (seed mod Z.max 1 (Z.of_nat n)) in
  skipn k (seq 0 n) ++ firstn k (seq 0 n).

(** Number of rows of a table that belong to a segment. *)
Definition count_segment (segment : string) (df : DataFrame) : Z :=
  len (filter (fun r => cell_eqb (Segment r) segment) df).

(** The rows of segment [S] that a run hands to each group, counted. *)
Definition assigned (rng_permutation : Z -> nat -> list nat)
    (df : DataFrame) (sample_sizes : SampleSizes) (seed : Z) (S : string) : Z * Z * Z :=
  let '(test_group, control_group, holdout_group) :=
    sample_groups rng_permutation df sample_sizes seed in
  (count_segment S test_group, count_segment S control_group, count_segment S holdout_group).

(** [l[a:b]] for natural bounds. *)
Definition sl {A} (a b : nat) (l : list A) : list A := firstn (b - a) (skipn a l).

(** [total_needed]: what three counts add up to. *)
Definition total_needed (n : Z * Z * Z) : Z :=
  let '(n_test, n_control, n_holdout) := n in n_test + n_control + n_holdout.

(** A small segmented table for running the definitions: [n] customers
    [c0 .. c(n-1)] of one segment. *)
Definition example_customer (segment : string) (i : nat) : Row :=
  mkRow (String.append "c" (NilEmpty.string_of_uint (Nat.to_uint i)))
        (Some "x@example.org"%string) 1 None 0 0 0 (Some 0)
        None None (Some segment) None.

Definition example_segment (segment : string) (n : nat) : DataFrame :=
  map (example_customer segment) (seq 0 n).

(** The desired count of one group (picked out of the triple of lines
    84-86), added up over the segments of the table: what the group is
    asked to get before any shortfall adjustment. *)
Definition desired_sum (pick : Z * Z * Z -> Z) (sample_sizes : SampleSizes)
    (df : DataFrame) : Z :=
  Zsum (map (fun it => pick (desired sample_sizes (snd it))) (segment_proportions df)).

Definition pick_test (n : Z * Z * Z) : Z := fst (fst n).
Definition pick_control (n : Z * Z * Z) : Z := snd (fst n).
Definition pick_holdout (n : Z * Z * Z) : Z := snd n.

(** Number of segments of a table. *)
Definition n_segments (df : DataFrame) : Z := len (segment_proportions df).

(** Six customers in two segments of three. *)
Definition two_small_segments : DataFrame :=
  example_segment "F1_R1" 3 ++ example_segment "F2_R1" 3.

(* ================================================================= *)
(** ** scripts/stratified_sampling.py: bin_customers *)

(** A bin edge is a float: a number or one of the infinities
    ([np.inf], [float("inf")]). *)
Inductive edge :=
| NegInf
| Fin (q : Q)
| PosInf.

Definition edge_leb (a b : edge) : bool :=
  match a, b with
  | NegInf, _ => true
  | _, PosInf => true
  | Fin x, Fin y => Qle_bool x y
  | _, _ => false
  end.

Definition edge_ltb (a b : edge) : bool := negb (edge_leb b a).

Definition edge_eqb (a b : edge) : bool := edge_leb a b && edge_leb b a.

(** A customer metric (an integer) as a float. *)
Definition metric (v : Z) : edge := Fin (inject_Z v).

Definition DEFAULT_RECENCY_BINS : list edge :=
  map metric [0; 1; 2; 3; 4; 5; 6; 7; 13; 25; 37].

Definition DEFAULT_FREQUENCY_BINS : list edge :=
  map metric [1; 2; 3; 4; 5] ++ [PosInf].

(** [str(i)] for a non-negative integer. *)
Definition str (i : nat) : string := NilEmpty.string_of_uint (Nat.to_uint i).

(** [[f"{prefix}{i}" for i in range(1, len(bins))]]. *)
Definition bucket_labels (prefix : string) (bins : list edge) : list string :=
  map (fun i => String.append prefix (str i)) (seq 1 (List.length bins - 1)).

(** [bins or default] for list arguments: [None] and the empty list are
    falsy. *)
Definition py_or (bins : option (list edge)) (default : list edge) : list edge :=
  match bins with
  | Some (e :: r) => e :: r
  | _ => default
  end.

Module Cut.

(** [Index.is_monotonic_increasing]: each edge is at most the next one. *)
Fixpoint is_monotonic_increasing (bins : list edge) : bool :=
  match bins with
  | a :: ((b :: _) as r) => edge_leb a b && is_monotonic_increasing r
  | _ => true
  end.

(** [len(unique(bins)) < len(bins)]. *)
Fixpoint has_duplicates (bins : list edge) : bool :=
  match bins with
  | [] => false
  | a :: r => existsb (edge_eqb a) r || has_duplicates r
  end.

(** [bins.searchsorted(v, side="right")] on sorted [bins]: the number of
    edges at most [v], found here by scanning from the left. *)
Fixpoint searchsorted_right (bins : list edge) (v : edge) : nat :=
  match bins with
  | [] => 0
  | e :: r => if edge_leb e v then S (searchsorted_right r v) else 0
  end.

(** The 1-based bucket of one value: none for a missing value, for a
    value left of the first edge ([ids == 0]) and for one not left of
    the last edge ([ids == len(bins)]). *)
Definition bucket_of (bins : list edge) (v : option Z) : option nat :=
  match v with
  | None => None
  | Some z =>
      let ids := searchsorted_right bins (metric z) in
      if (ids =? List.length bins)%nat || (ids =? 0)%nat then None else Some ids
  end.

(** The label of one value: [labels[ids - 1]]. *)
Definition cut_cell (bins : list edge) (labels : list string) (v : option Z)
  : option string :=
  match bucket_of bins v with
  | Some ids => nth_error labels (ids - 1)
  | None => None
  end.

(** [pd.cut(x, bins=bins, labels=labels, right=False)] for a list of
    edges: the checks pandas makes, then the label of every value. *)
Definition pd_cut (x : list (option Z)) (bins : list edge) (labels : list string)
  : exn + list (option string) :=
  if negb (is_monotonic_increasing bins) then
    inl (ValueError "bins must increase monotonically.")
  else if has_duplicates bins && negb (List.length bins =? 2)%nat then
    inl (ValueError "Bin edges must be unique")
  else if negb (len labels =? len bins - 1) then
    inl (ValueError "Bin labels must be one fewer than the number of bin edges")
  else inr (map (cut_cell bins labels) x).

End Cut.
Import Cut.

(** [df[name] = col]: set one column of every row. *)
Definition assign_column (set : option string -> Row -> Row)
    (col : list (option string)) (t : DataFrame) : DataFrame :=
  map (fun vr => set (fst vr) (snd vr)) (combine col t).

(** A row survives [dropna(subset=["Recency_Bucket", "Frequency_Bucket"])]
    when both cells are present. *)
Definition has_buckets (r : Row) : bool :=
  match Recency_Bucket r, Frequency_Bucket r with
  | Some _, Some _ => true
  | _, _ => false
  end.

(** [.astype(str)] on one cell. *)
Definition cell_str (c : option string) : string :=
  match c with
  | Some s => s
  | None => "nan"
  end.

Definition segment_key (r : Row) : string :=
  String.append (cell_str (Frequency_Bucket r))
                (String.append "_" (cell_str (Recency_Bucket r))).

(** [bin_customers(df, recency_bins, frequency_bins)].  Every step
    updates the caller's table object in place; the function returns that
    same object together with its CSV text (represented by the table the
    text serialises). *)
Definition bin_customers (df : loc) (recency_bins frequency_bins : option (list edge))
  : M (loc * DataFrame) :=
  let recency_bins := py_or recency_bins DEFAULT_RECENCY_BINS in
  let frequency_bins := py_or frequency_bins DEFAULT_FREQUENCY_BINS in
  let recency_labels := bucket_labels "R" recency_bins in
  let frequency_labels := bucket_labels "F" frequency_bins in
  t <- read df ;;
  col <- lift (pd_cut (map recency t) recency_bins recency_labels) ;;
  _ <- write df (assign_column set_Recency_Bucket col t) ;;
  t <- read df ;;
  col <- lift (pd_cut (map (fun r => Some (frequency r)) t) frequency_bins frequency_labels) ;;
  _ <- write df (assign_column set_Frequency_Bucket col t) ;;
  t <- read df ;;
  _ <- write df (filter has_buckets t) ;;
  t <- read df ;;
  _ <- write df (map (fun r => set_Segment (Some (segment_key r)) r) t) ;;
  t <- read df ;;
  ret (df, t).

(** The table [bin_customers] leaves behind when the edges pass pandas'
    checks. *)
Definition segmented (recency_bins frequency_bins : list edge) (t : DataFrame) : DataFrame :=
  let with_r :=
    map (fun r => set_Recency_Bucket
                    (cut_cell recency_bins (bucket_labels "R" recency_bins) (recency r)) r) t in
  let with_f :=
    map (fun r => set_Frequency_Bucket
                    (cut_cell frequency_bins (bucket_labels "F" frequency_bins)
                              (Some (frequency r))) r) with_r in
  map (fun r => set_Segment (Some (segment_key r)) r) (filter has_buckets with_f).

(** Edges that grow strictly from each one to the next. *)
Fixpoint strictly_increasing (bins : list edge) : bool :=
  match bins with
  | a :: ((b :: _) as r) => edge_ltb a b && strictly_increasing r
  | _ => true
  end.

(** Some edge is not larger than the one before it. *)
Fixpoint non_increasing_somewhere (bins : list edge) : bool :=
  match bins with
  | a :: ((b :: _) as r) => edge_leb b a || non_increasing_somewhere r
  | _ => false
  end.

(** Some edge is smaller than the one before it. *)
Fixpoint decreasing_somewhere (bins : list edge) : bool :=
  match bins with
  | a :: ((b :: _) as r) => edge_ltb b a || decreasing_somewhere r
  | _ => false
  end.

(** The customer table before segmentation: [n] customers with the given
    recency and frequency. *)
Definition summary_row (id : string) (rec freq : Z) : Row :=
  mkRow id (Some "x@example.org"%string) freq None 0 0 0 (Some rec) None None None None.

(** A world holding one table, at reference [0]. *)
Definition world_of (t : DataFrame) : World :=
  mkWorld [t] [] None (mkDate 2025 1 1) [].

(** [v] lies in the [i]-th bucket (counted from 1) of [bins]:
    [bins[i-1] <= v < bins[i]]. *)
Definition in_bucket (bins : list edge) (v : Z) (i : nat) : Prop :=
  (1 <= i < List.length bins)%nat /\
  edge_leb (nth (i - 1) bins PosInf) (metric v) = true /\
  edge_ltb (metric v) (nth i bins PosInf) = true.

(** [v] is left of the first edge, or not left of the last one. *)
Definition out_of_range (bins : list edge) (v : Z) : Prop :=
  edge_ltb (metric v) (hd PosInf bins) = true \/
  edge_leb (last bins NegInf) (metric v) = true.

(** The edges pass the checks of [pd.cut]. *)
Definition cut_accepts (bins : list edge) : bool :=
  is_monotonic_increasing bins
  && negb (has_duplicates bins && negb (List.length bins =? 2)%nat)
  && (1 <=? List.length bins)%nat.

(** The segmenter raises on these edges, whichever dimension they are
    given for and whatever the edges of the other dimension are. *)
Definition rejected (bins : list edge) : Prop :=
  forall (other : option (list edge)) (df : loc) (t : DataFrame) (w : World),
    nth_error (tables w) df = Some t ->
    (exists e w', bin_customers df (Some bins) other w = (inl e, w')) /\
    (exists e w', bin_customers df other (Some bins) w = (inl e, w')).

(** Three customers: one inside the default bins, two outside. *)
Definition three_customers : DataFrame :=
  [summary_row "a" 0 1; summary_row "b" 40 2; summary_row "c" (-1) 2].

(** Two runs put every row into the same group. *)
Definition same_assignment (g1 g2 : Groups) : Prop :=
  let '(t1, c1, h1) := g1 in
  let '(t2, c2, h2) := g2 in
  forall r : Row, (In r t1 <-> In r t2) /\ (In r c1 <-> In r c2) /\ (In r h1 <-> In r h2).

(** With generator [rng_permutation], the assignment does not depend on
    the order in which the rows of the table are presented. *)
Definition order_independent (rng_permutation : Z -> nat -> list nat) : Prop :=
  forall (df1 df2 : DataFrame) (sizes : SampleSizes) (seed : Z),
    valid_sizes sizes -> NoDup df1 -> Permutation df1 df2 ->
    same_assignment (sample_groups rng_permutation df1 sizes seed)
                    (sample_groups rng_permutation df2 sizes seed).

(** Two tables list the rows of every segment in the same order (rows
    of different segments may be interleaved differently). *)
Definition same_segment_order (df1 df2 : DataFrame) : Prop :=
  forall segment : string,
    filter (fun r => cell_eqb (Segment r) segment) df1
    = filter (fun r => cell_eqb (Segment r) segment) df2.

(** Two runs give every group the same rows (in whatever order). *)
Definition same_members (g1 g2 : Groups) : Prop :=
  let '(t1, c1, h1) := g1 in
  let '(t2, c2, h2) := g2 in
  Permutation t1 t2 /\ Permutation c1 c2 /\ Permutation h1 h2.

(* ================================================================= *)
(** ** scripts/data_processing.py *)

Definition CUSTOMER_SUMMARY_PATH : string := "data/processed/customer_summary.csv".

(** [Series.astype(str)] on one cell of an object column (pandas 1.x and
    2.x): every cell becomes a string, a missing cell the string ["nan"]. *)
Definition astype_str (c : option string) : option string := Some (cell_str c).

Definition set_order_customer_id (v : option string) (r : Orders.row) : Orders.row :=
  Orders.mkOrder v (Orders.customer_email r) (Orders.order_id r) (Orders.day r)
                 (Orders.gross_sales r) (Orders.discounts r) (Orders.net_sales r).

Definition set_order_id (v : option string) (r : Orders.row) : Orders.row :=
  Orders.mkOrder (Orders.customer_id r) (Orders.customer_email r) v (Orders.day r)
                 (Orders.gross_sales r) (Orders.discounts r) (Orders.net_sales r).

Definition set_order_customer_email (v : option string) (r : Orders.row) : Orders.row :=
  Orders.mkOrder (Orders.customer_id r) v (Orders.order_id r) (Orders.day r)
                 (Orders.gross_sales r) (Orders.discounts r) (Orders.net_sales r).

(** A row survives
    [dropna(subset=["customer_id", "customer_email", "order_id"])]. *)
Definition has_essentials (r : Orders.row) : bool :=
  match Orders.customer_id r, Orders.customer_email r, Orders.order_id r with
  | Some _, Some _, Some _ => true
  | _, _, _ => false
  end.

(** [clean_and_convert_data(df)]: the table is updated in place and the
    same object is returned.  (The required columns are present; the
    progress messages printed on the way are left out.) *)
Definition clean_and_convert_data (df : loc) : M loc :=
  t <- read_orders df ;;
  _ <- write_orders df
         (map (fun r => set_order_customer_id (astype_str (Orders.customer_id r)) r) t) ;;
  t <- read_orders df ;;
  _ <- write_orders df (map (fun r => set_order_id (astype_str (Orders.order_id r)) r) t) ;;
  t <- read_orders df ;;
  _ <- write_orders df
         (map (fun r => set_order_customer_email (astype_str (Orders.customer_email r)) r) t) ;;
  t <- read_orders df ;;
  _ <- write_orders df (filter has_essentials t) ;;
  ret df.

(** The grouping key of an order row; [groupby] (with its default
    [dropna=True]) leaves out the rows in which a key column is missing. *)
Definition group_key (r : Orders.row) : option (string * string) :=
  match Orders.customer_id r, Orders.customer_email r with
  | Some i, Some e => Some (i, e)
  | _, _ => None
  end.

Definition key_eqb (a b : string * string) : bool :=
  String.eqb (fst a) (fst b) && String.eqb (snd a) (snd b).

Definition key_leb (a b : string * string) : bool :=
  match String.compare (fst a) (fst b) with
  | Lt => true
  | Gt => false
  | Eq => String.leb (snd a) (snd b)
  end.

Fixpoint present_keys (t : Orders.table) : list (string * string) :=
  match t with
  | [] => []
  | r :: t' =>
      match group_key r with
      | Some k => k :: present_keys t'
      | None => present_keys t'
      end
  end.

Fixpoint dedup_keys (l : list (string * string)) : list (string * string) :=
  match l with
  | [] => []
  | k :: r => k :: filter (fun k' => negb (key_eqb k k')) (dedup_keys r)
  end.

Fixpoint insert_key (k : string * string) (l : list (string * string))
  : list (string * string) :=
  match l with
  | [] => [k]
  | k' :: r => if key_leb k k' then k :: k' :: r else k' :: insert_key k r
  end.

(** The group keys, in sorted order ([sort=True] is the default). *)
Definition group_keys (t : Orders.table) : list (string * string) :=
  fold_right insert_key [] (dedup_keys (present_keys t)).

Definition group_rows (k : string * string) (t : Orders.table) : Orders.table :=
  filter (fun r => match group_key r with
                   | Some k' => key_eqb k k'
                   | None => false
                   end) t.

(** [nunique]: number of distinct non-missing values. *)
Definition nunique (col : list (option string)) : Z := len (uniques (dropna_cells col)).

Definition date_leb (a b : Date) : bool :=
  (year a <? year b)
  || ((year a =? year b)
      && ((month a <? month b)
          || ((month a =? month b) && (day_of_month a <=? day_of_month b)))).

(** [max] of a date column; missing dates are skipped. *)
Fixpoint date_max (col : list (option Date)) : option Date :=
  match col with
  | [] => None
  | None :: r => date_max r
  | Some d :: r =>
      match date_max r with
      | Some m => Some (if date_leb d m then m else d)
      | None => Some d
      end
  end.

(** Lines 83-89: one summary row per group. *)
Definition aggregate_group (t : Orders.table) (k : string * string) : Row :=
  let rows := group_rows k t in
  mkRow (fst k) (Some (snd k))
        (nunique (map Orders.order_id rows))
        (date_max (map Orders.day rows))
        (Qsum (map Orders.gross_sales rows))
        (Qsum (map Orders.discounts rows))
        (Qsum (map Orders.net_sales rows))
        None None None None None.

Definition groupby_agg (t : Orders.table) : DataFrame :=
  map (aggregate_group t) (group_keys t).

(** Lines 92-95: months from the last order to the current date; not
    clamped, and missing when the customer has no dated order. *)
Definition months_since (current_date : Date) (last : option Date) : option Z :=
  match last with
  | Some d => Some ((year current_date - year d) * 12 + (month current_date - month d))
  | None => None
  end.

Definition set_recency (v : option Z) (r : Row) : Row :=
  mkRow (customer_id r) (customer_email r) (frequency r) (last_order_date r)
        (gross_sales r) (discounts r) (net_sales r) v
        (Recency_Bucket r) (Frequency_Bucket r) (Segment r) (Group r).

(** A row survives [dropna(subset=["customer_email"])]. *)
Definition has_email (r : Row) : bool :=
  match customer_email r with
  | Some _ => true
  | None => false
  end.

(** [aggregate_customer_data(df, current_date)].  The order table is only
    read; the summary is a new table, also written to
    [CUSTOMER_SUMMARY_PATH]. *)
Definition aggregate_customer_data (df : loc) (current_date : option Date) : M DataFrame :=
  current_date <- match current_date with
                  | Some d => ret d
                  | None => datetime_today
                  end ;;
  t <- read_orders df ;;
  let customer_summary := groupby_agg t in
  let customer_summary :=
    map (fun r => set_recency (months_since current_date (last_order_date r)) r)
        customer_summary in
  let customer_summary := filter has_email customer_summary in
  _ <- to_csv_file CUSTOMER_SUMMARY_PATH customer_summary ;;
  ret customer_summary.

(** [process_order_history_cached] of app.py: clean, then aggregate. *)
Definition process_order_history (df : loc) (current_date : option Date) : M DataFrame :=
  cleaned_df <- clean_and_convert_data df ;;
  aggregate_customer_data cleaned_df current_date.

(** An order history to run the definitions with: customer [c1] has no
    email on either of its two orders, customer [c2] has one. *)
Definition example_orders : Orders.table :=
  [ Orders.mkOrder (Some "c1") None (Some "o1") (Some (mkDate 2024 12 5)) 30 5 25;
    Orders.mkOrder (Some "c2") (Some "b@example.org") (Some "o2") (Some (mkDate 2024 11 20))
                   40 0 40;
    Orders.mkOrder (Some "c1") None (Some "o3") (Some (mkDate 2025 1 2)) 10 0 10 ]%string.

Definition orders_world (t : Orders.table) : World :=
  mkWorld [] [t] None (mkDate 2025 1 15) [].

(* ================================================================= *)
(** ** Vocabulary for the effects of a stage *)



(** The final state of every run of [c] is related to its initial state. *)
Definition preserves (R : World -> World -> Prop) {A} (c : M A) : Prop :=
  forall w, R w (snd (c w)).


(** Nothing changed except, possibly, the customer table at [df]. *)
Definition same_but_table (df : loc) (w w' : World) : Prop :=
  order_tables w' = order_tables w /\ np_random_seed w' = np_random_seed w /\
  today w' = today w /\ files w' = files w /\
  forall l, l <> df -> nth_error (tables w') l = nth_error (tables w) l.






(** What the summary shows of a customer. *)
Definition summary_line (r : Row) : string * option string * Z :=
  (customer_id r, customer_email r, frequency r).

(** Both key columns of an order row are present. *)
Definition has_key (r : Orders.row) : bool :=
  match group_key r with
  | Some _ => true
  | None => false
  end.

(** The summary rows of lines 83-95, before the [dropna] of line 98. *)
Definition summary_before_dropna (t : Orders.table) (current_date : Date) : DataFrame :=
  map (fun r => set_recency (months_since current_date (last_order_date r)) r)
      (groupby_agg t).

(* ================================================================= *)
(** ** Vocabulary for further properties *)

(** The value lies within the edges: [first <= v < last].  A missing
    value lies within nothing. *)
Definition within (bins : list edge) (v : option Z) : bool :=
  match v with
  | Some z => edge_leb (hd PosInf bins) (metric z) && edge_ltb (metric z) (last bins NegInf)
  | None => false
  end.

(** Both metrics of the customer lie within their edges. *)
Definition kept (recency_bins frequency_bins : list edge) (r : Row) : bool :=
  within recency_bins (recency r) && within frequency_bins (Some (frequency r)).

(** The row with its three segmentation columns filled in. *)
Definition labelled (recency_bins frequency_bins : list edge) (r : Row) : Row :=
  let r1 := set_Recency_Bucket
              (cut_cell recency_bins (bucket_labels "R" recency_bins) (recency r)) r in
  let r2 := set_Frequency_Bucket
              (cut_cell frequency_bins (bucket_labels "F" frequency_bins)
                        (Some (frequency r1))) r1 in
  set_Segment (Some (segment_key r2)) r2.

(** The character occurs in the string. *)
Fixpoint has_char (c : ascii) (s : string) : bool :=
  match s with
  | EmptyString => false
  | String a s' => Ascii.eqb a c || has_char c s'
  end.

Definition with_order_tables (w : World) (ts : list Orders.table) : World :=
  mkWorld (tables w) ts (np_random_seed w) (today w) (files w).

(** An order row after the three [astype(str)] of the cleaning step. *)
Definition cleaned_row (r : Orders.row) : Orders.row :=
  Orders.mkOrder (astype_str (Orders.customer_id r))
                 (astype_str (Orders.customer_email r))
                 (astype_str (Orders.order_id r))
                 (Orders.day r) (Orders.gross_sales r) (Orders.discounts r)
                 (Orders.net_sales r).

(** The (customer_id, customer_email) pair a summary row stands for. *)
Definition customer_key (r : Row) : string * string :=
  (customer_id r, cell_str (customer_email r)).

(** The rows of a group: the rows that carry its key. *)
Definition in_group (k : string * string) (o : Orders.row) : bool :=
  match group_key o with
  | Some k' => key_eqb k k'
  | None => false
  end.

(** Two customers with the same recency and frequency. *)
Definition two_alike : DataFrame :=
  [summary_row "a" 0 1; summary_row "d" 0 1].

(* ================================================================= *)
(** ** scripts/stratified_sampling.py: save_segments *)






(* ================================================================= *)
(** ** app.py: the handler of "Apply Binning" *)

(** A new table object: [df[mask]] and [df.copy()] both make one. *)
Definition alloc (t : DataFrame) : M loc :=
  fun w => (inr (List.length (tables w)), with_tables w (tables w ++ [t])).

(** [try: body except Exception as e: handler(e)]. *)
Definition try_except {A} (body : M A) (handler : exn -> M A) : M A :=
  fun w => match body w with
           | (inl e, w') => handler e w'
           | (inr a, w') => (inr a, w')
           end.

(** [str(e)]. *)
Definition exn_str (e : exn) : string :=
  match e with
  | ValueError msg => msg
  | DanglingReference => "dangling reference"
  end.

(** What the handler leaves on the page: the segmented table it stores in
    the session, or the error it shows. *)
Inductive binning_outcome :=
| Segmented (df_segmented : loc) (segmented_csv : DataFrame)
| Shown (error : string).

(** [df["recency"] <= max_recency_threshold], row by row. *)
Definition recency_at_most (max_recency_threshold : Z) (r : Row) : bool :=
  match recency r with
  | Some v => v <=? max_recency_threshold
  | None => false
  end.

Definition is_empty (t : DataFrame) : bool :=
  match t with [] => true | _ => false end.

(** The body of [if segmentation_submitted:], from the parsed edges on. *)
Definition apply_binning (df : loc) (recency_bins frequency_bins : list edge)
    (max_recency_threshold : Z) : M binning_outcome :=
  t <- read df ;;
  try_except
    (df_filtered <- alloc (filter (recency_at_most max_recency_threshold) t) ;;
     filtered <- read df_filtered ;;
     if is_empty filtered then
       ret (Shown "No customers have a recency value below the selected maximum threshold.")
     else
       copy <- alloc filtered ;;
       res <- bin_customers copy (Some recency_bins) (Some frequency_bins) ;;
       let '(df_segmented, segmented_csv) := res in
       seg <- read df_segmented ;;
       if is_empty seg then
         ret (Shown "Segmentation resulted in an empty DataFrame. Please check your bin ranges.")
       else
         ret (Segmented df_segmented segmented_csv))
    (fun e => ret (Shown (String.append "Error processing binning: " (exn_str e)))).

(* ================================================================= *)
(** * Properties *)

(* ================================================================= *)
(** ** Facts about rounding *)

Section NumFacts.

Lemma Qfloor_frac (x : Q) : (0 <= x - inject_Z (Qfloor x) /\ x - inject_Z (Qfloor x) < 1)%Q.
Proof.
  pose proof (Qfloor_le x) as Hl.
  pose proof (Qlt_floor x) as Hu.
  rewrite inject_Z_plus in Hu.
  change (inject_Z 1) with 1%Q in Hu.
  split; lra.
Qed.

(** Rounding moves a number by at most one half. *)
Lemma py_round_error (x : Q) :
  (- (1 # 2) <= inject_Z (py_round x) - x /\ inject_Z (py_round x) - x <= 1 # 2)%Q.
Proof.
  unfold py_round.
  destruct (Qfloor_frac x) as [H0 H1].
  set (f := Qfloor x) in *.
  destruct (x - inject_Z f ?= 1 # 2)%Q eqn:E.
  - apply Qeq_alt in E.
    destruct (Z.even f); [|rewrite inject_Z_plus; change (inject_Z 1) with 1%Q];
      split; lra.
  - apply Qlt_alt in E. split; lra.
  - apply Qgt_alt in E. rewrite inject_Z_plus. change (inject_Z 1) with 1%Q.
    split; lra.
Qed.

(** A non-negative number never rounds to a negative integer. *)
Lemma py_round_nonneg (x : Q) : (0 <= x)%Q -> 0 <= py_round x.
Proof.
  intros Hx. unfold py_round.
  assert (Hf : 0 <= Qfloor x).
  { change 0 with (Qfloor 0). apply Qfloor_resp_le. exact Hx. }
  destruct (x - inject_Z (Qfloor x) ?= 1 # 2)%Q; [destruct (Z.even _)| |]; lia.
Qed.

(** An integer rounds to itself. *)
Lemma py_round_inject_Z (z : Z) : py_round (inject_Z z) = z.
Proof.
  unfold py_round. rewrite Qfloor_Z.
  assert (E : (inject_Z z - inject_Z z ?= 1 # 2)%Q = Lt).
  { apply (proj1 (Qlt_alt _ _)). lra. }
  rewrite E. reflexivity.
Qed.

End NumFacts.

(* ================================================================= *)
(** ** Facts about lists, slices and shuffles *)

Section ListFacts.

Context {A : Type}.

Lemma firstn_add (i j : nat) (l : list A) :
  firstn (i + j) l = firstn i l ++ firstn j (skipn i l).
Proof.
  revert l. induction i as [|i IH]; intros l; simpl.
  - reflexivity.
  - destruct l as [|x l]; simpl.
    + now rewrite firstn_nil.
    + now rewrite IH.
Qed.

Lemma sl_app (a b c : nat) (l : list A) :
  (a <= b)%nat -> (b <= c)%nat -> sl a b l ++ sl b c l = sl a c l.
Proof.
  intros Hab Hbc. unfold sl.
  replace (c - a)%nat with ((b - a) + (c - b))%nat by lia.
  rewrite firstn_add, skipn_skipn.
  replace (b - a + a)%nat with b by lia. reflexivity.
Qed.

Lemma sl_empty (a b : nat) (l : list A) : (b <= a)%nat -> sl a b l = [].
Proof.
  intros H. unfold sl. replace (b - a)%nat with 0%nat by lia. reflexivity.
Qed.

Lemma sl_prefix (b : nat) (l : list A) : sl 0 b l = firstn b l.
Proof. unfold sl. now rewrite Nat.sub_0_r. Qed.

(** With non-negative bounds a pandas slice is the plain sub-list: the
    clipping to the table's length is what [firstn] and [skipn] do. *)
Lemma iloc_nonneg (l : list A) (a b : Z) :
  0 <= a -> 0 <= b -> iloc l a b = sl (Z.to_nat a) (Z.to_nat b) l.
Proof.
  intros Ha Hb. unfold iloc, slice_bound, sl, len.
  destruct (Z.ltb_spec a 0) as [?|_]; [lia|].
  destruct (Z.ltb_spec b 0) as [?|_]; [lia|].
  set (n := List.length l).
  destruct (Z.le_gt_cases (Z.of_nat n) a) as [Hna|Hna].
  - rewrite !skipn_all2 by (subst n; lia). now rewrite !firstn_nil.
  - rewrite (Z.min_l a) by lia.
    destruct (Z.le_gt_cases b (Z.of_nat n)) as [Hbn|Hbn].
    + rewrite (Z.min_l b) by lia. f_equal. lia.
    + rewrite (Z.min_r b) by lia.
      rewrite !firstn_all2; try reflexivity; rewrite length_skipn; subst n; lia.
Qed.

Lemma take_seq_from (p l : list A) :
  take (p ++ l) (seq (List.length p) (List.length l)) = l.
Proof.
  revert p. induction l as [|x l IH]; intros p; simpl.
  - reflexivity.
  - rewrite nth_error_app2 by lia. rewrite Nat.sub_diag. simpl. f_equal.
    specialize (IH (p ++ [x])).
    rewrite <- app_assoc, length_app in IH. simpl in IH.
    rewrite Nat.add_1_r in IH. exact IH.
Qed.

Lemma take_seq (l : list A) : take l (seq 0 (List.length l)) = l.
Proof. exact (take_seq_from [] l). Qed.

(** Taking the rows at a permutation of their positions permutes them. *)
Lemma take_permutation (l : list A) (positions : list nat) :
  Permutation positions (seq 0 (List.length l)) -> Permutation (take l positions) l.
Proof.
  intros H. rewrite <- (take_seq l) at 2. unfold take.
  now apply Permutation_flat_map.
Qed.

Lemma len_app (l1 l2 : list A) : len (l1 ++ l2) = len l1 + len l2.
Proof. unfold len. rewrite length_app. lia. Qed.

Lemma len_nonneg (l : list A) : 0 <= len l.
Proof. unfold len. lia. Qed.

Lemma len_firstn_le (k : nat) (l : list A) : len (firstn k l) <= len l.
Proof. unfold len. rewrite length_firstn. lia. Qed.

End ListFacts.

(* ================================================================= *)
(** ** Facts about [value_counts] and the segment shares *)

Section ValueCounts.

Lemma uniques_In (x : string) (l : list string) : In x (uniques l) <-> In x l.
Proof.
  induction l as [|y l IH]; simpl; [tauto|].
  rewrite filter_In, IH.
  destruct (String.eqb_spec y x) as [->|Hne]; simpl.
  - split; [tauto | intros _; now left].
  - split; [intros [->|[H _]]; tauto | intros [->|H]; [congruence | now right]].
Qed.

Lemma uniques_NoDup (l : list string) : NoDup (uniques l).
Proof.
  induction l as [|y l IH]; simpl; constructor.
  - rewrite filter_In. intros [_ H]. now rewrite String.eqb_refl in H.
  - now apply NoDup_filter.
Qed.

Lemma insert_by_count_perm (p : string * Z) (l : list (string * Z)) :
  Permutation (insert_by_count p l) (p :: l).
Proof.
  induction l as [|q l IH]; simpl; [reflexivity|].
  destruct (snd q <=? snd p); [reflexivity|].
  rewrite IH. apply perm_swap.
Qed.

Lemma sort_by_count_perm (l : list (string * Z)) :
  Permutation (fold_right insert_by_count [] l) l.
Proof.
  induction l as [|p l IH]; simpl; [reflexivity|].
  rewrite insert_by_count_perm. now constructor.
Qed.

Lemma value_counts_perm (col : list (option string)) :
  Permutation (value_counts col)
    (map (fun s => (s, count_of s (dropna_cells col))) (uniques (dropna_cells col))).
Proof. apply sort_by_count_perm. Qed.

Lemma value_counts_keys_NoDup (col : list (option string)) :
  NoDup (map fst (value_counts col)).
Proof.
  eapply Permutation_NoDup.
  - symmetry. apply Permutation_map. apply value_counts_perm.
  - rewrite map_map. simpl. rewrite map_id. apply uniques_NoDup.
Qed.

Lemma value_counts_In (s : string) (c : Z) (col : list (option string)) :
  In (s, c) (value_counts col) <->
  In s (dropna_cells col) /\ c = count_of s (dropna_cells col).
Proof.
  rewrite (Permutation_in' (eq_refl (s, c)) (value_counts_perm col)) at 1.
  rewrite in_map_iff. split.
  - intros [x [E Hx]]. inversion E; subst. rewrite uniques_In in Hx. tauto.
  - intros [H ->]. exists s. rewrite uniques_In. tauto.
Qed.

Lemma count_of_pos (s : string) (l : list string) : In s l -> 0 < count_of s l.
Proof.
  intros H. unfold count_of, len.
  assert (Hin : In s (filter (String.eqb s) l)).
  { rewrite filter_In. split; [exact H | apply String.eqb_refl]. }
  destruct (filter (String.eqb s) l); [contradiction | simpl; lia].
Qed.

Lemma count_of_segment (s : string) (df : DataFrame) :
  count_of s (dropna_cells (map Segment df)) = count_segment s df.
Proof.
  unfold count_of, count_segment, len. f_equal. f_equal.
  induction df as [|r df IH]; simpl; [reflexivity|].
  destruct (Segment r) as [t|]; simpl; [|exact IH].
  rewrite (String.eqb_sym s t).
  destruct (String.eqb t s); simpl; now rewrite IH.
Qed.

Lemma in_dropna_cells (s : string) (df : DataFrame) :
  In s (dropna_cells (map Segment df)) <-> exists r, In r df /\ Segment r = Some s.
Proof.
  induction df as [|r df IH]; simpl.
  - split; [tauto | intros [? [[] _]]].
  - destruct (Segment r) as [t|] eqn:E; simpl; rewrite IH; split.
    + intros [->|[r' [H1 H2]]]; [exists r; tauto | exists r'; tauto].
    + intros [r' [[->|H1] H2]]; [left; congruence | right; exists r'; tauto].
    + intros [r' [H1 H2]]. exists r'; tauto.
    + intros [r' [[->|H1] H2]]; [congruence | exists r'; tauto].
Qed.

Lemma Zsum_nonneg (l : list Z) : (forall z, In z l -> 0 <= z) -> 0 <= Zsum l.
Proof.
  induction l as [|z l IH]; simpl; intros H; [lia|].
  assert (0 <= z) by (apply H; now left).
  assert (0 <= Zsum l) by (apply IH; intros; apply H; now right). lia.
Qed.

Lemma Zsum_pos (l : list Z) : l <> [] -> (forall z, In z l -> 0 < z) -> 0 < Zsum l.
Proof.
  destruct l as [|z l]; [congruence|]. intros _ H. simpl.
  assert (0 < z) by (apply H; now left).
  assert (0 <= Zsum l).
  { apply Zsum_nonneg. intros y Hy. apply Z.lt_le_incl, H. now right. }
  lia.
Qed.

(** Every entry of [segment_proportions] is a segment that occurs in the
    table, with the share of its rows. *)
Lemma segment_proportions_In (s : string) (p : Q) (df : DataFrame) :
  In (s, p) (segment_proportions df) ->
  0 < count_segment s df /\
  p = (inject_Z (count_segment s df)
       / inject_Z (Zsum (map snd (value_counts (map Segment df)))))%Q.
Proof.
  unfold segment_proportions. rewrite in_map_iff.
  intros [[s' c] [E H]]. simpl in E. inversion E; subst s' p.
  apply value_counts_In in H. destruct H as [Hin ->].
  rewrite count_of_segment. split; [|reflexivity].
  rewrite <- count_of_segment. now apply count_of_pos.
Qed.

Lemma segment_proportions_keys (df : DataFrame) :
  map fst (segment_proportions df) = map fst (value_counts (map Segment df)).
Proof. unfold segment_proportions. rewrite map_map. reflexivity. Qed.

Lemma segment_proportions_NoDup (df : DataFrame) :
  NoDup (map fst (segment_proportions df)).
Proof. rewrite segment_proportions_keys. apply value_counts_keys_NoDup. Qed.

Lemma value_counts_total_nonneg (col : list (option string)) :
  0 <= Zsum (map snd (value_counts col)).
Proof.
  apply Zsum_nonneg. intros z Hz. apply in_map_iff in Hz.
  destruct Hz as [[s c] [E H]]. simpl in E. subst z.
  apply value_counts_In in H. destruct H as [_ ->]. apply len_nonneg.
Qed.

Lemma Qdiv_nonneg (a b : Z) : 0 <= a -> 0 <= b -> (0 <= inject_Z a / inject_Z b)%Q.
Proof.
  intros Ha Hb. unfold Qdiv. apply Qmult_le_0_compat.
  - change 0%Q with (inject_Z 0). now rewrite <- Zle_Qle.
  - apply Qinv_le_0_compat. change 0%Q with (inject_Z 0). now rewrite <- Zle_Qle.
Qed.

Lemma segment_proportions_nonneg (s : string) (p : Q) (df : DataFrame) :
  In (s, p) (segment_proportions df) -> (0 <= p)%Q.
Proof.
  intros H. apply segment_proportions_In in H. destruct H as [Hc ->].
  apply Qdiv_nonneg; [lia | apply value_counts_total_nonneg].
Qed.

End ValueCounts.

(* ================================================================= *)
(** ** Facts about the allocation and the slices *)

Section Allocation.

Lemma desired_nonneg (sizes : SampleSizes) (p : Q) :
  valid_sizes sizes -> (0 <= p)%Q ->
  let '(n_test, n_control, n_holdout) := desired sizes p in
  0 <= n_test /\ 0 <= n_control /\ 0 <= n_holdout.
Proof.
  intros (Ht & Hc & Hh) Hp. unfold desired.
  repeat split; apply py_round_nonneg; apply Qmult_le_0_compat; try exact Hp;
    change 0%Q with (inject_Z 0); now rewrite <- Zle_Qle.
Qed.

(** After the adjustment the first two counts are non-negative and the
    three end at a non-negative position; in shortfall they end exactly at
    the segment's length.  (The third count alone may be [-1], see
    [adjust_negative_remainder].) *)
Lemma adjust_bounds (n_rows n_test n_control n_holdout : Z) :
  0 <= n_rows -> 0 <= n_test -> 0 <= n_control -> 0 <= n_holdout ->
  let '(a, b, c) := adjust n_rows (n_test, n_control, n_holdout) in
  0 <= a /\ 0 <= b /\ 0 <= a + b + c /\
  (n_rows < n_test + n_control + n_holdout -> a + b + c = n_rows).
Proof.
  intros Hr Ht Hc Hh. unfold adjust.
  destruct (Z.ltb_spec n_rows (n_test + n_control + n_holdout)) as [Hlt|Hge].
  - assert (Hs : (0 <= inject_Z n_rows / inject_Z (n_test + n_control + n_holdout))%Q).
    { apply Qdiv_nonneg; lia. }
    repeat split; try lia;
      apply py_round_nonneg; apply Qmult_le_0_compat; try exact Hs;
      change 0%Q with (inject_Z 0); now rewrite <- Zle_Qle.
  - repeat split; lia.
Qed.

(** The counts themselves never ask for more than the segment has, and
    the remainder left for the last group is never below [-1]. *)
Lemma adjust_counts (n_rows n_test n_control n_holdout : Z) :
  0 <= n_rows -> 0 <= n_test -> 0 <= n_control -> 0 <= n_holdout ->
  let '(a, b, c) := adjust n_rows (n_test, n_control, n_holdout) in
  a + b + c <= n_rows /\ -1 <= c.
Proof.
  intros Hr Ht Hc Hh. unfold adjust.
  destruct (Z.ltb_spec n_rows (n_test + n_control + n_holdout)) as [Hlt|Hge];
    [|split; lia].
  split; [lia|].
  set (tot := n_test + n_control + n_holdout) in *.
  set (s := (inject_Z n_rows / inject_Z tot)%Q).
  assert (Hs : (0 <= s)%Q) by (apply Qdiv_nonneg; lia).
  assert (Htot : ~ (inject_Z tot == 0)%Q).
  { change 0%Q with (inject_Z 0). rewrite inject_Z_injective. lia. }
  assert (Hexact : (inject_Z tot * s == inject_Z n_rows)%Q) by (unfold s; field; exact Htot).
  assert (Hpart : (inject_Z (n_test + n_control) * s <= inject_Z tot * s)%Q).
  { apply Qmult_le_compat_r; [|exact Hs]. rewrite <- Zle_Qle. lia. }
  rewrite inject_Z_plus in Hpart.
  pose proof (py_round_error (inject_Z n_test * s)) as [_ Ha].
  pose proof (py_round_error (inject_Z n_control * s)) as [_ Hb].
  assert (Hsum : (inject_Z (py_round (inject_Z n_test * s)
                            + py_round (inject_Z n_control * s))
                  <= inject_Z (n_rows + 1))%Q).
  { rewrite !inject_Z_plus. change (inject_Z 1) with 1%Q. lra. }
  rewrite <- Zle_Qle in Hsum. fold s. lia.
Qed.

(** The three slices are consecutive pieces of a prefix of the shuffled
    segment. *)
Lemma slices_prefix (l : DataFrame) (a b c : Z) :
  0 <= a -> 0 <= b -> 0 <= a + b + c ->
  let '(t, ctl, h) := slices l (a, b, c) in
  t ++ ctl ++ h = firstn (Z.to_nat (Z.max (a + b) (a + b + c))) l.
Proof.
  intros Ha Hb Hc. unfold slices.
  rewrite !iloc_nonneg by lia.
  change (Z.to_nat 0) with 0%nat.
  destruct (Z.le_gt_cases 0 c) as [Hc0|Hc0].
  - rewrite Z.max_r by lia.
    rewrite (sl_app (Z.to_nat a) (Z.to_nat (a + b))) by lia.
    rewrite (sl_app 0 (Z.to_nat a)) by lia.
    apply sl_prefix.
  - rewrite Z.max_l by lia.
    rewrite (sl_empty (Z.to_nat (a + b))) by lia.
    rewrite app_nil_r.
    rewrite (sl_app 0 (Z.to_nat a)) by lia.
    apply sl_prefix.
Qed.

End Allocation.

Section Shuffle.

Variable rng_permutation : Z -> nat -> list nat.
Hypothesis rng_shuffles : is_shuffle rng_permutation.

Lemma sample_frac1_permutation (seed : Z) (df : DataFrame) :
  Permutation (sample_frac1 rng_permutation seed df) df.
Proof. unfold sample_frac1. apply take_permutation. apply rng_shuffles. Qed.

Lemma shuffled_segment_permutation (df : DataFrame) (seed : Z) (s : string) :
  Permutation (shuffled_segment rng_permutation df seed s)
              (filter (fun r => cell_eqb (Segment r) s) df).
Proof. unfold shuffled_segment. apply sample_frac1_permutation. Qed.

Lemma shuffled_segment_len (df : DataFrame) (seed : Z) (s : string) :
  len (shuffled_segment rng_permutation df seed s) = count_segment s df.
Proof.
  unfold len, count_segment, len.
  now rewrite (Permutation_length (shuffled_segment_permutation df seed s)).
Qed.

Lemma shuffled_segment_In (df : DataFrame) (seed : Z) (s : string) (r : Row) :
  In r (shuffled_segment rng_permutation df seed s) <-> In r df /\ Segment r = Some s.
Proof.
  rewrite (Permutation_in' (eq_refl r) (shuffled_segment_permutation df seed s)).
  rewrite filter_In. unfold cell_eqb.
  destruct (Segment r) as [t|]; [|split; intros [_ H]; discriminate].
  destruct (String.eqb_spec t s) as [->|Hne]; [tauto|].
  split; intros [_ H]; [discriminate | congruence].
Qed.

(** The pieces cut from one segment, laid end to end, are a prefix of the
    shuffled segment; in shortfall they are all of it. *)
Lemma segment_slices_prefix (df : DataFrame) (sizes : SampleSizes) (seed : Z)
    (s : string) (p : Q) :
  valid_sizes sizes -> (0 <= p)%Q ->
  let '(t, c, h) := segment_slices rng_permutation df sizes seed (s, p) in
  exists k : nat,
    t ++ c ++ h = firstn k (shuffled_segment rng_permutation df seed s) /\
    (let '(n_test, n_control, n_holdout) := desired sizes p in
     count_segment s df < n_test + n_control + n_holdout ->
     t ++ c ++ h = shuffled_segment rng_permutation df seed s).
Proof.
  intros Hv Hp. unfold segment_slices.
  set (l := shuffled_segment rng_permutation df seed s).
  pose proof (desired_nonneg sizes p Hv Hp) as Hd.
  destruct (desired sizes p) as [[nt nc] nh]. destruct Hd as (Hnt & Hnc & Hnh).
  pose proof (adjust_bounds (len l) nt nc nh (len_nonneg l) Hnt Hnc Hnh) as Ha.
  destruct (adjust (len l) (nt, nc, nh)) as [[a b] c].
  destruct Ha as (Ha & Hb & Hc & Hshort).
  pose proof (slices_prefix l a b c Ha Hb Hc) as Hs.
  destruct (slices l (a, b, c)) as [[t ctl] h].
  exists (Z.to_nat (Z.max (a + b) (a + b + c))). split; [exact Hs|].
  intros Hlt. rewrite Hs. apply firstn_all2.
  subst l. rewrite shuffled_segment_len in Hshort.
  specialize (Hshort Hlt).
  pose proof (shuffled_segment_len df seed s) as Hl. unfold len in Hl. lia.
Qed.

End Shuffle.

(* ================================================================= *)
(** ** The sampling loop *)

Section Loop.

Variable rng_permutation : Z -> nat -> list nat.
Hypothesis rng_shuffles : is_shuffle rng_permutation.

Lemma In_iloc {A} (l : list A) (a b : Z) (x : A) : In x (iloc l a b) -> In x l.
Proof.
  unfold iloc. intros H.
  set (i := Z.to_nat (slice_bound (len l) a)) in *.
  set (k := Z.to_nat (slice_bound (len l) b - slice_bound (len l) a)) in *.
  rewrite <- (firstn_skipn i l). apply in_or_app. right.
  rewrite <- (firstn_skipn k (skipn i l)). apply in_or_app. now left.
Qed.

(** The loop only appends: its result is the accumulators followed by the
    pieces cut from the segments, in loop order. *)
Lemma sample_loop (df : DataFrame) (sizes : SampleSizes) (seed : Z)
    (items : list (string * Q)) (t0 c0 h0 : DataFrame) :
  fold_left (sample_segment rng_permutation df sizes seed) items (t0, c0, h0) =
  (t0 ++ flat_map (fun it => fst (fst (segment_slices rng_permutation df sizes seed it))) items,
   c0 ++ flat_map (fun it => snd (fst (segment_slices rng_permutation df sizes seed it))) items,
   h0 ++ flat_map (fun it => snd (segment_slices rng_permutation df sizes seed it)) items).
Proof.
  revert t0 c0 h0. induction items as [|it items IH]; intros t0 c0 h0; simpl.
  - now rewrite !app_nil_r.
  - destruct (segment_slices rng_permutation df sizes seed it) as [[t c] h] eqn:E.
    simpl. rewrite IH, <- !app_assoc. reflexivity.
Qed.

Lemma segment_slices_In (df : DataFrame) (sizes : SampleSizes) (seed : Z)
    (it : string * Q) (r : Row) :
  let '(t, c, h) := segment_slices rng_permutation df sizes seed it in
  In r t \/ In r c \/ In r h -> In r df /\ Segment r = Some (fst it).
Proof.
  destruct it as [s p]. unfold segment_slices, slices.
  destruct (adjust _ _) as [[a b] c]. simpl.
  intros H. apply (shuffled_segment_In rng_permutation rng_shuffles df seed s).
  destruct H as [H|[H|H]]; eapply In_iloc; exact H.
Qed.

Lemma count_segment_app (S : string) (l1 l2 : DataFrame) :
  count_segment S (l1 ++ l2) = count_segment S l1 + count_segment S l2.
Proof. unfold count_segment. now rewrite filter_app, len_app. Qed.

Lemma count_segment_all (S : string) (l : DataFrame) :
  (forall r, In r l -> Segment r = Some S) -> count_segment S l = len l.
Proof.
  intros H. unfold count_segment. f_equal.
  induction l as [|r l IH]; simpl; [reflexivity|].
  rewrite (H r (or_introl eq_refl)). simpl. rewrite String.eqb_refl.
  f_equal. apply IH. intros r' Hr'. apply H. now right.
Qed.

Lemma count_segment_none (S : string) (l : DataFrame) :
  (forall r, In r l -> Segment r <> Some S) -> count_segment S l = 0.
Proof.
  intros H. unfold count_segment.
  induction l as [|r l IH]; simpl; [reflexivity|].
  assert (E : cell_eqb (Segment r) S = false).
  { pose proof (H r (or_introl eq_refl)) as Hr. unfold cell_eqb.
    destruct (Segment r) as [t|]; [|reflexivity].
    destruct (String.eqb_spec t S); congruence. }
  rewrite E. apply IH. intros r' Hr'. apply H. now right.
Qed.

Lemma count_segment_nonneg (S : string) (l : DataFrame) : 0 <= count_segment S l.
Proof. apply len_nonneg. Qed.

(** Rows of segment [S] in a concatenation of per-segment pieces: only the
    piece of [S] itself contributes. *)
Lemma count_segment_pieces (f : string * Q -> DataFrame) (items : list (string * Q))
    (S : string) :
  NoDup (map fst items) ->
  (forall it r, In it items -> In r (f it) -> Segment r = Some (fst it)) ->
  (forall p, In (S, p) items -> count_segment S (flat_map f items) = len (f (S, p))) /\
  (~ In S (map fst items) -> count_segment S (flat_map f items) = 0).
Proof.
  induction items as [|[s p] items IH]; simpl; intros Hnd Hseg.
  - split; [tauto | reflexivity].
  - inversion Hnd as [|? ? Hnotin Hnd']; subst.
    destruct IH as [IH1 IH2]; [exact Hnd' | intros; eapply Hseg; eauto |].
    split.
    + intros p' [E|Hin].
      * inversion E; subst s p'.
        rewrite count_segment_app, (IH2 Hnotin), Z.add_0_r.
        apply count_segment_all. intros r Hr. apply (Hseg (S, p) r); auto.
      * assert (Hne : s <> S).
        { intros ->. apply Hnotin. apply in_map_iff. exists (S, p'). auto. }
        rewrite count_segment_app, (IH1 p' Hin).
        rewrite count_segment_none; [lia|].
        intros r Hr. rewrite (Hseg (s, p) r); auto. simpl. congruence.
    + intros Hnot.
      rewrite count_segment_app, IH2 by tauto.
      rewrite count_segment_none; [lia|].
      intros r Hr. rewrite (Hseg (s, p) r); auto. simpl.
      intros E. inversion E. tauto.
Qed.

(** How many rows of segment [S] each group gets: the lengths of the three
    slices of [S] when [S] is a segment of the table, nothing otherwise. *)
Lemma assigned_spec (df : DataFrame) (sizes : SampleSizes) (seed : Z) (S : string) :
  (forall p, In (S, p) (segment_proportions df) ->
     assigned rng_permutation df sizes seed S =
     let '(t, c, h) := segment_slices rng_permutation df sizes seed (S, p) in
     (len t, len c, len h)) /\
  (~ In S (map fst (segment_proportions df)) ->
     assigned rng_permutation df sizes seed S = (0, 0, 0)).
Proof.
  unfold assigned, sample_groups. rewrite sample_loop, !app_nil_l.
  pose proof (segment_proportions_NoDup df) as Hnd.
  assert (H1 := count_segment_pieces
    (fun it => fst (fst (segment_slices rng_permutation df sizes seed it))) _ S Hnd).
  assert (H2 := count_segment_pieces
    (fun it => snd (fst (segment_slices rng_permutation df sizes seed it))) _ S Hnd).
  assert (H3 := count_segment_pieces
    (fun it => snd (segment_slices rng_permutation df sizes seed it)) _ S Hnd).
  destruct H1 as [H1a H1b].
  { intros it r _ Hr. pose proof (segment_slices_In df sizes seed it r) as Hs.
    destruct (segment_slices _ _ _ _ it) as [[t c] h]. simpl in Hr. apply Hs. auto. }
  destruct H2 as [H2a H2b].
  { intros it r _ Hr. pose proof (segment_slices_In df sizes seed it r) as Hs.
    destruct (segment_slices _ _ _ _ it) as [[t c] h]. simpl in Hr. apply Hs. auto. }
  destruct H3 as [H3a H3b].
  { intros it r _ Hr. pose proof (segment_slices_In df sizes seed it r) as Hs.
    destruct (segment_slices _ _ _ _ it) as [[t c] h]. simpl in Hr. apply Hs. auto. }
  split.
  - intros p Hp. rewrite (H1a p Hp), (H2a p Hp), (H3a p Hp).
    now destruct (segment_slices _ _ _ _ (S, p)) as [[t c] h].
  - intros Hn. now rewrite (H1b Hn), (H2b Hn), (H3b Hn).
Qed.

End Loop.

(* ================================================================= *)
(** ** Properties of the allocation: counts per segment *)

Section SamplerProperties.

Lemma rotate_is_shuffle : is_shuffle rotate_permutation.
Proof.
  intros seed n. unfold rotate_permutation.
  rewrite Permutation_app_comm. now rewrite firstn_skipn.
Qed.

Lemma segment_key_dec (S : string) (items : list (string * Q)) :
  (exists p, In (S, p) items) \/ ~ In S (map fst items).
Proof.
  destruct (in_dec string_dec S (map fst items)) as [H|H]; [left|now right].
  apply in_map_iff in H. destruct H as [[s p] [E H]]. simpl in E. subst s.
  now exists p.
Qed.

(** What does hold of every segment [S], for non-negative target sizes:
    the rows of [S] handed to the three groups add up to at most the
    number of rows of [S] in the table.  The counts computed for [S] on
    the way add up to at most that number too; the first two are
    non-negative, the remainder computed for the last group is at least
    [-1] (and can be [-1], see [adjust_negative_remainder]). *)
Theorem assigned_within_segment
    (rng_permutation : Z -> nat -> list nat) (df : DataFrame)
    (sizes : SampleSizes) (seed : Z) (S : string) :
  is_shuffle rng_permutation ->
  valid_sizes sizes ->
  (let '(a_test, a_control, a_holdout) := assigned rng_permutation df sizes seed S in
   0 <= a_test /\ 0 <= a_control /\ 0 <= a_holdout /\
   a_test + a_control + a_holdout <= count_segment S df) /\
  (forall p, In (S, p) (segment_proportions df) ->
     let '(n_test, n_control, n_holdout) :=
       adjust (count_segment S df) (desired sizes p) in
     0 <= n_test /\ 0 <= n_control /\ -1 <= n_holdout /\
     n_test + n_control + n_holdout <= count_segment S df).
Proof.
  intros Hrng Hv. split.
  - destruct (assigned_spec rng_permutation Hrng df sizes seed S) as [Hin Hout].
    destruct (segment_key_dec S (segment_proportions df)) as [[p Hp]|Hn].
    + rewrite (Hin p Hp).
      pose proof (segment_slices_prefix rng_permutation Hrng df sizes seed S p Hv
                    (segment_proportions_nonneg S p df Hp)) as Hpre.
      destruct (segment_slices _ _ _ _ (S, p)) as [[t c] h].
      destruct Hpre as [k [Hk _]].
      repeat split; try apply len_nonneg.
      rewrite <- (shuffled_segment_len rng_permutation Hrng df seed S).
      rewrite <- Z.add_assoc, <- !len_app, Hk.
      apply len_firstn_le.
    + rewrite (Hout Hn). pose proof (count_segment_nonneg S df). lia.
  - intros p Hp.
    pose proof (desired_nonneg sizes p Hv (segment_proportions_nonneg S p df Hp)) as Hd.
    destruct (desired sizes p) as [[nt nc] nh]. destruct Hd as (Hnt & Hnc & Hnh).
    pose proof (adjust_bounds (count_segment S df) nt nc nh
                  (count_segment_nonneg S df) Hnt Hnc Hnh) as Hb.
    pose proof (adjust_counts (count_segment S df) nt nc nh
                  (count_segment_nonneg S df) Hnt Hnc Hnh) as Hc.
    destruct (adjust _ _) as [[a b] c]. tauto.
Qed.

(** C2.  For every segment in shortfall (the rounded desired counts add
    up to more than the segment has rows), with non-negative target sizes:
    the adjusted counts add up to exactly the segment's size, and so do
    the rows actually handed to the three groups. *)
Theorem shortfall_exhausts_segment
    (rng_permutation : Z -> nat -> list nat) (df : DataFrame)
    (sizes : SampleSizes) (seed : Z) (S : string) (p : Q) :
  is_shuffle rng_permutation ->
  valid_sizes sizes ->
  In (S, p) (segment_proportions df) ->
  count_segment S df < total_needed (desired sizes p) ->
  total_needed (adjust (count_segment S df) (desired sizes p)) = count_segment S df /\
  total_needed (assigned rng_permutation df sizes seed S) = count_segment S df.
Proof.
  intros Hrng Hv Hp Hshort.
  pose proof (segment_proportions_nonneg S p df Hp) as Hp0.
  split.
  - pose proof (desired_nonneg sizes p Hv Hp0) as Hd.
    destruct (desired sizes p) as [[nt nc] nh]. destruct Hd as (Hnt & Hnc & Hnh).
    pose proof (adjust_bounds (count_segment S df) nt nc nh
                  (count_segment_nonneg S df) Hnt Hnc Hnh) as Ha.
    destruct (adjust _ _) as [[a b] c]. simpl in *. apply Ha. exact Hshort.
  - destruct (assigned_spec rng_permutation Hrng df sizes seed S) as [Hin _].
    rewrite (Hin p Hp).
    pose proof (segment_slices_prefix rng_permutation Hrng df sizes seed S p Hv Hp0) as Hpre.
    destruct (segment_slices _ _ _ _ (S, p)) as [[t c] h].
    destruct Hpre as [k [_ Hall]].
    destruct (desired sizes p) as [[nt nc] nh]. simpl in Hshort.
    specialize (Hall Hshort). simpl.
    rewrite <- (shuffled_segment_len rng_permutation Hrng df seed S).
    now rewrite <- Hall, !len_app, Z.add_assoc.
Qed.

Lemma assigned_within_segment_witness :
  is_shuffle rotate_permutation /\ valid_sizes (mkSizes 2 2 0) /\
  (let '(a_test, a_control, a_holdout) :=
     assigned rotate_permutation (example_segment "F1_R1" 3) (mkSizes 2 2 0) 42 "F1_R1" in
   0 <= a_test /\ 0 <= a_control /\ 0 <= a_holdout /\
   a_test + a_control + a_holdout <= count_segment "F1_R1" (example_segment "F1_R1" 3)) /\
  (forall p, In ("F1_R1"%string, p) (segment_proportions (example_segment "F1_R1" 3)) ->
     let '(n_test, n_control, n_holdout) :=
       adjust (count_segment "F1_R1" (example_segment "F1_R1" 3))
              (desired (mkSizes 2 2 0) p) in
     0 <= n_test /\ 0 <= n_control /\ -1 <= n_holdout /\
     n_test + n_control + n_holdout <= count_segment "F1_R1" (example_segment "F1_R1" 3)).
Proof.
  assert (Hv : valid_sizes (mkSizes 2 2 0)) by (unfold valid_sizes; simpl; lia).
  split; [exact rotate_is_shuffle|]. split; [exact Hv|].
  exact (assigned_within_segment rotate_permutation (example_segment "F1_R1" 3)
           (mkSizes 2 2 0) 42 "F1_R1" rotate_is_shuffle Hv).
Defined.

(** The counts behind the rows: in a 3-row segment asked for 2, 2 and 0
    rows both scaled counts are the tie 1.5 and round to 2, so the
    remainder computed for the last group is [-1]; the slice taken for it
    is empty, and the groups get 2, 1 and 0 rows. *)
Example adjust_negative_remainder :
  adjust 3 (desired (mkSizes 2 2 0) 1) = (2, 2, -1) /\
  assigned rotate_permutation (example_segment "F1_R1" 3) (mkSizes 2 2 0) 42 "F1_R1"
  = (2, 1, 0).
Proof. split; vm_compute; reflexivity. Qed.

(** C1.  A derived count can be negative.  Six customers in two segments
    of three, with the targets Test 4, Control 4, Holdout 1 (all
    positive): each segment has the share 1/2, so it is asked for 2, 2
    and 0 rows (0.5 rounds to 0); that is more than its 3 rows, the
    counts are scaled by 3/4, both 1.5 round to 2, and the remainder
    computed for Holdout is [3 - 2 - 2 = -1].  The counts of Test and
    Control then add up to 4, one more than the segment has: Control,
    whose count is 2, is handed 1 row.  This holds for every generator
    and every seed. *)
Theorem holdout_count_negative
    (rng_permutation : Z -> nat -> list nat) (seed : Z) (S : string) (p : Q) :
  is_shuffle rng_permutation ->
  In (S, p) (segment_proportions two_small_segments) ->
  0 < Test (mkSizes 4 4 1) /\ 0 < Control (mkSizes 4 4 1) /\ 0 < Holdout (mkSizes 4 4 1) /\
  len (shuffled_segment rng_permutation two_small_segments seed S) = 3 /\
  desired (mkSizes 4 4 1) p = (2, 2, 0) /\
  adjust (len (shuffled_segment rng_permutation two_small_segments seed S))
         (desired (mkSizes 4 4 1) p) = (2, 2, -1) /\
  assigned rng_permutation two_small_segments (mkSizes 4 4 1) seed S = (2, 1, 0).
Proof.
  intros Hrng Hin.
  assert (Hlen : len (shuffled_segment rng_permutation two_small_segments seed S) = 3).
  { rewrite (shuffled_segment_len rng_permutation Hrng).
    vm_compute in Hin. destruct Hin as [E|[E|[]]]; inversion E; reflexivity. }
  assert (Hd : desired (mkSizes 4 4 1) p = (2, 2, 0)).
  { vm_compute in Hin. destruct Hin as [E|[E|[]]]; inversion E; reflexivity. }
  split; [reflexivity|]. split; [reflexivity|]. split; [reflexivity|].
  split; [exact Hlen|]. split; [exact Hd|].
  rewrite Hlen, Hd. split; [reflexivity|].
  destruct (assigned_spec rng_permutation Hrng two_small_segments (mkSizes 4 4 1) seed S)
    as [Hspec _].
  rewrite (Hspec p Hin). unfold segment_slices. rewrite Hlen, Hd.
  change (adjust 3 (2, 2, 0)) with (2, 2, -1).
  destruct (shuffled_segment rng_permutation two_small_segments seed S)
    as [|x [|y [|z [|u l]]]]; try discriminate Hlen.
  - reflexivity.
  - exfalso. unfold len in Hlen. simpl List.length in Hlen. lia.
Qed.

Lemma holdout_count_negative_witness :
  is_shuffle rotate_permutation /\
  In ("F1_R1"%string, (inject_Z 3 / inject_Z 6)%Q) (segment_proportions two_small_segments) /\
  0 < Test (mkSizes 4 4 1) /\ 0 < Control (mkSizes 4 4 1) /\ 0 < Holdout (mkSizes 4 4 1) /\
  len (shuffled_segment rotate_permutation two_small_segments 42 "F1_R1") = 3 /\
  desired (mkSizes 4 4 1) (inject_Z 3 / inject_Z 6) = (2, 2, 0) /\
  adjust (len (shuffled_segment rotate_permutation two_small_segments 42 "F1_R1"))
         (desired (mkSizes 4 4 1) (inject_Z 3 / inject_Z 6)) = (2, 2, -1) /\
  assigned rotate_permutation two_small_segments (mkSizes 4 4 1) 42 "F1_R1" = (2, 1, 0).
Proof.
  assert (Hin : In ("F1_R1"%string, (inject_Z 3 / inject_Z 6)%Q)
                   (segment_proportions two_small_segments))
    by (vm_compute; left; reflexivity).
  split; [exact rotate_is_shuffle|]. split; [exact Hin|].
  exact (holdout_count_negative rotate_permutation 42 "F1_R1" (inject_Z 3 / inject_Z 6)
           rotate_is_shuffle Hin).
Defined.

(** A segment of 10 rows whose targets 4 + 4 + 4 add up to 12: the
    groups get exactly 10 rows. *)
Lemma shortfall_exhausts_segment_witness :
  is_shuffle rotate_permutation /\ valid_sizes (mkSizes 4 4 4) /\
  In ("F1_R1"%string, 10 # 10) (segment_proportions (example_segment "F1_R1" 10)) /\
  count_segment "F1_R1" (example_segment "F1_R1" 10)
    < total_needed (desired (mkSizes 4 4 4) (10 # 10)) /\
  total_needed (adjust (count_segment "F1_R1" (example_segment "F1_R1" 10))
                       (desired (mkSizes 4 4 4) (10 # 10))) = 10 /\
  total_needed (assigned rotate_permutation (example_segment "F1_R1" 10)
                         (mkSizes 4 4 4) 42 "F1_R1") = 10.
Proof.
  assert (Hv : valid_sizes (mkSizes 4 4 4)) by (unfold valid_sizes; simpl; lia).
  assert (Hin : In ("F1_R1"%string, 10 # 10)
                   (segment_proportions (example_segment "F1_R1" 10)))
    by (vm_compute; left; reflexivity).
  assert (Hlt : count_segment "F1_R1" (example_segment "F1_R1" 10)
                < total_needed (desired (mkSizes 4 4 4) (10 # 10)))
    by (vm_compute; reflexivity).
  split; [exact rotate_is_shuffle|].
  split; [exact Hv|]. split; [exact Hin|]. split; [exact Hlt|].
  exact (shortfall_exhausts_segment rotate_permutation (example_segment "F1_R1" 10)
           (mkSizes 4 4 4) 42 "F1_R1" (10 # 10) rotate_is_shuffle Hv Hin Hlt).
Defined.

End SamplerProperties.

(* ================================================================= *)
(** ** Properties of the allocation: the groups do not overlap *)

Section Disjointness.

Variable rng_permutation : Z -> nat -> list nat.
Hypothesis rng_shuffles : is_shuffle rng_permutation.

Lemma NoDup_firstn {A} (k : nat) (l : list A) : NoDup l -> NoDup (firstn k l).
Proof.
  intros H. rewrite <- (firstn_skipn k l) in H. now apply NoDup_app_remove_r in H.
Qed.

Lemma NoDup_app_disjoint {A} (l1 l2 : list A) (x : A) :
  NoDup (l1 ++ l2) -> In x l1 -> ~ In x l2.
Proof.
  induction l1 as [|a l1 IH]; simpl; intros Hnd Hin; [contradiction|].
  inversion Hnd as [|? ? Hna Hnd']; subst.
  destruct Hin as [->|Hin].
  - intros H2. apply Hna. apply in_or_app. now right.
  - now apply IH.
Qed.

Lemma regroup_perm {A} (a x b y c z : list A) :
  Permutation ((a ++ x) ++ (b ++ y) ++ (c ++ z)) ((a ++ b ++ c) ++ (x ++ y ++ z)).
Proof.
  rewrite <- !app_assoc. apply Permutation_app_head.
  rewrite (Permutation_app_swap_app x b). apply Permutation_app_head.
  rewrite (Permutation_app_swap_app y c).
  apply (Permutation_app_swap_app x c).
Qed.

(** The three groups together are, up to order, the per-segment pieces
    laid one after the other. *)
Lemma groups_by_segment (f1 f2 f3 : string * Q -> DataFrame) (items : list (string * Q)) :
  Permutation (flat_map f1 items ++ flat_map f2 items ++ flat_map f3 items)
              (flat_map (fun it => f1 it ++ f2 it ++ f3 it) items).
Proof.
  induction items as [|it items IH]; simpl; [reflexivity|].
  rewrite regroup_perm. now apply Permutation_app_head.
Qed.

Lemma NoDup_pieces (f : string * Q -> DataFrame) (items : list (string * Q)) :
  NoDup (map fst items) ->
  (forall it, In it items -> NoDup (f it)) ->
  (forall it r, In it items -> In r (f it) -> Segment r = Some (fst it)) ->
  NoDup (flat_map f items).
Proof.
  induction items as [|[s p] items IH]; simpl; intros Hk Hnd Hseg; [constructor|].
  inversion Hk as [|? ? Hnotin Hk']; subst.
  apply NoDup_app.
  - apply Hnd. now left.
  - apply IH; auto.
  - intros r Hr Hin. apply in_flat_map in Hin. destruct Hin as [[s' p'] [Hit Hr']].
    pose proof (Hseg (s, p) r (or_introl eq_refl) Hr) as E1.
    pose proof (Hseg (s', p') r (or_intror Hit) Hr') as E2.
    simpl in E1, E2. rewrite E1 in E2. inversion E2; subst s'.
    apply Hnotin. apply in_map_iff. exists (s, p'). auto.
Qed.

Lemma sample_groups_NoDup (df : DataFrame) (sizes : SampleSizes) (seed : Z) :
  valid_sizes sizes -> NoDup df ->
  let '(t, c, h) := sample_groups rng_permutation df sizes seed in
  NoDup (t ++ c ++ h).
Proof.
  intros Hv Hdf. unfold sample_groups. rewrite sample_loop, !app_nil_l.
  eapply Permutation_NoDup; [symmetry; apply groups_by_segment|].
  apply NoDup_pieces.
  - apply segment_proportions_NoDup.
  - intros [s p] Hit.
    pose proof (segment_slices_prefix rng_permutation rng_shuffles df sizes seed s p Hv
                  (segment_proportions_nonneg s p df Hit)) as Hpre.
    destruct (segment_slices _ _ _ _ (s, p)) as [[t c] h]. simpl.
    destruct Hpre as [k [-> _]].
    apply NoDup_firstn.
    eapply Permutation_NoDup;
      [symmetry; apply (shuffled_segment_permutation rng_permutation rng_shuffles)|].
    now apply NoDup_filter.
  - intros it r _ Hr.
    pose proof (segment_slices_In rng_permutation rng_shuffles df sizes seed it r) as Hs.
    destruct (segment_slices _ _ _ _ it) as [[t c] h]. simpl in Hr.
    apply Hs. rewrite !in_app_iff in Hr. tauto.
Qed.

Lemma filter_split {A} (p : A -> bool) (l : list A) :
  Permutation l (filter p l ++ filter (fun x => negb (p x)) l).
Proof.
  induction l as [|x l IH]; simpl; [reflexivity|].
  destruct (p x); simpl.
  - now constructor.
  - rewrite <- Permutation_middle. now constructor.
Qed.

Lemma filter_disjoint_union {A} (p q : A -> bool) (l : list A) :
  (forall x, p x = true -> q x = false) ->
  Permutation (filter p l ++ filter q l) (filter (fun x => p x || q x) l).
Proof.
  intros Hd. induction l as [|x l IH]; simpl; [reflexivity|].
  destruct (p x) eqn:Ep; simpl.
  - rewrite (Hd x Ep). now constructor.
  - destruct (q x); simpl; [|exact IH].
    rewrite <- Permutation_middle. now constructor.
Qed.

(** The rows of the segments in [ks], segment by segment, are the rows
    whose segment is one of [ks]. *)
Lemma segments_cover (ks : list string) (df : DataFrame) :
  NoDup ks ->
  Permutation (flat_map (fun s => filter (fun r => cell_eqb (Segment r) s) df) ks)
              (filter (fun r => existsb (cell_eqb (Segment r)) ks) df).
Proof.
  induction ks as [|s ks IH]; intros Hnd; simpl.
  - induction df as [|r df IHdf]; simpl; [reflexivity | exact IHdf].
  - inversion Hnd as [|? ? Hnotin Hnd']; subst.
    rewrite (IH Hnd'). apply filter_disjoint_union.
    intros r Hr. destruct (existsb (cell_eqb (Segment r)) ks) eqn:E; [|reflexivity].
    apply existsb_exists in E. destruct E as [s' [Hs' E]].
    unfold cell_eqb in Hr, E. destruct (Segment r) as [u|]; [|discriminate].
    apply String.eqb_eq in Hr, E. subst. contradiction.
Qed.

(** What is cut from the segments, together with what is left of them,
    is all their rows. *)
Lemma pieces_and_rest (df : DataFrame) (sizes : SampleSizes) (seed : Z)
    (items : list (string * Q)) :
  valid_sizes sizes ->
  (forall it, In it items -> (0 <= snd it)%Q) ->
  exists rest,
    Permutation
      (flat_map (fun it =>
                   fst (fst (segment_slices rng_permutation df sizes seed it))
                   ++ snd (fst (segment_slices rng_permutation df sizes seed it))
                   ++ snd (segment_slices rng_permutation df sizes seed it)) items
       ++ rest)
      (flat_map (fun s => filter (fun r => cell_eqb (Segment r) s) df) (map fst items)).
Proof.
  intros Hv. induction items as [|[s p] items IH]; intros Hp.
  - exists []. reflexivity.
  - destruct IH as [rest IH]; [intros it Hit; apply Hp; now right|].
    pose proof (segment_slices_prefix rng_permutation rng_shuffles df sizes seed s p Hv
                  (Hp (s, p) (or_introl eq_refl))) as Hpre.
    cbn [flat_map map fst snd].
    destruct (segment_slices _ _ _ _ (s, p)) as [[t c] h]. cbn [fst snd].
    destruct Hpre as [k [-> _]].
    exists (skipn k (shuffled_segment rng_permutation df seed s) ++ rest).
    rewrite <- (shuffled_segment_permutation rng_permutation rng_shuffles df seed s).
    rewrite <- IH.
    rewrite <- (firstn_skipn k (shuffled_segment rng_permutation df seed s)) at 3.
    rewrite <- !app_assoc. apply Permutation_app_head.
    rewrite !app_assoc. apply Permutation_app_tail. apply Permutation_app_comm.
Qed.

(** The three groups, with the rows left unassigned, are the table: every
    row of the table is used at most once. *)
Lemma sample_groups_partition (df : DataFrame) (sizes : SampleSizes) (seed : Z) :
  valid_sizes sizes ->
  let '(t, c, h) := sample_groups rng_permutation df sizes seed in
  exists unassigned, Permutation (t ++ c ++ h ++ unassigned) df.
Proof.
  intros Hv. unfold sample_groups. rewrite sample_loop, !app_nil_l.
  destruct (pieces_and_rest df sizes seed (segment_proportions df) Hv) as [rest Hrest].
  { intros [s p] Hit. exact (segment_proportions_nonneg s p df Hit). }
  rewrite (segments_cover _ df (segment_proportions_NoDup df)) in Hrest.
  rewrite <- groups_by_segment in Hrest.
  exists (rest ++ filter (fun r => negb (existsb (cell_eqb (Segment r))
                                           (map fst (segment_proportions df)))) df).
  eapply Permutation_trans;
    [|symmetry; apply (filter_split (fun r => existsb (cell_eqb (Segment r))
                                              (map fst (segment_proportions df))) df)].
  rewrite !app_assoc. apply Permutation_app_tail.
  rewrite <- !app_assoc. rewrite app_assoc in Hrest. rewrite <- !app_assoc in Hrest.
  exact Hrest.
Qed.

End Disjointness.

(** C9.  For every segmented table, non-negative target sizes and seed:
    the groups Test, Control and Holdout, together with the rows left
    unassigned, are a rearrangement of the table, so every row of the
    table is used at most once; when the rows of the table are distinct,
    no row is in two of the groups, nor twice in one. *)
Theorem groups_pairwise_disjoint
    (rng_permutation : Z -> nat -> list nat) (df : DataFrame)
    (sizes : SampleSizes) (seed : Z) :
  is_shuffle rng_permutation ->
  valid_sizes sizes ->
  let '(test_group, control_group, holdout_group) :=
    sample_groups rng_permutation df sizes seed in
  (exists unassigned,
     Permutation (test_group ++ control_group ++ holdout_group ++ unassigned) df) /\
  (NoDup df ->
   NoDup (test_group ++ control_group ++ holdout_group) /\
   forall r : Row,
     ~ (In r test_group /\ In r control_group) /\
     ~ (In r test_group /\ In r holdout_group) /\
     ~ (In r control_group /\ In r holdout_group)).
Proof.
  intros Hrng Hv.
  pose proof (sample_groups_NoDup rng_permutation Hrng df sizes seed Hv) as H.
  pose proof (sample_groups_partition rng_permutation Hrng df sizes seed Hv) as Hp.
  destruct (sample_groups rng_permutation df sizes seed) as [[t c] h].
  split; [exact Hp|]. intros Hdf. specialize (H Hdf).
  split; [exact H|]. intros r.
  pose proof (NoDup_app_disjoint t (c ++ h) r H) as Ht.
  pose proof (NoDup_app_disjoint c h r (NoDup_app_remove_l _ _ H)) as Hc.
  rewrite in_app_iff in Ht. tauto.
Qed.

Lemma groups_pairwise_disjoint_witness :
  is_shuffle rotate_permutation /\ valid_sizes (mkSizes 2 2 2) /\
  let '(test_group, control_group, holdout_group) :=
    sample_groups rotate_permutation
      (example_segment "F1_R1" 3 ++ example_segment "F2_R1" 3) (mkSizes 2 2 2) 42 in
  (exists unassigned,
     Permutation (test_group ++ control_group ++ holdout_group ++ unassigned)
                 (example_segment "F1_R1" 3 ++ example_segment "F2_R1" 3)) /\
  (NoDup (example_segment "F1_R1" 3 ++ example_segment "F2_R1" 3) ->
   NoDup (test_group ++ control_group ++ holdout_group) /\
   forall r : Row,
     ~ (In r test_group /\ In r control_group) /\
     ~ (In r test_group /\ In r holdout_group) /\
     ~ (In r control_group /\ In r holdout_group)).
Proof.
  assert (Hv : valid_sizes (mkSizes 2 2 2)) by (unfold valid_sizes; simpl; lia).
  split; [exact rotate_is_shuffle|]. split; [exact Hv|].
  exact (groups_pairwise_disjoint rotate_permutation
           (example_segment "F1_R1" 3 ++ example_segment "F2_R1" 3) (mkSizes 2 2 2) 42
           rotate_is_shuffle Hv).
Defined.

(** The end-to-end example: six customers, three in each of two segments,
    asked for 2 + 2 + 2: every customer is in exactly one group. *)
Example six_customers_two_each :
  let '(test_group, control_group, holdout_group) :=
    sample_groups rotate_permutation
      (example_segment "F1_R1" 3 ++ example_segment "F2_R1" 3) (mkSizes 2 2 2) 42 in
  (map customer_id test_group, map customer_id control_group,
   map customer_id holdout_group)
  = (["c0"; "c0"], ["c1"; "c1"], ["c2"; "c2"])%string.
Proof. vm_compute. reflexivity. Qed.

(* ================================================================= *)
(** ** Proportionality of the desired counts *)

Section Proportionality.

(** Rounding each term moves a sum by at most half the number of terms. *)
Lemma round_sum_error (l : list Q) :
  (- (inject_Z (len l) * (1 # 2)) <= inject_Z (Zsum (map py_round l)) - Qsum l /\
   inject_Z (Zsum (map py_round l)) - Qsum l <= inject_Z (len l) * (1 # 2))%Q.
Proof.
  induction l as [|x l IH].
  - split; unfold Qle; simpl; lia.
  - change (Zsum (map py_round (x :: l))) with (py_round x + Zsum (map py_round l)).
    change (Qsum (x :: l)) with (x + Qsum l)%Q.
    replace (len (x :: l)) with (len l + 1) by (unfold len; simpl List.length; lia).
    rewrite !inject_Z_plus. change (inject_Z 1) with 1%Q.
    pose proof (py_round_error x) as [H1 H2].
    destruct IH as [H3 H4]. split; lra.
Qed.

Lemma scaled_shares_sum (T : Q) (N : Q) (l : list (string * Z)) :
  (Qsum (map (fun sc => T * (inject_Z (snd sc) / N)) l)
   == T * (inject_Z (Zsum (map snd l)) / N))%Q.
Proof.
  induction l as [|sc l IH]; simpl.
  - unfold Qdiv. ring.
  - rewrite IH, inject_Z_plus. unfold Qdiv. ring.
Qed.

Lemma value_counts_total_pos (col : list (option string)) :
  value_counts col <> [] -> 0 < Zsum (map snd (value_counts col)).
Proof.
  intros Hne. apply Zsum_pos.
  - destruct (value_counts col); [congruence | discriminate].
  - intros z Hz. apply in_map_iff in Hz. destruct Hz as [[s c] [E H]].
    simpl in E. subst z. apply value_counts_In in H. destruct H as [Hin ->].
    now apply count_of_pos.
Qed.

(** The exact shares of a non-empty table add up to one, so the exact
    (unrounded) requests of a group add up to its target. *)
Lemma exact_requests_sum (T : Z) (df : DataFrame) :
  segment_proportions df <> [] ->
  (Qsum (map (fun it => inject_Z T * snd it) (segment_proportions df)) == inject_Z T)%Q.
Proof.
  intros Hne. unfold segment_proportions in *.
  rewrite map_map. simpl.
  rewrite scaled_shares_sum.
  assert (Hpos : 0 < Zsum (map snd (value_counts (map Segment df)))).
  { apply value_counts_total_pos. intros E. rewrite E in Hne. now apply Hne. }
  assert (Hq : ~ (inject_Z (Zsum (map snd (value_counts (map Segment df)))) == 0)%Q).
  { change 0%Q with (inject_Z 0). rewrite inject_Z_injective. lia. }
  field. exact Hq.
Qed.

(** The rounded requests of a group with target [T] differ from [T] by at
    most half the number of segments. *)
Lemma rounded_requests_sum (T : Z) (df : DataFrame) :
  segment_proportions df <> [] ->
  2 * Z.abs (Zsum (map (fun it => py_round (inject_Z T * snd it)) (segment_proportions df)) - T)
  <= n_segments df.
Proof.
  intros Hne.
  pose proof (round_sum_error (map (fun it => inject_Z T * snd it)%Q (segment_proportions df)))
    as [H1 H2].
  rewrite (exact_requests_sum T df Hne) in H1, H2.
  rewrite map_map in H1, H2.
  unfold len in H1, H2. rewrite length_map in H1, H2.
  fold (len (segment_proportions df)) in H1, H2. fold (n_segments df) in H1, H2.
  set (D := Zsum (map (fun it => py_round (inject_Z T * snd it)) (segment_proportions df))) in *.
  assert (Hu : (inject_Z (2 * D) <= inject_Z (n_segments df + 2 * T))%Q).
  { rewrite inject_Z_plus, !inject_Z_mult. change (inject_Z 2) with 2%Q. lra. }
  assert (Hl : (inject_Z (2 * T) <= inject_Z (n_segments df + 2 * D))%Q).
  { rewrite inject_Z_plus, !inject_Z_mult. change (inject_Z 2) with 2%Q. lra. }
  rewrite <- Zle_Qle in Hu, Hl. lia.
Qed.

End Proportionality.

(** C6.  For every group target and every segmented table with at least
    one segment: the desired counts of the group, added up over the [n]
    segments before any shortfall adjustment, differ from the rounded
    target by at most [n - 1]. *)
Theorem desired_sum_close_to_target (sizes : SampleSizes) (df : DataFrame) :
  1 <= n_segments df ->
  Z.abs (desired_sum pick_test sizes df - py_round (inject_Z (Test sizes)))
    <= n_segments df - 1 /\
  Z.abs (desired_sum pick_control sizes df - py_round (inject_Z (Control sizes)))
    <= n_segments df - 1 /\
  Z.abs (desired_sum pick_holdout sizes df - py_round (inject_Z (Holdout sizes)))
    <= n_segments df - 1.
Proof.
  intros Hn.
  assert (Hne : segment_proportions df <> []).
  { intros E. unfold n_segments in Hn. rewrite E in Hn. unfold len in Hn. simpl in Hn. lia. }
  rewrite !py_round_inject_Z.
  pose proof (rounded_requests_sum (Test sizes) df Hne) as Ht.
  pose proof (rounded_requests_sum (Control sizes) df Hne) as Hc.
  pose proof (rounded_requests_sum (Holdout sizes) df Hne) as Hh.
  unfold desired_sum, pick_test, pick_control, pick_holdout, desired. simpl.
  repeat split; lia.
Qed.

Lemma desired_sum_close_to_target_witness :
  1 <= n_segments (example_segment "F1_R1" 3 ++ example_segment "F2_R1" 4) /\
  Z.abs (desired_sum pick_test DEFAULT_SAMPLE_SIZES
           (example_segment "F1_R1" 3 ++ example_segment "F2_R1" 4)
         - py_round (inject_Z (Test DEFAULT_SAMPLE_SIZES)))
    <= n_segments (example_segment "F1_R1" 3 ++ example_segment "F2_R1" 4) - 1 /\
  Z.abs (desired_sum pick_control DEFAULT_SAMPLE_SIZES
           (example_segment "F1_R1" 3 ++ example_segment "F2_R1" 4)
         - py_round (inject_Z (Control DEFAULT_SAMPLE_SIZES)))
    <= n_segments (example_segment "F1_R1" 3 ++ example_segment "F2_R1" 4) - 1 /\
  Z.abs (desired_sum pick_holdout DEFAULT_SAMPLE_SIZES
           (example_segment "F1_R1" 3 ++ example_segment "F2_R1" 4)
         - py_round (inject_Z (Holdout DEFAULT_SAMPLE_SIZES)))
    <= n_segments (example_segment "F1_R1" 3 ++ example_segment "F2_R1" 4) - 1.
Proof.
  assert (Hn : 1 <= n_segments (example_segment "F1_R1" 3 ++ example_segment "F2_R1" 4))
    by (vm_compute; discriminate).
  split; [exact Hn|].
  exact (desired_sum_close_to_target DEFAULT_SAMPLE_SIZES _ Hn).
Defined.

(* ================================================================= *)
(** ** Facts about bin edges and [pd.cut] *)

Section Edges.

Lemma edge_leb_refl (a : edge) : edge_leb a a = true.
Proof. destruct a; simpl; try reflexivity. apply Qle_bool_iff, Qle_refl. Qed.

Lemma edge_leb_trans (a b c : edge) :
  edge_leb a b = true -> edge_leb b c = true -> edge_leb a c = true.
Proof.
  destruct a, b, c; simpl; try congruence.
  rewrite !Qle_bool_iff. apply Qle_trans.
Qed.

Lemma edge_leb_total (a b : edge) : edge_leb a b = false -> edge_leb b a = true.
Proof.
  destruct a, b; simpl; try congruence.
  intros H. apply Qle_bool_iff.
  destruct (Qlt_le_dec q0 q) as [Hlt|Hle].
  - now apply Qlt_le_weak.
  - apply Qle_bool_iff in Hle. congruence.
Qed.

Lemma edge_ltb_leb (a b : edge) : edge_ltb a b = true -> edge_leb a b = true.
Proof.
  unfold edge_ltb. intros H. apply edge_leb_total.
  now destruct (edge_leb b a).
Qed.

Lemma edge_ltb_leb_trans (a b c : edge) :
  edge_ltb a b = true -> edge_leb b c = true -> edge_ltb a c = true.
Proof.
  unfold edge_ltb. intros Hab Hbc.
  destruct (edge_leb c a) eqn:E; [|reflexivity].
  rewrite (edge_leb_trans b c a Hbc E) in Hab. discriminate.
Qed.

Lemma edge_leb_ltb_trans (a b c : edge) :
  edge_leb a b = true -> edge_ltb b c = true -> edge_ltb a c = true.
Proof.
  unfold edge_ltb. intros Hab Hbc.
  destruct (edge_leb c a) eqn:E; [|reflexivity].
  rewrite (edge_leb_trans c a b E Hab) in Hbc. discriminate.
Qed.

(** In a strictly increasing sequence the first edge is below all others. *)
Lemma strictly_increasing_head (a : edge) (r : list edge) :
  strictly_increasing (a :: r) = true -> forall x, In x r -> edge_ltb a x = true.
Proof.
  revert a. induction r as [|b r IH]; intros a H x Hx; [contradiction|].
  simpl in H. apply andb_true_iff in H. destruct H as [Hab Hr].
  destruct Hx as [<-|Hx]; [exact Hab|].
  apply (edge_ltb_leb_trans a b x Hab). apply edge_ltb_leb. now apply IH.
Qed.

Lemma strictly_increasing_tail (a : edge) (r : list edge) :
  strictly_increasing (a :: r) = true -> strictly_increasing r = true.
Proof.
  destruct r as [|b r]; [reflexivity|]. simpl.
  intros H. apply andb_true_iff in H. tauto.
Qed.

Lemma monotonic_not_decreasing (bins : list edge) :
  is_monotonic_increasing bins = negb (decreasing_somewhere bins).
Proof.
  induction bins as [|a [|b r] IH]; try reflexivity.
  change (is_monotonic_increasing (a :: b :: r))
    with (edge_leb a b && is_monotonic_increasing (b :: r)).
  change (decreasing_somewhere (a :: b :: r))
    with (edge_ltb b a || decreasing_somewhere (b :: r)).
  rewrite IH. unfold edge_ltb. now destruct (edge_leb a b), (decreasing_somewhere (b :: r)).
Qed.

Lemma strictly_increasing_monotonic (bins : list edge) :
  strictly_increasing bins = true -> is_monotonic_increasing bins = true.
Proof.
  induction bins as [|a [|b r] IH]; try reflexivity.
  intros H. pose proof (strictly_increasing_tail _ _ H) as Ht.
  change (edge_leb a b && is_monotonic_increasing (b :: r) = true).
  rewrite (IH Ht), andb_true_r. apply edge_ltb_leb.
  apply (strictly_increasing_head a (b :: r) H). now left.
Qed.

Lemma strictly_increasing_no_duplicates (bins : list edge) :
  strictly_increasing bins = true -> has_duplicates bins = false.
Proof.
  induction bins as [|a r IH]; [reflexivity|].
  intros H. simpl. rewrite (IH (strictly_increasing_tail _ _ H)), orb_false_r.
  destruct (existsb (edge_eqb a) r) eqn:E; [|reflexivity].
  apply existsb_exists in E. destruct E as [x [Hx Hax]].
  pose proof (strictly_increasing_head a r H x Hx) as Hlt.
  unfold edge_eqb in Hax. unfold edge_ltb in Hlt.
  apply andb_true_iff in Hax. destruct Hax as [_ Hxa]. rewrite Hxa in Hlt. discriminate.
Qed.

Lemma strictly_increasing_accepted (bins : list edge) :
  strictly_increasing bins = true -> bins <> [] -> cut_accepts bins = true.
Proof.
  intros H Hne. unfold cut_accepts.
  rewrite (strictly_increasing_monotonic bins H), (strictly_increasing_no_duplicates bins H).
  destruct bins; [congruence | reflexivity].
Qed.

(** What the left-to-right scan finds: the edges before the stop are at
    most [v], the edge at the stop is above [v]. *)
Lemma searchsorted_before (bins : list edge) (v : edge) (j : nat) :
  (j < searchsorted_right bins v)%nat -> edge_leb (nth j bins PosInf) v = true.
Proof.
  revert j. induction bins as [|e r IH]; intros j Hj; simpl in *; [lia|].
  destruct (edge_leb e v) eqn:E; [|lia].
  destruct j as [|j]; [exact E|]. apply IH. lia.
Qed.

Lemma searchsorted_stop (bins : list edge) (v : edge) :
  (searchsorted_right bins v < List.length bins)%nat ->
  edge_leb (nth (searchsorted_right bins v) bins PosInf) v = false.
Proof.
  induction bins as [|e r IH]; simpl; intros H; [lia|].
  destruct (edge_leb e v) eqn:E; [|exact E]. apply IH. lia.
Qed.

Lemma searchsorted_le_length (bins : list edge) (v : edge) :
  (searchsorted_right bins v <= List.length bins)%nat.
Proof.
  induction bins as [|e r IH]; simpl; [lia|]. destruct (edge_leb e v); lia.
Qed.

(** On strictly increasing edges the scan stops exactly at the bucket. *)
Lemma searchsorted_bucket (bins : list edge) (v : edge) (k : nat) :
  strictly_increasing bins = true ->
  (1 <= k < List.length bins)%nat ->
  edge_leb (nth (k - 1) bins PosInf) v = true ->
  edge_leb (nth k bins PosInf) v = false ->
  searchsorted_right bins v = k.
Proof.
  revert k. induction bins as [|e r IH]; intros k Hs Hk Hlo Hhi; [simpl in Hk; lia|].
  simpl in Hk.
  destruct k as [|k]; [lia|].
  replace (S k - 1)%nat with k in Hlo by lia.
  change (nth (S k) (e :: r) PosInf) with (nth k r PosInf) in Hhi.
  assert (He : edge_leb e v = true).
  { destruct k as [|k]; [exact Hlo|].
    change (nth (S k) (e :: r) PosInf) with (nth k r PosInf) in Hlo.
    apply (edge_leb_trans e (nth k r PosInf) v); [|exact Hlo].
    apply edge_ltb_leb. apply (strictly_increasing_head e r Hs).
    apply nth_In. lia. }
  simpl. rewrite He. f_equal.
  destruct k as [|k].
  - destruct r as [|b r]; simpl in *; [lia|]. now rewrite Hhi.
  - apply IH.
    + exact (strictly_increasing_tail _ _ Hs).
    + lia.
    + replace (S k - 1)%nat with k by lia. exact Hlo.
    + exact Hhi.
Qed.

End Edges.

(* ================================================================= *)
(** ** The binning rule *)

Section Binning.

Lemma bucket_of_in_bucket (bins : list edge) (v : Z) (i : nat) :
  bucket_of bins (Some v) = Some i -> in_bucket bins v i.
Proof.
  unfold bucket_of, in_bucket.
  pose proof (searchsorted_le_length bins (metric v)) as Hle.
  destruct (Nat.eqb_spec (searchsorted_right bins (metric v)) (List.length bins)) as [E|Hn];
    [discriminate|].
  destruct (Nat.eqb_spec (searchsorted_right bins (metric v)) 0) as [E|Hz];
    [discriminate|].
  simpl. intros H. inversion H as [Hi]. rewrite Hi in *.
  split; [lia|]. split.
  - apply searchsorted_before. lia.
  - unfold edge_ltb. rewrite <- Hi at 1. rewrite searchsorted_stop; [reflexivity | lia].
Qed.

Lemma in_bucket_bucket_of (bins : list edge) (v : Z) (i : nat) :
  strictly_increasing bins = true -> in_bucket bins v i ->
  bucket_of bins (Some v) = Some i.
Proof.
  intros Hs (Hi & Hlo & Hhi). unfold bucket_of.
  unfold edge_ltb in Hhi.
  rewrite (searchsorted_bucket bins (metric v) i Hs Hi Hlo)
    by (now destruct (edge_leb (nth i bins PosInf) (metric v))).
  destruct (Nat.eqb_spec i (List.length bins)); [lia|].
  destruct (Nat.eqb_spec i 0); [lia|]. reflexivity.
Qed.

Lemma bucket_labels_nth (prefix : string) (bins : list edge) (i : nat) :
  (1 <= i < List.length bins)%nat ->
  nth_error (bucket_labels prefix bins) (i - 1) = Some (String.append prefix (str i)).
Proof.
  intros Hi. unfold bucket_labels.
  rewrite nth_error_map, nth_error_seq.
  destruct (Nat.ltb_spec (i - 1) (List.length bins - 1)); [|lia].
  simpl. do 3 f_equal. lia.
Qed.

Lemma append_inj_r (p s1 s2 : string) :
  String.append p s1 = String.append p s2 -> s1 = s2.
Proof. induction p as [|c p IH]; simpl; intros H; [exact H | inversion H; auto]. Qed.

Lemma str_inj (i j : nat) : str i = str j -> i = j.
Proof.
  unfold str. intros H. apply Unsigned.to_uint_inj.
  pose proof (NilEmpty.usu (Nat.to_uint i)) as Hi.
  rewrite H, NilEmpty.usu in Hi. now inversion Hi.
Qed.

Lemma cut_cell_in_bucket (bins : list edge) (prefix : string) (v : Z) (i : nat) :
  strictly_increasing bins = true ->
  (cut_cell bins (bucket_labels prefix bins) (Some v) = Some (String.append prefix (str i))
   <-> in_bucket bins v i).
Proof.
  intros Hs. unfold cut_cell. split.
  - destruct (bucket_of bins (Some v)) as [k|] eqn:E; [|discriminate].
    apply bucket_of_in_bucket in E.
    rewrite (bucket_labels_nth prefix bins k (proj1 E)).
    intros H. inversion H as [H']. apply append_inj_r, str_inj in H'. now subst k.
  - intros H. rewrite (in_bucket_bucket_of bins v i Hs H).
    apply bucket_labels_nth. apply H.
Qed.

Lemma in_bucket_unique (bins : list edge) (v : Z) (i j : nat) :
  strictly_increasing bins = true ->
  in_bucket bins v i -> in_bucket bins v j -> i = j.
Proof.
  intros Hs Hi Hj.
  apply (in_bucket_bucket_of bins v i Hs) in Hi.
  apply (in_bucket_bucket_of bins v j Hs) in Hj. congruence.
Qed.

Lemma strictly_increasing_le_last (bins : list edge) :
  strictly_increasing bins = true ->
  forall x, In x bins -> edge_leb x (last bins NegInf) = true.
Proof.
  induction bins as [|a r IH]; intros Hs x Hx; [contradiction|].
  destruct r as [|b r]; [destruct Hx as [<-|[]]; apply edge_leb_refl|].
  change (last (a :: b :: r) NegInf) with (last (b :: r) NegInf).
  pose proof (strictly_increasing_tail _ _ Hs) as Ht.
  destruct Hx as [<-|Hx]; [|now apply IH].
  apply (edge_leb_trans a b).
  - apply edge_ltb_leb. apply (strictly_increasing_head a (b :: r) Hs). now left.
  - apply IH; [exact Ht | now left].
Qed.

Lemma searchsorted_all (bins : list edge) (v : edge) :
  (forall x, In x bins -> edge_leb x v = true) ->
  searchsorted_right bins v = List.length bins.
Proof.
  induction bins as [|e r IH]; intros H; simpl; [reflexivity|].
  rewrite (H e (or_introl eq_refl)). f_equal. apply IH. intros x Hx. apply H. now right.
Qed.

(** A value left of the first edge, or not left of the last, has no bucket. *)
Lemma out_of_range_no_bucket (bins : list edge) (v : Z) :
  strictly_increasing bins = true -> out_of_range bins v ->
  bucket_of bins (Some v) = None.
Proof.
  intros Hs [Hlow|Hhigh]; unfold bucket_of.
  - assert (E : searchsorted_right bins (metric v) = 0%nat).
    { destruct bins as [|e r]; [reflexivity|]. simpl in *.
      unfold edge_ltb in Hlow. now destruct (edge_leb e (metric v)). }
    rewrite E. simpl. now rewrite orb_true_r.
  - rewrite searchsorted_all.
    + now rewrite Nat.eqb_refl.
    + intros x Hx. apply (edge_leb_trans x (last bins NegInf)); [|exact Hhigh].
      now apply strictly_increasing_le_last.
Qed.

Lemma pd_cut_accepted (x : list (option Z)) (bins : list edge) (prefix : string) :
  cut_accepts bins = true ->
  pd_cut x bins (bucket_labels prefix bins)
  = inr (map (cut_cell bins (bucket_labels prefix bins)) x).
Proof.
  unfold cut_accepts, pd_cut. intros H.
  apply andb_true_iff in H. destruct H as [H H3].
  apply andb_true_iff in H. destruct H as [H1 H2].
  rewrite H1. simpl. apply negb_true_iff in H2. rewrite H2.
  apply Nat.leb_le in H3.
  assert (E : len (bucket_labels prefix bins) = len bins - 1).
  { unfold len, bucket_labels. rewrite length_map, length_seq. lia. }
  rewrite E, Z.eqb_refl. reflexivity.
Qed.

Lemma pd_cut_rejected (x : list (option Z)) (bins : list edge) (labels : list string) :
  is_monotonic_increasing bins
  && negb (has_duplicates bins && negb (List.length bins =? 2)%nat) = false ->
  exists msg, pd_cut x bins labels = inl (ValueError msg).
Proof.
  unfold pd_cut. intros H.
  destruct (is_monotonic_increasing bins); simpl in *; [|eauto].
  apply negb_false_iff in H. rewrite H. eauto.
Qed.

End Binning.

(* ================================================================= *)
(** ** Running [bin_customers] *)

Section Store.

Lemma nth_error_store_set_same {A} (l : list A) (i : nat) (v : A) :
  (i < List.length l)%nat -> nth_error (store_set l i v) i = Some v.
Proof.
  revert i. induction l as [|x l IH]; intros i Hi; simpl in *; [lia|].
  destruct i as [|i]; simpl; [reflexivity | apply IH; lia].
Qed.

Lemma nth_error_store_set_other {A} (l : list A) (i j : nat) (v : A) :
  i <> j -> nth_error (store_set l i v) j = nth_error l j.
Proof.
  revert i j. induction l as [|x l IH]; intros i j Hij; simpl.
  - reflexivity.
  - destruct i as [|i], j as [|j]; simpl; try reflexivity; try congruence.
    apply IH. congruence.
Qed.

Lemma store_set_twice {A} (l : list A) (i : nat) (a b : A) :
  store_set (store_set l i a) i b = store_set l i b.
Proof.
  revert i. induction l as [|x l IH]; intros i; simpl; [reflexivity|].
  destruct i as [|i]; simpl; [reflexivity | now rewrite IH].
Qed.

Lemma length_store_set {A} (l : list A) (i : nat) (v : A) :
  List.length (store_set l i v) = List.length l.
Proof.
  revert i. induction l as [|x l IH]; intros i; simpl; [reflexivity|].
  destruct i as [|i]; simpl; [reflexivity | now rewrite IH].
Qed.

Lemma bind_read {B} (df : loc) (k : DataFrame -> M B) (w : World) (t : DataFrame) :
  nth_error (tables w) df = Some t -> bind (read df) k w = k t w.
Proof. intros H. unfold bind, read. now rewrite H. Qed.

Lemma bind_write {B} (df : loc) (t : DataFrame) (k : unit -> M B) (w : World) :
  bind (write df t) k w = k tt (with_tables w (store_set (tables w) df t)).
Proof. reflexivity. Qed.

Lemma bind_lift_inr {A B} (a : A) (k : A -> M B) (w : World) :
  bind (lift (inr a)) k w = k a w.
Proof. reflexivity. Qed.

Lemma bind_lift_inl {A B} (e : exn) (k : A -> M B) (w : World) :
  bind (lift (inl e)) k w = (inl e, w).
Proof. reflexivity. Qed.

Lemma assign_column_map (set : option string -> Row -> Row)
    (f : Row -> option string) (t : DataFrame) :
  assign_column set (map f t) t = map (fun r => set (f r) r) t.
Proof.
  unfold assign_column. induction t as [|r t IH]; simpl; [reflexivity | now rewrite IH].
Qed.

Lemma written_table (w : World) (df : loc) (t0 t : DataFrame) :
  nth_error (tables w) df = Some t0 ->
  nth_error (tables (with_tables w (store_set (tables w) df t))) df = Some t.
Proof.
  intros H. simpl. apply nth_error_store_set_same.
  apply nth_error_Some. congruence.
Qed.

Lemma with_tables_twice (w : World) (df : loc) (a b : DataFrame) :
  with_tables (with_tables w (store_set (tables w) df a))
              (store_set (tables (with_tables w (store_set (tables w) df a))) df b)
  = with_tables w (store_set (tables w) df b).
Proof. unfold with_tables. simpl. now rewrite store_set_twice. Qed.

(** With edges that pass pandas' checks, [bin_customers] returns the
    caller's table object, which now holds the segmented table; nothing
    else in the process changes. *)
Lemma bin_customers_run (df : loc) (rb fb : option (list edge)) (w : World) (t : DataFrame) :
  nth_error (tables w) df = Some t ->
  cut_accepts (py_or rb DEFAULT_RECENCY_BINS) = true ->
  cut_accepts (py_or fb DEFAULT_FREQUENCY_BINS) = true ->
  bin_customers df rb fb w =
  (inr (df, segmented (py_or rb DEFAULT_RECENCY_BINS) (py_or fb DEFAULT_FREQUENCY_BINS) t),
   with_tables w
     (store_set (tables w) df
        (segmented (py_or rb DEFAULT_RECENCY_BINS) (py_or fb DEFAULT_FREQUENCY_BINS) t))).
Proof.
  intros Hlive Hr Hf. unfold bin_customers, segmented.
  set (R := py_or rb DEFAULT_RECENCY_BINS) in *.
  set (F := py_or fb DEFAULT_FREQUENCY_BINS) in *.
  rewrite (bind_read df _ w t Hlive).
  rewrite (pd_cut_accepted _ R "R" Hr), bind_lift_inr, bind_write.
  rewrite (bind_read df _ _ _ (written_table w df t _ Hlive)).
  rewrite (pd_cut_accepted _ F "F" Hf), bind_lift_inr, bind_write, with_tables_twice.
  rewrite (bind_read df _ _ _ (written_table w df t _ Hlive)).
  rewrite bind_write, with_tables_twice.
  rewrite (bind_read df _ _ _ (written_table w df t _ Hlive)).
  rewrite bind_write, with_tables_twice.
  rewrite (bind_read df _ _ _ (written_table w df t _ Hlive)).
  unfold ret.
  assert (E1 : assign_column set_Recency_Bucket
                 (map (cut_cell R (bucket_labels "R" R)) (map recency t)) t
               = map (fun r => set_Recency_Bucket
                                 (cut_cell R (bucket_labels "R" R) (recency r)) r) t).
  { rewrite map_map. apply assign_column_map. }
  rewrite E1.
  set (t1 := map (fun r => set_Recency_Bucket
                             (cut_cell R (bucket_labels "R" R) (recency r)) r) t).
  assert (E2 : assign_column set_Frequency_Bucket
                 (map (cut_cell F (bucket_labels "F" F))
                      (map (fun r => Some (frequency r)) t1)) t1
               = map (fun r => set_Frequency_Bucket
                                 (cut_cell F (bucket_labels "F" F) (Some (frequency r))) r) t1).
  { rewrite map_map. apply assign_column_map. }
  rewrite E2. reflexivity.
Qed.

End Store.

(* ================================================================= *)
(** ** Properties of the segmenter *)

Section SegmenterProperties.

(** Every row of the segmented table comes from a row of the input whose
    two metrics both have a bucket; the metrics themselves are kept. *)
Lemma segmented_In (R F : list edge) (t : DataFrame) (r' : Row) :
  In r' (segmented R F t) ->
  exists r, In r t /\
    recency r' = recency r /\ frequency r' = frequency r /\
    customer_id r' = customer_id r /\
    Recency_Bucket r' = cut_cell R (bucket_labels "R" R) (recency r) /\
    Frequency_Bucket r' = cut_cell F (bucket_labels "F" F) (Some (frequency r)) /\
    Recency_Bucket r' <> None /\ Frequency_Bucket r' <> None.
Proof.
  unfold segmented. rewrite in_map_iff. intros [r2 [<- H2]].
  apply filter_In in H2. destruct H2 as [H2 Hb].
  apply in_map_iff in H2. destruct H2 as [r1 [<- H1]].
  apply in_map_iff in H1. destruct H1 as [r [<- Hr]].
  exists r. simpl in *. unfold has_buckets in Hb. simpl in Hb.
  repeat split; try assumption; try reflexivity.
  - destruct (cut_cell R _ _); discriminate.
  - destruct (cut_cell R _ _); [|discriminate].
    destruct (cut_cell F _ _); discriminate.
Qed.

Lemma py_or_given (bins : list edge) (default : list edge) :
  bins <> [] -> py_or (Some bins) default = bins.
Proof. destruct bins; [congruence | reflexivity]. Qed.

Lemma cut_cell_out_of_range (bins : list edge) (labels : list string) (v : Z) :
  strictly_increasing bins = true -> out_of_range bins v ->
  cut_cell bins labels (Some v) = None.
Proof.
  intros Hs Ho. unfold cut_cell. now rewrite (out_of_range_no_bucket bins v Hs Ho).
Qed.

End SegmenterProperties.

(** The top of the default recency range: 36 months is in the last
    bucket, 37 months is out of range and has none. *)
Example default_recency_boundary :
  cut_cell DEFAULT_RECENCY_BINS (bucket_labels "R" DEFAULT_RECENCY_BINS) (Some 36)
    = Some "R10"%string /\
  out_of_range DEFAULT_RECENCY_BINS 37 /\
  cut_cell DEFAULT_RECENCY_BINS (bucket_labels "R" DEFAULT_RECENCY_BINS) (Some 37) = None.
Proof. split; [reflexivity|]. split; [right|]; reflexivity. Qed.

(** C10.  Called with an empty edge list or with [None], for either
    dimension, the segmenter uses the default edges -- recency
    [0,1,2,3,4,5,6,7,13,25,37], frequency [1,2,3,4,5,inf] -- and does not
    fail: [bin_customers(df, [], [])] is [bin_customers(df)]. *)
Theorem empty_bins_fall_back_to_defaults (df : loc) (w : World) (t : DataFrame) :
  nth_error (tables w) df = Some t ->
  py_or (Some []) DEFAULT_RECENCY_BINS = map metric [0; 1; 2; 3; 4; 5; 6; 7; 13; 25; 37] /\
  py_or (Some []) DEFAULT_FREQUENCY_BINS = map metric [1; 2; 3; 4; 5] ++ [PosInf] /\
  (forall fb, bin_customers df (Some []) fb w = bin_customers df None fb w) /\
  (forall rb, bin_customers df rb (Some []) w = bin_customers df rb None w) /\
  bin_customers df (Some []) (Some []) w = bin_customers df None None w /\
  bin_customers df None None w
    = bin_customers df (Some DEFAULT_RECENCY_BINS) (Some DEFAULT_FREQUENCY_BINS) w /\
  bin_customers df (Some []) (Some []) w
    = (inr (df, segmented DEFAULT_RECENCY_BINS DEFAULT_FREQUENCY_BINS t),
       with_tables w (store_set (tables w) df
                        (segmented DEFAULT_RECENCY_BINS DEFAULT_FREQUENCY_BINS t))).
Proof.
  intros Hlive. repeat split.
  exact (bin_customers_run df (Some []) (Some []) w t Hlive eq_refl eq_refl).
Qed.

Lemma empty_bins_fall_back_to_defaults_witness :
  nth_error (tables (world_of three_customers)) 0%nat = Some three_customers /\
  bin_customers 0%nat (Some []) (Some []) (world_of three_customers)
    = bin_customers 0%nat None None (world_of three_customers) /\
  fst (bin_customers 0%nat (Some []) (Some []) (world_of three_customers))
    = inr (0%nat, segmented DEFAULT_RECENCY_BINS DEFAULT_FREQUENCY_BINS three_customers).
Proof.
  split; [reflexivity|].
  pose proof (empty_bins_fall_back_to_defaults 0%nat (world_of three_customers)
                three_customers eq_refl) as H.
  destruct H as (_ & _ & _ & _ & H1 & _ & H2).
  split; [exact H1 | now rewrite H2].
Defined.

(* ================================================================= *)
(** ** Which edges the segmenter refuses *)

Section Rejection.

Lemma non_increasing_nonempty (bins : list edge) :
  non_increasing_somewhere bins = true -> bins <> [].
Proof. destruct bins; [discriminate | congruence]. Qed.

(** A sequence that never decreases but fails to increase somewhere
    repeats an edge. *)
Lemma flat_step_duplicate (bins : list edge) :
  non_increasing_somewhere bins = true -> decreasing_somewhere bins = false ->
  has_duplicates bins = true.
Proof.
  induction bins as [|a [|b r] IH]; try discriminate.
  change (non_increasing_somewhere (a :: b :: r))
    with (edge_leb b a || non_increasing_somewhere (b :: r)).
  change (decreasing_somewhere (a :: b :: r))
    with (edge_ltb b a || decreasing_somewhere (b :: r)).
  intros Hn Hd. apply orb_false_iff in Hd. destruct Hd as [Hba Hd].
  change (has_duplicates (a :: b :: r))
    with (existsb (edge_eqb a) (b :: r) || has_duplicates (b :: r)).
  apply orb_true_iff in Hn. destruct Hn as [Hn|Hn].
  - unfold edge_ltb in Hba. apply negb_false_iff in Hba.
    simpl. unfold edge_eqb at 1. now rewrite Hba, Hn.
  - rewrite (IH Hn Hd). apply orb_true_r.
Qed.

Lemma bad_edges_fail_checks (bins : list edge) :
  non_increasing_somewhere bins = true ->
  (List.length bins <> 2)%nat \/ decreasing_somewhere bins = true ->
  is_monotonic_increasing bins
  && negb (has_duplicates bins && negb (List.length bins =? 2)%nat) = false.
Proof.
  intros Hn Hor. rewrite monotonic_not_decreasing.
  destruct (decreasing_somewhere bins) eqn:Hd; [reflexivity|].
  destruct Hor as [Hlen|?]; [|discriminate].
  rewrite (flat_step_duplicate bins Hn Hd).
  apply Nat.eqb_neq in Hlen. now rewrite Hlen.
Qed.

Lemma pd_cut_cases (x : list (option Z)) (bins : list edge) (labels : list string) :
  (exists msg, pd_cut x bins labels = inl (ValueError msg)) \/
  pd_cut x bins labels = inr (map (cut_cell bins labels) x).
Proof.
  unfold pd_cut.
  destruct (negb (is_monotonic_increasing bins)); [left; eauto|].
  destruct (has_duplicates bins && negb (List.length bins =? 2)%nat); [left; eauto|].
  destruct (negb (len labels =? len bins - 1)); [left; eauto | now right].
Qed.

End Rejection.

(** C5, as the code has it.  Edges that fail to increase at some position
    are refused when they decrease there, or when the sequence has a
    length other than two: [pd.cut] raises [ValueError], it reaches the
    caller and no segmented table is returned.  (Nothing refuses a
    sequence for being short.) *)
Theorem bad_edges_raise_ValueError (bins : list edge)
    (other : option (list edge)) (df : loc) (t : DataFrame) (w : World) :
  non_increasing_somewhere bins = true ->
  (List.length bins <> 2)%nat \/ decreasing_somewhere bins = true ->
  nth_error (tables w) df = Some t ->
  (exists msg w', bin_customers df (Some bins) other w = (inl (ValueError msg), w')) /\
  (exists msg w', bin_customers df other (Some bins) w = (inl (ValueError msg), w')).
Proof.
  intros Hn Hor Hlive.
  pose proof (bad_edges_fail_checks bins Hn Hor) as Hbad.
  pose proof (non_increasing_nonempty bins Hn) as Hne.
  split; unfold bin_customers; rewrite (py_or_given bins _ Hne);
    rewrite (bind_read df _ w t Hlive).
  - destruct (pd_cut_rejected (map recency t) bins (bucket_labels "R" bins) Hbad) as [msg E].
    rewrite E, bind_lift_inl. eauto.
  - set (R := py_or other DEFAULT_RECENCY_BINS).
    destruct (pd_cut_cases (map recency t) R (bucket_labels "R" R)) as [[msg E]|E];
      rewrite E.
    + rewrite bind_lift_inl. eauto.
    + rewrite bind_lift_inr, bind_write.
      rewrite (bind_read df _ _ _ (written_table w df t _ Hlive)).
      match goal with |- context [pd_cut ?x bins ?l] =>
        destruct (pd_cut_rejected x bins l Hbad) as [msg E']; rewrite E' end.
      rewrite bind_lift_inl. eauto.
Qed.

Lemma bad_edges_raise_ValueError_witness :
  non_increasing_somewhere [metric 0; metric 2; metric 1] = true /\
  ((List.length [metric 0; metric 2; metric 1] <> 2)%nat \/
   decreasing_somewhere [metric 0; metric 2; metric 1] = true) /\
  nth_error (tables (world_of three_customers)) 0%nat = Some three_customers /\
  (exists msg w',
     bin_customers 0%nat (Some [metric 0; metric 2; metric 1]) None (world_of three_customers)
     = (inl (ValueError msg), w')) /\
  (exists msg w',
     bin_customers 0%nat None (Some [metric 0; metric 2; metric 1]) (world_of three_customers)
     = (inl (ValueError msg), w')).
Proof.
  split; [reflexivity|]. split; [right; reflexivity|]. split; [reflexivity|].
  exact (bad_edges_raise_ValueError [metric 0; metric 2; metric 1] None 0%nat three_customers
           (world_of three_customers) eq_refl (or_intror eq_refl) eq_refl).
Defined.

(** C5 as stated fails: the empty edge list has fewer than two edges and
    is not rejected -- the defaults take its place and a table comes
    back. *)
Lemma short_edges_not_rejected :
  ~ (forall bins : list edge,
       non_increasing_somewhere bins = true \/ (List.length bins < 2)%nat ->
       rejected bins).
Proof.
  intros H.
  destruct (H [] (or_intror (Nat.lt_0_succ 1)) None 0%nat three_customers
              (world_of three_customers) eq_refl) as [[e [w' E]] _].
  vm_compute in E. discriminate.
Qed.

(** Neither is a single edge, nor the same edge given twice: both come
    back with an empty table and no exception. *)
Example single_and_repeated_edge_accepted :
  fst (bin_customers 0%nat (Some [metric 5]) None (world_of three_customers)) = inr (0%nat, []) /\
  fst (bin_customers 0%nat (Some [metric 1; metric 1]) None (world_of three_customers))
    = inr (0%nat, []).
Proof. split; vm_compute; reflexivity. Qed.

(* ================================================================= *)
(** ** Determinism of the sampler *)

Section Determinism.

Lemma shuffle_of_two (rng_permutation : Z -> nat -> list nat) (seed : Z) :
  is_shuffle rng_permutation ->
  rng_permutation seed 2%nat = [0%nat; 1%nat] \/ rng_permutation seed 2%nat = [1%nat; 0%nat].
Proof.
  intros Hs. specialize (Hs seed 2%nat). simpl in Hs.
  pose proof (Permutation_length Hs) as Hlen.
  destruct (rng_permutation seed 2%nat) as [|x [|y [|z l]]]; try discriminate.
  apply Permutation_length_2 in Hs. destruct Hs as [[-> ->]|[-> ->]]; auto.
Qed.

(** The result of [stratified_sample] is determined by the table behind
    its argument, the target sizes and the seed. *)
Lemma stratified_sample_result (rng_permutation : Z -> nat -> list nat)
    (df : loc) (sizes : option SampleSizes) (seed : Z) (w : World) :
  fst (stratified_sample rng_permutation df sizes seed w) =
  match nth_error (tables w) df with
  | Some t =>
      inr (label_groups
             (sample_groups rng_permutation t
                match sizes with Some s => s | None => DEFAULT_SAMPLE_SIZES end seed))
  | None => inl DanglingReference
  end.
Proof.
  unfold stratified_sample, bind, np_random_seed_set, read, ret. simpl.
  now destruct (nth_error (tables w) df).
Qed.

End Determinism.

(** C4 as stated fails: whatever the generator, presenting the same two
    customers in the other order swaps their groups.  The shuffle is
    drawn over row positions, so the group of a customer depends on where
    its row stands among the rows of its segment. *)
Lemma assignment_depends_on_row_order :
  ~ (exists rng_permutation : Z -> nat -> list nat,
       is_shuffle rng_permutation /\ order_independent rng_permutation).
Proof.
  intros [rng [Hs Ho]].
  specialize (Ho [example_customer "F1_R1" 0; example_customer "F1_R1" 1]
                 [example_customer "F1_R1" 1; example_customer "F1_R1" 0]
                 (mkSizes 1 1 0) 42).
  assert (Hv : valid_sizes (mkSizes 1 1 0)) by (unfold valid_sizes; simpl; lia).
  assert (Hnd : NoDup [example_customer "F1_R1" 0; example_customer "F1_R1" 1]).
  { repeat constructor; simpl; intuition discriminate. }
  specialize (Ho Hv Hnd (perm_swap _ _ _)).
  destruct (shuffle_of_two rng 42 Hs) as [E|E];
    vm_compute in Ho; vm_compute in E; rewrite E in Ho;
    destruct (Ho (example_customer "F1_R1" 0)) as [[H1 H2] _];
    vm_compute in H1, H2.
  - destruct (H1 (or_introl eq_refl)) as [H|[]]. discriminate H.
  - destruct (H2 (or_introl eq_refl)) as [H|[]]. discriminate H.
Qed.

Section Interleaving.

Variable rng_permutation : Z -> nat -> list nat.

Lemma Zsum_perm (l l' : list Z) : Permutation l l' -> Zsum l = Zsum l'.
Proof. induction 1; simpl; lia. Qed.

Lemma in_cells_count (s : string) (df : DataFrame) :
  In s (dropna_cells (map Segment df)) <-> 0 < count_segment s df.
Proof.
  split.
  - intros H. rewrite <- count_of_segment. now apply count_of_pos.
  - intros H. unfold count_segment, len in H.
    destruct (filter (fun r => cell_eqb (Segment r) s) df) as [|r l] eqn:E;
      [simpl in H; lia|].
    assert (Hr : In r (filter (fun r => cell_eqb (Segment r) s) df)) by (rewrite E; now left).
    apply filter_In in Hr. destruct Hr as [Hr Hs].
    apply in_dropna_cells. exists r. split; [exact Hr|].
    unfold cell_eqb in Hs. destruct (Segment r) as [t|]; [|discriminate].
    apply String.eqb_eq in Hs. now subst.
Qed.

Lemma same_segment_order_counts (df1 df2 : DataFrame) (s : string) :
  same_segment_order df1 df2 -> count_segment s df1 = count_segment s df2.
Proof. intros H. unfold count_segment. now rewrite (H s). Qed.

Lemma value_counts_same_segments (df1 df2 : DataFrame) :
  same_segment_order df1 df2 ->
  Permutation (value_counts (map Segment df1)) (value_counts (map Segment df2)).
Proof.
  intros H.
  rewrite (value_counts_perm (map Segment df1)), (value_counts_perm (map Segment df2)).
  rewrite (map_ext _ (fun s => (s, count_segment s df1)))
    by (intros; now rewrite count_of_segment).
  rewrite (map_ext (fun s => (s, count_of s (dropna_cells (map Segment df2))))
                   (fun s => (s, count_segment s df1)))
    by (intros; now rewrite count_of_segment, (same_segment_order_counts df1 df2)).
  apply Permutation_map. apply NoDup_Permutation; try apply uniques_NoDup.
  intros s. rewrite !uniques_In, !in_cells_count.
  now rewrite (same_segment_order_counts df1 df2 s H).
Qed.

Lemma segment_proportions_same_segments (df1 df2 : DataFrame) :
  same_segment_order df1 df2 ->
  Permutation (segment_proportions df1) (segment_proportions df2).
Proof.
  intros H. pose proof (value_counts_same_segments df1 df2 H) as Hp.
  unfold segment_proportions.
  rewrite (Zsum_perm _ _ (Permutation_map snd Hp)).
  now apply Permutation_map.
Qed.

Lemma segment_slices_same_segments (df1 df2 : DataFrame) (sizes : SampleSizes)
    (seed : Z) (it : string * Q) :
  same_segment_order df1 df2 ->
  segment_slices rng_permutation df1 sizes seed it
  = segment_slices rng_permutation df2 sizes seed it.
Proof.
  intros H. destruct it as [s p]. unfold segment_slices, shuffled_segment.
  now rewrite (H s).
Qed.

(** The groups keep their members when rows of different segments are
    interleaved differently. *)
Lemma sample_groups_same_segments (df1 df2 : DataFrame) (sizes : SampleSizes) (seed : Z) :
  same_segment_order df1 df2 ->
  same_members (sample_groups rng_permutation df1 sizes seed)
               (sample_groups rng_permutation df2 sizes seed).
Proof.
  intros H. unfold sample_groups. rewrite !sample_loop, !app_nil_l.
  pose proof (segment_proportions_same_segments df1 df2 H) as Hp.
  unfold same_members.
  repeat split.
  - rewrite (flat_map_ext _ (fun it => fst (fst (segment_slices rng_permutation df2 sizes seed it))))
      by (intros; now rewrite (segment_slices_same_segments df1 df2)).
    now apply Permutation_flat_map.
  - rewrite (flat_map_ext _ (fun it => snd (fst (segment_slices rng_permutation df2 sizes seed it))))
      by (intros; now rewrite (segment_slices_same_segments df1 df2)).
    now apply Permutation_flat_map.
  - rewrite (flat_map_ext _ (fun it => snd (segment_slices rng_permutation df2 sizes seed it)))
      by (intros; now rewrite (segment_slices_same_segments df1 df2)).
    now apply Permutation_flat_map.
Qed.

End Interleaving.

(** C4, as the code has it.  Two runs with the same seed, the same target
    sizes and the same input table (the same rows in the same order)
    return the same labelled table, whatever else differs between the two
    processes -- in particular the state of numpy's process-wide
    generator.  Reordering the input keeps every group's members as long
    as the rows of each segment stay in the same relative order. *)
Theorem same_input_same_assignment
    (rng_permutation : Z -> nat -> list nat) (df : loc)
    (sizes : option SampleSizes) (seed : Z) (w1 w2 : World) :
  nth_error (tables w1) df = nth_error (tables w2) df ->
  fst (stratified_sample rng_permutation df sizes seed w1)
  = fst (stratified_sample rng_permutation df sizes seed w2) /\
  forall (t1 t2 : DataFrame) (s : SampleSizes),
    same_segment_order t1 t2 ->
    same_members (sample_groups rng_permutation t1 s seed)
                 (sample_groups rng_permutation t2 s seed).
Proof.
  intros H. split.
  - rewrite !stratified_sample_result, H. reflexivity.
  - intros t1 t2 s. apply sample_groups_same_segments.
Qed.

Lemma same_input_same_assignment_witness :
  nth_error (tables (mkWorld [example_segment "F1_R1" 3] [] None (mkDate 2025 1 1) [])) 0%nat
  = nth_error (tables (mkWorld [example_segment "F1_R1" 3; three_customers] [] (Some 7)
                               (mkDate 2026 2 2) [])) 0%nat /\
  fst (stratified_sample rotate_permutation 0%nat (Some (mkSizes 1 1 1)) 42
         (mkWorld [example_segment "F1_R1" 3] [] None (mkDate 2025 1 1) []))
  = fst (stratified_sample rotate_permutation 0%nat (Some (mkSizes 1 1 1)) 42
           (mkWorld [example_segment "F1_R1" 3; three_customers] [] (Some 7)
                    (mkDate 2026 2 2) [])).
Proof.
  split; [reflexivity|].
  exact (proj1 (same_input_same_assignment rotate_permutation 0%nat (Some (mkSizes 1 1 1)) 42
                  _ _ eq_refl)).
Defined.

(* ================================================================= *)
(** ** Effects of the stages *)

Section Effects.



Lemma preserves_bind (R : World -> World -> Prop) {A B} (c : M A) (k : A -> M B) :
  (forall w1 w2 w3, R w1 w2 -> R w2 w3 -> R w1 w3) ->
  preserves R c -> (forall a, preserves R (k a)) -> preserves R (bind c k).
Proof.
  intros Ht Hc Hk w. unfold bind. specialize (Hc w).
  destruct (c w) as [[e|a] w1]; simpl in *; [exact Hc|].
  eapply Ht; [exact Hc | apply Hk].
Qed.


Lemma same_but_table_refl (df : loc) (w : World) : same_but_table df w w.
Proof. unfold same_but_table. tauto. Qed.

Lemma same_but_table_trans (df : loc) (w1 w2 w3 : World) :
  same_but_table df w1 w2 -> same_but_table df w2 w3 -> same_but_table df w1 w3.
Proof.
  intros (A1 & B1 & C1 & D1 & E1) (A2 & B2 & C2 & D2 & E2).
  repeat split; try congruence. intros l Hl. now rewrite E2, E1.
Qed.



Lemma preserves_read (df : loc) : preserves (same_but_table df) (read df).
Proof.
  intros w. unfold read. destruct (nth_error (tables w) df); apply same_but_table_refl.
Qed.

Lemma preserves_write (df : loc) (t : DataFrame) :
  preserves (same_but_table df) (write df t).
Proof.
  intros w. unfold write, same_but_table. simpl. repeat split.
  intros l Hl. apply nth_error_store_set_other. congruence.
Qed.

Lemma preserves_lift (R : World -> World -> Prop) {A} (r : exn + A) :
  (forall w, R w w) -> preserves R (lift r).
Proof. intros Hr w. destruct r; apply Hr. Qed.

Lemma preserves_ret (R : World -> World -> Prop) {A} (a : A) :
  (forall w, R w w) -> preserves R (ret a).
Proof. intros Hr w. apply Hr. Qed.










End Effects.

Section Stages.

Ltac frame_table df :=
  repeat first
    [ apply preserves_bind; [exact (same_but_table_trans df) | | intros ?]
    | apply preserves_read
    | apply preserves_write
    | apply preserves_lift; exact (same_but_table_refl df)
    | apply preserves_ret; exact (same_but_table_refl df) ].



(** Segmentation touches nothing but the table it is given. *)
Lemma bin_customers_frame (df : loc) (rb fb : option (list edge)) :
  preserves (same_but_table df) (bin_customers df rb fb).
Proof. unfold bin_customers. cbv zeta. frame_table df. Qed.









(** On a live order table it writes the summary it returns. *)
Lemma aggregate_writes_file (df : loc) (current_date : option Date) (w : World)
    (t : Orders.table) :
  nth_error (order_tables w) df = Some t ->
  exists summary,
    fst (aggregate_customer_data df current_date w) = inr summary /\
    files (snd (aggregate_customer_data df current_date w))
    = (CUSTOMER_SUMMARY_PATH, summary) :: files w.
Proof.
  intros H. unfold aggregate_customer_data, bind, ret, datetime_today, read_orders,
    to_csv_file.
  destruct current_date; simpl; rewrite H; simpl; eauto.
Qed.

Variable rng_permutation : Z -> nat -> list nat.




End Stages.




(* ================================================================= *)
(** ** The aggregator and customers without an email *)

Section Aggregator.

Lemma filter_all {A} (f : A -> bool) (l : list A) :
  (forall x, In x l -> f x = true) -> filter f l = l.
Proof.
  induction l as [|x l IH]; intros H; simpl; [reflexivity|].
  rewrite (H x (or_introl eq_refl)). f_equal. apply IH. intros y Hy. apply H. now right.
Qed.

(** Every summary row carries an email: the group key is never missing. *)
Lemma summary_rows_have_email (t : Orders.table) (d : Date) (r : Row) :
  In r (summary_before_dropna t d) -> has_email r = true.
Proof.
  unfold summary_before_dropna, groupby_agg. rewrite map_map, in_map_iff.
  intros [k [<- _]]. reflexivity.
Qed.

(** So the [dropna] after the aggregation (line 98) never removes a row. *)
Lemma dropna_after_aggregation_is_identity (t : Orders.table) (d : Date) :
  filter has_email (summary_before_dropna t d) = summary_before_dropna t d.
Proof. apply filter_all. intros r. apply summary_rows_have_email. Qed.

Lemma present_keys_filter (t : Orders.table) :
  present_keys (filter has_key t) = present_keys t.
Proof.
  induction t as [|r t IH]; simpl; [reflexivity|].
  unfold has_key at 1. destruct (group_key r) as [k|] eqn:E; simpl; [|exact IH].
  now rewrite E, IH.
Qed.

Lemma group_rows_filter (k : string * string) (t : Orders.table) :
  group_rows k (filter has_key t) = group_rows k t.
Proof.
  unfold group_rows. induction t as [|r t IH]; simpl; [reflexivity|].
  unfold has_key at 1. destruct (group_key r) as [k'|] eqn:E; simpl.
  - rewrite E, IH. reflexivity.
  - exact IH.
Qed.

(** Order rows with a missing email (or customer id) are left out by
    [groupby] itself: they enter no group and no metric. *)
Lemma rows_without_key_not_aggregated (t : Orders.table) :
  groupby_agg (filter has_key t) = groupby_agg t.
Proof.
  unfold groupby_agg, group_keys. rewrite present_keys_filter.
  apply map_ext. intros k. unfold aggregate_group. now rewrite group_rows_filter.
Qed.

(** After [astype(str)] no cell of the three essential columns is
    missing, so the [dropna] of the cleaning step (line 63) keeps every
    row. *)
Lemma cleaning_keeps_every_row (r : Orders.row) :
  has_essentials
    (set_order_customer_email (astype_str (Orders.customer_email
       (set_order_id (astype_str (Orders.order_id
          (set_order_customer_id (astype_str (Orders.customer_id r)) r)))
          (set_order_customer_id (astype_str (Orders.customer_id r)) r))))
       (set_order_id (astype_str (Orders.order_id
          (set_order_customer_id (astype_str (Orders.customer_id r)) r)))
          (set_order_customer_id (astype_str (Orders.customer_id r)) r))) = true.
Proof. reflexivity. Qed.

(** What the aggregator returns: the summary of the rows that have both
    keys, with nothing dropped after the aggregation. *)
Lemma aggregate_result (df : loc) (d : Date) (w : World) (t : Orders.table) :
  nth_error (order_tables w) df = Some t ->
  fst (aggregate_customer_data df (Some d) w)
  = inr (summary_before_dropna (filter has_key t) d).
Proof.
  intros H. unfold aggregate_customer_data, bind, ret, read_orders, to_csv_file.
  rewrite H. simpl.
  change (map (fun r => set_recency (months_since d (last_order_date r)) r) (groupby_agg t))
    with (summary_before_dropna t d).
  rewrite dropna_after_aggregation_is_identity.
  unfold summary_before_dropna. now rewrite rows_without_key_not_aggregated.
Qed.

End Aggregator.

(** C7, on the code.  A customer whose orders carry no email is not
    dropped after aggregation.  Through the pipeline (clean, then
    aggregate) the missing email has become the string ["nan"]: the
    customer is aggregated and stays in the summary.  Given to the
    aggregator directly, the rows are left out by [groupby] before any
    aggregation.  In either case the [dropna] after the aggregation
    removes nothing. *)
Theorem missing_email_not_dropped_after_aggregation :
  (exists summary,
     fst (process_order_history 0%nat (Some (mkDate 2025 1 15)) (orders_world example_orders))
       = inr summary /\
     map summary_line summary
       = [("c1", Some "nan", 2); ("c2", Some "b@example.org", 1)]%string) /\
  (exists summary,
     fst (aggregate_customer_data 0%nat (Some (mkDate 2025 1 15))
            (orders_world example_orders)) = inr summary /\
     map summary_line summary = [("c2", Some "b@example.org", 1)]%string /\
     map summary_line (groupby_agg example_orders) = map summary_line summary) /\
  (forall t d, filter has_email (summary_before_dropna t d) = summary_before_dropna t d) /\
  (forall t, groupby_agg (filter has_key t) = groupby_agg t) /\
  (forall df d w t,
     nth_error (order_tables w) df = Some t ->
     fst (aggregate_customer_data df (Some d) w)
     = inr (summary_before_dropna (filter has_key t) d)).
Proof.
  split; [|split; [|split; [|split]]].
  - eexists. split; [vm_compute; reflexivity|]. vm_compute. reflexivity.
  - eexists. split; [vm_compute; reflexivity|]. split; vm_compute; reflexivity.
  - apply dropna_after_aggregation_is_identity.
  - apply rows_without_key_not_aggregated.
  - apply aggregate_result.
Qed.

(* ================================================================= *)
(** ** More on the allocation: how many rows a group gets *)

Section SliceLengths.

Lemma len_sl {A} (a b : nat) (l : list A) :
  len (sl a b l) = Z.of_nat (Nat.min (b - a) (List.length l - a)).
Proof. unfold sl, len. now rewrite length_firstn, length_skipn. Qed.

(** A slice with non-negative bounds holds at most [stop - start] rows. *)
Lemma len_iloc_le {A} (l : list A) (a b : Z) :
  0 <= a -> 0 <= b -> len (iloc l a b) <= Z.max 0 (b - a).
Proof. intros Ha Hb. rewrite iloc_nonneg, len_sl by lia. lia. Qed.

(** Inside the table it holds exactly that many. *)
Lemma len_iloc_exact {A} (l : list A) (a b : Z) :
  0 <= a -> a <= b -> b <= len l -> len (iloc l a b) = b - a.
Proof. intros Ha Hab Hb. rewrite iloc_nonneg, len_sl by lia. unfold len in Hb. lia. Qed.

(** Rounding a number that is at most an integer stays at most that
    integer. *)
Lemma py_round_le_int (x : Q) (n : Z) : (x <= inject_Z n)%Q -> py_round x <= n.
Proof.
  intros Hx. pose proof (py_round_error x) as [_ Hr].
  assert (H : (inject_Z (2 * py_round x) <= inject_Z (2 * n + 1))%Q).
  { rewrite inject_Z_plus, !inject_Z_mult.
    change (inject_Z 2) with 2%Q. change (inject_Z 1) with 1%Q. lra. }
  rewrite <- Zle_Qle in H. lia.
Qed.

(** After the adjustment no group is asked for more than before, except
    that the remainder left for the last group may be one more. *)
Lemma adjust_caps (n_rows n_test n_control n_holdout : Z) :
  0 <= n_rows -> 0 <= n_test -> 0 <= n_control -> 0 <= n_holdout ->
  let '(a, b, c) := adjust n_rows (n_test, n_control, n_holdout) in
  a <= n_test /\ b <= n_control /\ c <= n_holdout + 1.
Proof.
  intros Hr Ht Hc Hh. unfold adjust.
  destruct (Z.ltb_spec n_rows (n_test + n_control + n_holdout)) as [Hlt|Hge];
    [|repeat split; lia].
  set (tot := n_test + n_control + n_holdout) in *.
  set (s := (inject_Z n_rows / inject_Z tot)%Q).
  assert (Hs : (0 <= s)%Q) by (apply Qdiv_nonneg; lia).
  assert (Htot : ~ (inject_Z tot == 0)%Q).
  { change 0%Q with (inject_Z 0). rewrite inject_Z_injective. lia. }
  assert (Hexact : (inject_Z tot * s == inject_Z n_rows)%Q) by (unfold s; field; exact Htot).
  assert (Hs1 : (s <= 1)%Q).
  { unfold s. apply Qle_shift_div_r.
    - change 0%Q with (inject_Z 0). rewrite <- Zlt_Qlt. lia.
    - rewrite Qmult_1_l. rewrite <- Zle_Qle. lia. }
  assert (Qt : (0 <= inject_Z n_test)%Q) by (change 0%Q with (inject_Z 0); now rewrite <- Zle_Qle).
  assert (Qc : (0 <= inject_Z n_control)%Q) by (change 0%Q with (inject_Z 0); now rewrite <- Zle_Qle).
  assert (Qh : (0 <= inject_Z n_holdout)%Q) by (change 0%Q with (inject_Z 0); now rewrite <- Zle_Qle).
  assert (Mt : (inject_Z n_test * s <= inject_Z n_test)%Q).
  { rewrite <- (Qmult_1_r (inject_Z n_test)) at 2. rewrite !(Qmult_comm (inject_Z n_test)).
    now apply Qmult_le_compat_r. }
  assert (Mc : (inject_Z n_control * s <= inject_Z n_control)%Q).
  { rewrite <- (Qmult_1_r (inject_Z n_control)) at 2. rewrite !(Qmult_comm (inject_Z n_control)).
    now apply Qmult_le_compat_r. }
  assert (Mh : (inject_Z n_holdout * s <= inject_Z n_holdout)%Q).
  { rewrite <- (Qmult_1_r (inject_Z n_holdout)) at 2. rewrite !(Qmult_comm (inject_Z n_holdout)).
    now apply Qmult_le_compat_r. }
  fold s. split; [now apply py_round_le_int|]. split; [now apply py_round_le_int|].
  pose proof (py_round_error (inject_Z n_test * s)) as [Ha _].
  pose proof (py_round_error (inject_Z n_control * s)) as [Hb _].
  unfold tot in Hexact. rewrite !inject_Z_plus in Hexact.
  assert (H : (inject_Z n_rows
               <= inject_Z (py_round (inject_Z n_test * s) + py_round (inject_Z n_control * s)
                            + n_holdout + 1))%Q).
  { rewrite !inject_Z_plus. change (inject_Z 1) with 1%Q. lra. }
  rewrite <- Zle_Qle in H. lia.
Qed.

End SliceLengths.

Section GroupSizes.

Variable rng_permutation : Z -> nat -> list nat.
Hypothesis rng_shuffles : is_shuffle rng_permutation.

(** The pieces cut from one segment against the counts asked of it. *)
Lemma segment_slices_sizes (df : DataFrame) (sizes : SampleSizes) (seed : Z)
    (s : string) (p : Q) :
  valid_sizes sizes -> (0 <= p)%Q ->
  let '(t, c, h) := segment_slices rng_permutation df sizes seed (s, p) in
  let '(n_test, n_control, n_holdout) := desired sizes p in
  (len t <= n_test /\ len c <= n_control /\ len h <= n_holdout + 1) /\
  (n_test + n_control + n_holdout <= count_segment s df ->
   len t = n_test /\ len c = n_control /\ len h = n_holdout).
Proof.
  intros Hv Hp. unfold segment_slices.
  set (l := shuffled_segment rng_permutation df seed s).
  assert (Hl : len l = count_segment s df)
    by apply (shuffled_segment_len rng_permutation rng_shuffles).
  pose proof (desired_nonneg sizes p Hv Hp) as Hd.
  destruct (desired sizes p) as [[nt nc] nh]. destruct Hd as (Hnt & Hnc & Hnh).
  pose proof (adjust_bounds (len l) nt nc nh (len_nonneg l) Hnt Hnc Hnh) as Hb.
  pose proof (adjust_caps (len l) nt nc nh (len_nonneg l) Hnt Hnc Hnh) as Hc.
  assert (Hsame : nt + nc + nh <= len l -> adjust (len l) (nt, nc, nh) = (nt, nc, nh)).
  { intros H. unfold adjust. destruct (Z.ltb_spec (len l) (nt + nc + nh)); [lia|reflexivity]. }
  destruct (adjust (len l) (nt, nc, nh)) as [[a b] c].
  destruct Hb as (Ha0 & Hb0 & Hsum & _). destruct Hc as (Ha & Hb & Hc).
  unfold slices. split.
  - pose proof (len_iloc_le l 0 a (Z.le_refl 0) Ha0).
    pose proof (len_iloc_le l a (a + b) Ha0 ltac:(lia)).
    pose proof (len_iloc_le l (a + b) (a + b + c) ltac:(lia) Hsum).
    repeat split; lia.
  - intros Hroom. rewrite <- Hl in Hroom. specialize (Hsame Hroom).
    inversion Hsame; subst a b c.
    rewrite !len_iloc_exact by lia. repeat split; lia.
Qed.

Lemma len_flat_map {A B} (f : A -> list B) (l : list A) :
  len (flat_map f l) = Zsum (map (fun x => len (f x)) l).
Proof.
  induction l as [|x l IH]; simpl; [reflexivity|]. now rewrite len_app, IH.
Qed.

Lemma Zsum_le {A} (f g : A -> Z) (l : list A) :
  (forall x, In x l -> f x <= g x) -> Zsum (map f l) <= Zsum (map g l).
Proof.
  induction l as [|x l IH]; simpl; intros H; [lia|].
  pose proof (H x (or_introl eq_refl)).
  assert (Zsum (map f l) <= Zsum (map g l)) by (apply IH; intros; apply H; now right).
  lia.
Qed.

Lemma Zsum_ext_in {A} (f g : A -> Z) (l : list A) :
  (forall x, In x l -> f x = g x) -> Zsum (map f l) = Zsum (map g l).
Proof. intros H. f_equal. now apply map_ext_in. Qed.

Lemma Zsum_plus_const {A} (f : A -> Z) (l : list A) :
  Zsum (map (fun x => f x + 1) l) = Zsum (map f l) + len l.
Proof.
  induction l as [|x l IH]; simpl; [reflexivity|].
  rewrite IH. unfold len. simpl List.length. lia.
Qed.

(** The size of each group against the desired counts added up over the
    segments. *)
Lemma group_sizes_vs_desired (df : DataFrame) (sizes : SampleSizes) (seed : Z) :
  valid_sizes sizes ->
  let '(t, c, h) := sample_groups rng_permutation df sizes seed in
  (len t <= desired_sum pick_test sizes df /\
   len c <= desired_sum pick_control sizes df /\
   len h <= desired_sum pick_holdout sizes df + n_segments df) /\
  ((forall s p, In (s, p) (segment_proportions df) ->
      total_needed (desired sizes p) <= count_segment s df) ->
   len t = desired_sum pick_test sizes df /\
   len c = desired_sum pick_control sizes df /\
   len h = desired_sum pick_holdout sizes df).
Proof.
  intros Hv. unfold sample_groups. rewrite sample_loop, !app_nil_l.
  rewrite !len_flat_map. unfold desired_sum, n_segments.
  assert (Hitem : forall it, In it (segment_proportions df) ->
            let '(t, c, h) := segment_slices rng_permutation df sizes seed it in
            let '(n_test, n_control, n_holdout) := desired sizes (snd it) in
            (len t <= n_test /\ len c <= n_control /\ len h <= n_holdout + 1) /\
            (n_test + n_control + n_holdout <= count_segment (fst it) df ->
             len t = n_test /\ len c = n_control /\ len h = n_holdout)).
  { intros [s p] Hit. apply segment_slices_sizes; [exact Hv|].
    exact (segment_proportions_nonneg s p df Hit). }
  split.
  - split; [|split].
    + apply Zsum_le. intros it Hit. specialize (Hitem it Hit).
      destruct (segment_slices _ _ _ _ it) as [[t c] h].
      unfold pick_test. destruct (desired sizes (snd it)) as [[nt nc] nh].
      destruct Hitem as [(H1 & H2 & H3) _]. exact H1.
    + apply Zsum_le. intros it Hit. specialize (Hitem it Hit).
      destruct (segment_slices _ _ _ _ it) as [[t c] h].
      unfold pick_control. destruct (desired sizes (snd it)) as [[nt nc] nh].
      destruct Hitem as [(H1 & H2 & H3) _]. exact H2.
    + rewrite <- Zsum_plus_const.
      apply Zsum_le. intros it Hit. specialize (Hitem it Hit).
      destruct (segment_slices _ _ _ _ it) as [[t c] h].
      unfold pick_holdout. destruct (desired sizes (snd it)) as [[nt nc] nh].
      destruct Hitem as [(H1 & H2 & H3) _]. exact H3.
  - intros Hroom. split; [|split]; apply Zsum_ext_in; intros [s p] Hit;
      specialize (Hitem (s, p) Hit); specialize (Hroom s p Hit);
      destruct (segment_slices _ _ _ _ (s, p)) as [[t c] h];
      unfold pick_test, pick_control, pick_holdout;
      cbn [fst snd] in *;
      destruct (desired sizes p) as [[nt nc] nh];
      destruct Hitem as [_ Hitem]; destruct (Hitem Hroom) as (H1 & H2 & H3);
      assumption.
Qed.

End GroupSizes.

(** X1.  A segment that has room for what is asked of it gives each group
    exactly its desired count. *)
Theorem roomy_segment_gets_desired_counts
    (rng_permutation : Z -> nat -> list nat) (df : DataFrame)
    (sizes : SampleSizes) (seed : Z) (S : string) (p : Q) :
  is_shuffle rng_permutation ->
  valid_sizes sizes ->
  In (S, p) (segment_proportions df) ->
  total_needed (desired sizes p) <= count_segment S df ->
  assigned rng_permutation df sizes seed S = desired sizes p.
Proof.
  intros Hrng Hv Hp Hroom.
  destruct (assigned_spec rng_permutation Hrng df sizes seed S) as [Hin _].
  rewrite (Hin p Hp).
  pose proof (segment_slices_sizes rng_permutation Hrng df sizes seed S p Hv
                (segment_proportions_nonneg S p df Hp)) as H.
  destruct (segment_slices _ _ _ _ (S, p)) as [[t c] h].
  destruct (desired sizes p) as [[nt nc] nh]. simpl in Hroom.
  destruct H as [_ H]. destruct (H Hroom) as (-> & -> & ->). reflexivity.
Qed.

Lemma roomy_segment_gets_desired_counts_witness :
  is_shuffle rotate_permutation /\ valid_sizes (mkSizes 3 2 1) /\
  In ("F1_R1"%string, 10 # 10) (segment_proportions (example_segment "F1_R1" 10)) /\
  total_needed (desired (mkSizes 3 2 1) (10 # 10))
    <= count_segment "F1_R1" (example_segment "F1_R1" 10) /\
  assigned rotate_permutation (example_segment "F1_R1" 10) (mkSizes 3 2 1) 42 "F1_R1"
  = desired (mkSizes 3 2 1) (10 # 10).
Proof.
  assert (Hv : valid_sizes (mkSizes 3 2 1)) by (unfold valid_sizes; simpl; lia).
  assert (Hin : In ("F1_R1"%string, 10 # 10)
                   (segment_proportions (example_segment "F1_R1" 10)))
    by (vm_compute; left; reflexivity).
  assert (Hroom : total_needed (desired (mkSizes 3 2 1) (10 # 10))
                  <= count_segment "F1_R1" (example_segment "F1_R1" 10))
    by (vm_compute; discriminate).
  split; [exact rotate_is_shuffle|]. split; [exact Hv|]. split; [exact Hin|].
  split; [exact Hroom|].
  exact (roomy_segment_gets_desired_counts rotate_permutation (example_segment "F1_R1" 10)
           (mkSizes 3 2 1) 42 "F1_R1" (10 # 10) rotate_is_shuffle Hv Hin Hroom).
Defined.

(** X2.  In every segment Test and Control get at most their desired
    counts; Holdout, which takes the remainder in shortfall, gets at most
    one row more than its desired count. *)
Theorem assigned_at_most_desired
    (rng_permutation : Z -> nat -> list nat) (df : DataFrame)
    (sizes : SampleSizes) (seed : Z) (S : string) (p : Q) :
  is_shuffle rng_permutation ->
  valid_sizes sizes ->
  In (S, p) (segment_proportions df) ->
  let '(a_test, a_control, a_holdout) := assigned rng_permutation df sizes seed S in
  let '(n_test, n_control, n_holdout) := desired sizes p in
  a_test <= n_test /\ a_control <= n_control /\ a_holdout <= n_holdout + 1.
Proof.
  intros Hrng Hv Hp.
  destruct (assigned_spec rng_permutation Hrng df sizes seed S) as [Hin _].
  rewrite (Hin p Hp).
  pose proof (segment_slices_sizes rng_permutation Hrng df sizes seed S p Hv
                (segment_proportions_nonneg S p df Hp)) as H.
  destruct (segment_slices _ _ _ _ (S, p)) as [[t c] h].
  destruct (desired sizes p) as [[nt nc] nh]. exact (proj1 H).
Qed.

Lemma assigned_at_most_desired_witness :
  is_shuffle rotate_permutation /\ valid_sizes (mkSizes 1 1 0) /\
  In ("F1_R1"%string, 1 # 1) (segment_proportions (example_segment "F1_R1" 1)) /\
  let '(a_test, a_control, a_holdout) :=
    assigned rotate_permutation (example_segment "F1_R1" 1) (mkSizes 1 1 0) 42 "F1_R1" in
  let '(n_test, n_control, n_holdout) := desired (mkSizes 1 1 0) (1 # 1) in
  a_test <= n_test /\ a_control <= n_control /\ a_holdout <= n_holdout + 1.
Proof.
  assert (Hv : valid_sizes (mkSizes 1 1 0)) by (unfold valid_sizes; simpl; lia).
  assert (Hin : In ("F1_R1"%string, 1 # 1)
                   (segment_proportions (example_segment "F1_R1" 1)))
    by (vm_compute; left; reflexivity).
  split; [exact rotate_is_shuffle|]. split; [exact Hv|]. split; [exact Hin|].
  exact (assigned_at_most_desired rotate_permutation (example_segment "F1_R1" 1)
           (mkSizes 1 1 0) 42 "F1_R1" (1 # 1) rotate_is_shuffle Hv Hin).
Defined.

(** The extra row is real: one customer, asked for 1 + 1 + 0, goes to
    Holdout, whose target is zero. *)
Example holdout_takes_the_only_row :
  desired (mkSizes 1 1 0) (1 # 1) = (1, 1, 0) /\
  assigned rotate_permutation (example_segment "F1_R1" 1) (mkSizes 1 1 0) 42 "F1_R1"
  = (0, 0, 1).
Proof. split; vm_compute; reflexivity. Qed.

Lemma desired_sum_unfold (sizes : SampleSizes) (df : DataFrame) :
  desired_sum pick_test sizes df
    = Zsum (map (fun it => py_round (inject_Z (Test sizes) * snd it)) (segment_proportions df)) /\
  desired_sum pick_control sizes df
    = Zsum (map (fun it => py_round (inject_Z (Control sizes) * snd it)) (segment_proportions df)) /\
  desired_sum pick_holdout sizes df
    = Zsum (map (fun it => py_round (inject_Z (Holdout sizes) * snd it)) (segment_proportions df)).
Proof. repeat split. Qed.

(** The desired counts of a group add up to within half the number of
    segments of its target (also for a table without segments). *)
Lemma desired_sum_near_target (sizes : SampleSizes) (df : DataFrame) :
  valid_sizes sizes ->
  2 * Z.abs (desired_sum pick_test sizes df - Test sizes) <= n_segments df + 2 * Test sizes /\
  2 * Z.abs (desired_sum pick_control sizes df - Control sizes)
    <= n_segments df + 2 * Control sizes /\
  2 * Z.abs (desired_sum pick_holdout sizes df - Holdout sizes)
    <= n_segments df + 2 * Holdout sizes /\
  (segment_proportions df <> [] ->
   2 * Z.abs (desired_sum pick_test sizes df - Test sizes) <= n_segments df /\
   2 * Z.abs (desired_sum pick_control sizes df - Control sizes) <= n_segments df /\
   2 * Z.abs (desired_sum pick_holdout sizes df - Holdout sizes) <= n_segments df).
Proof.
  intros (Ht & Hc & Hh).
  destruct (desired_sum_unfold sizes df) as (-> & -> & ->).
  destruct (segment_proportions df) as [|it items] eqn:E.
  - unfold n_segments. rewrite E. change (len (@nil (string * Q))) with 0.
    cbn [map Zsum fold_right]. repeat split; try lia.
    all: exfalso; match goal with Hx : [] <> [] |- _ => apply Hx; reflexivity end.
  - assert (Hne : segment_proportions df <> []) by (rewrite E; discriminate).
    rewrite <- E.
    pose proof (rounded_requests_sum (Test sizes) df Hne).
    pose proof (rounded_requests_sum (Control sizes) df Hne).
    pose proof (rounded_requests_sum (Holdout sizes) df Hne).
    repeat split; lia.
Qed.

(** X3.  No group outgrows its target by more than rounding allows: twice
    the size of Test (Control) is at most twice its target plus the
    number of segments; for Holdout, which takes the remainders, plus
    three times the number of segments. *)
Theorem group_sizes_bounded_by_targets
    (rng_permutation : Z -> nat -> list nat) (df : DataFrame)
    (sizes : SampleSizes) (seed : Z) :
  is_shuffle rng_permutation ->
  valid_sizes sizes ->
  let '(test_group, control_group, holdout_group) :=
    sample_groups rng_permutation df sizes seed in
  2 * len test_group <= 2 * Test sizes + n_segments df /\
  2 * len control_group <= 2 * Control sizes + n_segments df /\
  2 * len holdout_group <= 2 * Holdout sizes + 3 * n_segments df.
Proof.
  intros Hrng Hv.
  pose proof (group_sizes_vs_desired rng_permutation Hrng df sizes seed Hv) as H.
  destruct (sample_groups rng_permutation df sizes seed) as [[t c] h].
  destruct H as [(H1 & H2 & H3) _].
  assert (Hn : 0 <= n_segments df) by apply len_nonneg.
  destruct (segment_proportions df) as [|it items] eqn:E.
  - unfold desired_sum in *. unfold n_segments in *. rewrite E in *.
    change (len (@nil (string * Q))) with 0 in *. cbn [map Zsum fold_right] in *.
    destruct Hv as (? & ? & ?). lia.
  - assert (Hne : segment_proportions df <> []) by (rewrite E; discriminate).
    destruct (desired_sum_near_target sizes df Hv) as (_ & _ & _ & Hnear).
    destruct (Hnear Hne) as (N1 & N2 & N3). lia.
Qed.

Lemma group_sizes_bounded_by_targets_witness :
  is_shuffle rotate_permutation /\ valid_sizes (mkSizes 2 2 2) /\
  let '(test_group, control_group, holdout_group) :=
    sample_groups rotate_permutation
      (example_segment "F1_R1" 3 ++ example_segment "F2_R1" 4) (mkSizes 2 2 2) 42 in
  2 * len test_group
    <= 2 * Test (mkSizes 2 2 2)
       + n_segments (example_segment "F1_R1" 3 ++ example_segment "F2_R1" 4) /\
  2 * len control_group
    <= 2 * Control (mkSizes 2 2 2)
       + n_segments (example_segment "F1_R1" 3 ++ example_segment "F2_R1" 4) /\
  2 * len holdout_group
    <= 2 * Holdout (mkSizes 2 2 2)
       + 3 * n_segments (example_segment "F1_R1" 3 ++ example_segment "F2_R1" 4).
Proof.
  assert (Hv : valid_sizes (mkSizes 2 2 2)) by (unfold valid_sizes; simpl; lia).
  split; [exact rotate_is_shuffle|]. split; [exact Hv|].
  exact (group_sizes_bounded_by_targets rotate_permutation
           (example_segment "F1_R1" 3 ++ example_segment "F2_R1" 4) (mkSizes 2 2 2) 42
           rotate_is_shuffle Hv).
Defined.

(** X4.  When no segment is in shortfall, every group has exactly the
    size its desired counts add up to, which is within half the number
    of segments of its target. *)
Theorem group_sizes_without_shortfall
    (rng_permutation : Z -> nat -> list nat) (df : DataFrame)
    (sizes : SampleSizes) (seed : Z) :
  is_shuffle rng_permutation ->
  valid_sizes sizes ->
  segment_proportions df <> [] ->
  (forall s p, In (s, p) (segment_proportions df) ->
     total_needed (desired sizes p) <= count_segment s df) ->
  let '(test_group, control_group, holdout_group) :=
    sample_groups rng_permutation df sizes seed in
  (len test_group = desired_sum pick_test sizes df /\
   len control_group = desired_sum pick_control sizes df /\
   len holdout_group = desired_sum pick_holdout sizes df) /\
  2 * Z.abs (len test_group - Test sizes) <= n_segments df /\
  2 * Z.abs (len control_group - Control sizes) <= n_segments df /\
  2 * Z.abs (len holdout_group - Holdout sizes) <= n_segments df.
Proof.
  intros Hrng Hv Hne Hroom.
  pose proof (group_sizes_vs_desired rng_permutation Hrng df sizes seed Hv) as H.
  destruct (sample_groups rng_permutation df sizes seed) as [[t c] h].
  destruct H as [_ H]. destruct (H Hroom) as (E1 & E2 & E3).
  destruct (desired_sum_near_target sizes df Hv) as (_ & _ & _ & Hnear).
  destruct (Hnear Hne) as (N1 & N2 & N3).
  rewrite E1, E2, E3. repeat split; assumption.
Qed.

Lemma group_sizes_without_shortfall_witness :
  is_shuffle rotate_permutation /\ valid_sizes (mkSizes 2 2 2) /\
  segment_proportions (example_segment "F1_R1" 3 ++ example_segment "F2_R1" 4) <> [] /\
  (forall s p,
     In (s, p) (segment_proportions (example_segment "F1_R1" 3 ++ example_segment "F2_R1" 4)) ->
     total_needed (desired (mkSizes 2 2 2) p)
     <= count_segment s (example_segment "F1_R1" 3 ++ example_segment "F2_R1" 4)) /\
  let '(test_group, control_group, holdout_group) :=
    sample_groups rotate_permutation
      (example_segment "F1_R1" 3 ++ example_segment "F2_R1" 4) (mkSizes 2 2 2) 42 in
  (len test_group
     = desired_sum pick_test (mkSizes 2 2 2)
         (example_segment "F1_R1" 3 ++ example_segment "F2_R1" 4) /\
   len control_group
     = desired_sum pick_control (mkSizes 2 2 2)
         (example_segment "F1_R1" 3 ++ example_segment "F2_R1" 4) /\
   len holdout_group
     = desired_sum pick_holdout (mkSizes 2 2 2)
         (example_segment "F1_R1" 3 ++ example_segment "F2_R1" 4)) /\
  2 * Z.abs (len test_group - Test (mkSizes 2 2 2))
    <= n_segments (example_segment "F1_R1" 3 ++ example_segment "F2_R1" 4) /\
  2 * Z.abs (len control_group - Control (mkSizes 2 2 2))
    <= n_segments (example_segment "F1_R1" 3 ++ example_segment "F2_R1" 4) /\
  2 * Z.abs (len holdout_group - Holdout (mkSizes 2 2 2))
    <= n_segments (example_segment "F1_R1" 3 ++ example_segment "F2_R1" 4).
Proof.
  assert (Hv : valid_sizes (mkSizes 2 2 2)) by (unfold valid_sizes; simpl; lia).
  assert (Hne : segment_proportions
                  (example_segment "F1_R1" 3 ++ example_segment "F2_R1" 4) <> [])
    by (vm_compute; discriminate).
  assert (Hroom : forall s p,
            In (s, p) (segment_proportions
                         (example_segment "F1_R1" 3 ++ example_segment "F2_R1" 4)) ->
            total_needed (desired (mkSizes 2 2 2) p)
            <= count_segment s (example_segment "F1_R1" 3 ++ example_segment "F2_R1" 4)).
  { intros s p Hin. vm_compute in Hin.
    destruct Hin as [E|[E|[]]]; inversion E; subst; vm_compute; discriminate. }
  split; [exact rotate_is_shuffle|]. split; [exact Hv|]. split; [exact Hne|].
  split; [exact Hroom|].
  exact (group_sizes_without_shortfall rotate_permutation
           (example_segment "F1_R1" 3 ++ example_segment "F2_R1" 4) (mkSizes 2 2 2) 42
           rotate_is_shuffle Hv Hne Hroom).
Defined.

(* ================================================================= *)
(** ** More on the sampler: where its rows come from *)

Section Provenance.

Variable rng_permutation : Z -> nat -> list nat.

Lemma In_take {A} (l : list A) (positions : list nat) (x : A) :
  In x (take l positions) -> In x l.
Proof.
  unfold take. rewrite in_flat_map. intros [i [_ H]].
  destruct (nth_error l i) as [y|] eqn:E; [|contradiction].
  destruct H as [<-|[]]. eapply nth_error_In. exact E.
Qed.

(** Whatever the generator returns, a row cut from a segment is a row of
    the table that carries this segment. *)
Lemma segment_slices_rows (df : DataFrame) (sizes : SampleSizes) (seed : Z)
    (it : string * Q) (r : Row) :
  let '(t, c, h) := segment_slices rng_permutation df sizes seed it in
  In r t \/ In r c \/ In r h -> In r df /\ Segment r = Some (fst it).
Proof.
  destruct it as [s p]. unfold segment_slices, slices.
  destruct (adjust _ _) as [[a b] c]. simpl.
  intros H.
  assert (Hin : In r (shuffled_segment rng_permutation df seed s)).
  { destruct H as [H|[H|H]]; eapply In_iloc; exact H. }
  unfold shuffled_segment, sample_frac1 in Hin. apply In_take in Hin.
  apply filter_In in Hin. destruct Hin as [Hdf Hs]. split; [exact Hdf|].
  unfold cell_eqb in Hs. destruct (Segment r) as [u|]; [|discriminate].
  apply String.eqb_eq in Hs. now subst.
Qed.

Lemma sample_groups_rows (df : DataFrame) (sizes : SampleSizes) (seed : Z) (r : Row) :
  let '(t, c, h) := sample_groups rng_permutation df sizes seed in
  In r t \/ In r c \/ In r h -> In r df /\ Segment r <> None.
Proof.
  unfold sample_groups. rewrite sample_loop, !app_nil_l.
  rewrite !in_flat_map.
  intros [[it [_ H]]|[[it [_ H]]|[it [_ H]]]];
    pose proof (segment_slices_rows df sizes seed it r) as Hs;
    destruct (segment_slices _ _ _ _ it) as [[t c] h]; simpl in H;
    (destruct Hs as [Hdf Hseg]; [tauto|]); split; try exact Hdf; congruence.
Qed.

End Provenance.

(** X5.  Every row of a table [stratified_sample] returns is a row of
    the input that has a segment, with nothing changed but [Group], which
    is one of Test, Control and Holdout; rows without a segment are never
    sampled.  (About the calls that return: numpy refuses a seed outside
    [0, 2**32) and pandas a table without a [Segment] column.) *)
Theorem sampled_rows_come_from_the_table
    (rng_permutation : Z -> nat -> list nat) (df : loc)
    (sizes : option SampleSizes) (seed : Z) (w : World) (t : DataFrame) :
  nth_error (tables w) df = Some t ->
  forall out,
    fst (stratified_sample rng_permutation df sizes seed w) = inr out ->
    forall r', In r' out ->
      exists r g,
        In r t /\ Segment r <> None /\
        In g ["Test"; "Control"; "Holdout"]%string /\
        r' = set_Group (Some g) r.
Proof.
  intros Hlive out Hret. rewrite stratified_sample_result, Hlive in Hret.
  injection Hret as <-.
  set (s := match sizes with Some s => s | None => DEFAULT_SAMPLE_SIZES end).
  pose proof (sample_groups_rows rng_permutation t s seed) as Hrows.
  destruct (sample_groups rng_permutation t s seed) as [[tg cg] hg].
  unfold label_groups. intros r' Hr'.
  rewrite !in_app_iff, !in_map_iff in Hr'.
  destruct Hr' as [[r [<- Hr]]|[[r [<- Hr]]|[r [<- Hr]]]];
    destruct (Hrows r) as [Hin Hseg]; try tauto; exists r.
  - exists "Test"%string. simpl. tauto.
  - exists "Control"%string. simpl. tauto.
  - exists "Holdout"%string. simpl. tauto.
Qed.

Lemma sampled_rows_come_from_the_table_witness :
  nth_error (tables (world_of (example_segment "F1_R1" 3))) 0%nat
    = Some (example_segment "F1_R1" 3) /\
  fst (stratified_sample rotate_permutation 0%nat (Some (mkSizes 1 1 1)) 42
         (world_of (example_segment "F1_R1" 3)))
  = inr (label_groups (sample_groups rotate_permutation (example_segment "F1_R1" 3)
                                     (mkSizes 1 1 1) 42)) /\
  forall r',
    In r' (label_groups (sample_groups rotate_permutation (example_segment "F1_R1" 3)
                                       (mkSizes 1 1 1) 42)) ->
    exists r g,
      In r (example_segment "F1_R1" 3) /\ Segment r <> None /\
      In g ["Test"; "Control"; "Holdout"]%string /\
      r' = set_Group (Some g) r.
Proof.
  split; [reflexivity|]. split; [reflexivity|].
  exact (sampled_rows_come_from_the_table rotate_permutation 0%nat (Some (mkSizes 1 1 1)) 42
           (world_of (example_segment "F1_R1" 3)) (example_segment "F1_R1" 3) eq_refl
           _ eq_refl).
Defined.

Section Shares.

Lemma Qsum_map_ext {A} (f g : A -> Q) (l : list A) :
  (forall x, f x == g x)%Q -> (Qsum (map f l) == Qsum (map g l))%Q.
Proof.
  intros H. induction l as [|x l IH]; simpl; [reflexivity|]. now rewrite IH, H.
Qed.

Lemma Zsum_ge_member (l : list Z) (z : Z) :
  (forall y, In y l -> 0 <= y) -> In z l -> z <= Zsum l.
Proof.
  induction l as [|y l IH]; simpl; intros Hn Hin; [contradiction|].
  assert (0 <= y) by (apply Hn; now left).
  assert (0 <= Zsum l) by (apply Zsum_nonneg; intros; apply Hn; now right).
  destruct Hin as [->|Hin]; [lia|].
  assert (z <= Zsum l) by (apply IH; [intros; apply Hn; now right | exact Hin]). lia.
Qed.

End Shares.

(** X7.  The shares computed for the segments are positive, at most one,
    and add up to exactly one (for a table with at least one segment). *)
Theorem segment_shares_add_up_to_one (df : DataFrame) :
  segment_proportions df <> [] ->
  (forall s p, In (s, p) (segment_proportions df) -> (0 < p /\ p <= 1)%Q) /\
  (Qsum (map snd (segment_proportions df)) == 1)%Q.
Proof.
  intros Hne. split.
  - intros s p Hin.
    assert (Hpos : 0 < Zsum (map snd (value_counts (map Segment df)))).
    { apply value_counts_total_pos. intros E. apply Hne.
      unfold segment_proportions. now rewrite E. }
    assert (Hmem : count_segment s df <= Zsum (map snd (value_counts (map Segment df)))).
    { unfold segment_proportions in Hin. apply in_map_iff in Hin.
      destruct Hin as [[s' c] [E Hsc]]. simpl in E. inversion E; subst s'.
      pose proof Hsc as Hc. apply value_counts_In in Hc. destruct Hc as [_ Hc].
      rewrite count_of_segment in Hc. rewrite <- Hc.
      apply Zsum_ge_member.
      - intros y Hy. apply in_map_iff in Hy. destruct Hy as [[s2 c2] [<- H2]].
        apply value_counts_In in H2. destruct H2 as [_ ->]. apply len_nonneg.
      - apply in_map_iff. exists (s, c). auto. }
    apply segment_proportions_In in Hin. destruct Hin as [Hc ->].
    split.
    + apply Qlt_shift_div_l.
      * change 0%Q with (inject_Z 0). now rewrite <- Zlt_Qlt.
      * rewrite Qmult_0_l. change 0%Q with (inject_Z 0). now rewrite <- Zlt_Qlt.
    + apply Qle_shift_div_r.
      * change 0%Q with (inject_Z 0). now rewrite <- Zlt_Qlt.
      * rewrite Qmult_1_l. now rewrite <- Zle_Qle.
  - pose proof (exact_requests_sum 1 df Hne) as H.
    transitivity (Qsum (map (fun it => inject_Z 1 * snd it)%Q (segment_proportions df)));
      [|exact H].
    rewrite <- (map_map snd (fun p => inject_Z 1 * p)%Q).
    rewrite <- (map_id (map snd (segment_proportions df))) at 1.
    apply Qsum_map_ext. intros x. change (inject_Z 1) with 1%Q. ring.
Qed.

Lemma segment_shares_add_up_to_one_witness :
  segment_proportions (example_segment "F1_R1" 3 ++ example_segment "F2_R1" 4) <> [] /\
  (forall s p,
     In (s, p) (segment_proportions (example_segment "F1_R1" 3 ++ example_segment "F2_R1" 4)) ->
     (0 < p /\ p <= 1)%Q) /\
  (Qsum (map snd (segment_proportions
                    (example_segment "F1_R1" 3 ++ example_segment "F2_R1" 4))) == 1)%Q.
Proof.
  assert (Hne : segment_proportions
                  (example_segment "F1_R1" 3 ++ example_segment "F2_R1" 4) <> [])
    by (vm_compute; discriminate).
  split; [exact Hne|].
  exact (segment_shares_add_up_to_one _ Hne).
Defined.

(* ================================================================= *)
(** ** More on the segmenter *)

Section Kept.

Lemma last_as_nth {A} (l : list A) (d d' : A) :
  l <> [] -> nth (List.length l - 1) l d = last l d'.
Proof.
  induction l as [|x l IH]; intros Hne; [congruence|].
  destruct l as [|y l]; [reflexivity|].
  change (last (x :: y :: l) d') with (last (y :: l) d').
  rewrite <- IH by discriminate. simpl. now rewrite Nat.sub_0_r.
Qed.

(** A value within strictly increasing edges has a label, a value
    outside has none. *)
Lemma cut_cell_within (bins : list edge) (prefix : string) (v : option Z) :
  strictly_increasing bins = true ->
  match cut_cell bins (bucket_labels prefix bins) v with
  | Some _ => within bins v = true
  | None => within bins v = false
  end.
Proof.
  intros Hs. destruct v as [z|]; [|reflexivity].
  destruct (within bins (Some z)) eqn:W.
  - simpl in W. apply andb_true_iff in W. destruct W as [Hlo Hhi].
    assert (Hne : bins <> []).
    { intros ->. simpl in Hlo. discriminate. }
    unfold cut_cell, bucket_of.
    set (ids := searchsorted_right bins (metric z)).
    pose proof (searchsorted_le_length bins (metric z)) as Hle. fold ids in Hle.
    assert (H0 : ids <> 0%nat).
    { subst ids. destruct bins as [|e r]; [congruence|]. simpl in *. now rewrite Hlo. }
    assert (Hn : ids <> List.length bins).
    { intros E.
      assert (Hb : edge_leb (nth (List.length bins - 1) bins PosInf) (metric z) = true).
      { apply searchsorted_before. fold ids. destruct bins; [congruence|]. simpl in *. lia. }
      rewrite (last_as_nth bins PosInf NegInf Hne) in Hb.
      unfold edge_ltb in Hhi. rewrite Hb in Hhi. discriminate. }
    destruct (Nat.eqb_spec ids (List.length bins)); [contradiction|].
    destruct (Nat.eqb_spec ids 0); [contradiction|]. simpl.
    rewrite bucket_labels_nth by lia. reflexivity.
  - rewrite cut_cell_out_of_range; [reflexivity | exact Hs |].
    simpl in W. apply andb_false_iff in W. unfold out_of_range, edge_ltb in *.
    destruct W as [W|W].
    + left. now rewrite W.
    + right. now destruct (edge_leb (last bins NegInf) (metric z)).
Qed.

Lemma has_buckets_set_Segment (v : option string) (r : Row) :
  has_buckets (set_Segment v r) = has_buckets r.
Proof. reflexivity. Qed.

(** [segmented], row by row. *)
Lemma segmented_row_by_row (R F : list edge) (t : DataFrame) :
  segmented R F t
  = map (labelled R F) (filter (fun r => has_buckets (labelled R F r)) t).
Proof.
  unfold segmented. induction t as [|r t IH]; [reflexivity|].
  cbn [map filter].
  change (has_buckets (labelled R F r))
    with (has_buckets
            (set_Frequency_Bucket
               (cut_cell F (bucket_labels "F" F)
                  (Some (frequency
                           (set_Recency_Bucket
                              (cut_cell R (bucket_labels "R" R) (recency r)) r))))
               (set_Recency_Bucket (cut_cell R (bucket_labels "R" R) (recency r)) r))).
  destruct (has_buckets _); cbn [map]; rewrite IH; reflexivity.
Qed.

Lemma has_buckets_labelled (R F : list edge) (r : Row) :
  strictly_increasing R = true -> strictly_increasing F = true ->
  has_buckets (labelled R F r) = kept R F r.
Proof.
  intros HR HF.
  assert (E : has_buckets (labelled R F r)
              = match cut_cell R (bucket_labels "R" R) (recency r),
                      cut_cell F (bucket_labels "F" F) (Some (frequency r)) with
                | Some _, Some _ => true
                | _, _ => false
                end) by (destruct r; reflexivity).
  rewrite E. unfold kept.
  pose proof (cut_cell_within R "R" (recency r) HR) as H1.
  pose proof (cut_cell_within F "F" (Some (frequency r)) HF) as H2.
  destruct (cut_cell R _ _); rewrite H1; destruct (cut_cell F _ _); rewrite H2; reflexivity.
Qed.

Lemma labelled_idempotent (R F : list edge) (r : Row) :
  labelled R F (labelled R F r) = labelled R F r.
Proof. destruct r. reflexivity. Qed.

Lemma filter_map_all {A} (f : A -> A) (q : A -> bool) (l : list A) :
  (forall x, In x l -> q (f x) = true) -> filter q (map f l) = map f l.
Proof.
  intros H. apply filter_all. intros y Hy. apply in_map_iff in Hy.
  destruct Hy as [x [<- Hx]]. now apply H.
Qed.

Lemma segmented_idempotent (R F : list edge) (t : DataFrame) :
  segmented R F (segmented R F t) = segmented R F t.
Proof.
  rewrite (segmented_row_by_row R F (segmented R F t)).
  rewrite (segmented_row_by_row R F t).
  rewrite filter_map_all.
  - rewrite map_map. apply map_ext. intros r. apply labelled_idempotent.
  - intros r Hr. apply filter_In in Hr. rewrite labelled_idempotent. apply Hr.
Qed.

Lemma py_or_nonempty (bins : option (list edge)) (default : list edge) :
  default <> [] -> py_or bins default <> [].
Proof. destruct bins as [[|e r]|]; simpl; intros H; congruence. Qed.

End Kept.

Section Placement.

Lemma labelled_buckets (R F : list edge) (r : Row) :
  Recency_Bucket (labelled R F r) = cut_cell R (bucket_labels "R" R) (recency r) /\
  Frequency_Bucket (labelled R F r)
  = cut_cell F (bucket_labels "F" F) (Some (frequency r)) /\
  Segment (labelled R F r)
  = Some (String.append
            (cell_str (cut_cell F (bucket_labels "F" F) (Some (frequency r))))
            (String.append "_" (cell_str (cut_cell R (bucket_labels "R" R) (recency r))))) /\
  recency (labelled R F r) = recency r /\ frequency (labelled R F r) = frequency r.
Proof. destruct r. repeat split. Qed.

Lemma has_buckets_cut (R F : list edge) (r : Row) :
  has_buckets (labelled R F r)
  = match cut_cell R (bucket_labels "R" R) (recency r),
          cut_cell F (bucket_labels "F" F) (Some (frequency r)) with
    | Some _, Some _ => true
    | _, _ => false
    end.
Proof. destruct r. reflexivity. Qed.

(** A label [pd.cut] gives is the label of the bucket the value lies in. *)
Lemma cut_cell_some (bins : list edge) (prefix : string) (v : option Z) (x : string) :
  cut_cell bins (bucket_labels prefix bins) v = Some x ->
  exists u i, v = Some u /\ in_bucket bins u i /\ x = String.append prefix (str i).
Proof.
  unfold cut_cell. destruct v as [u|]; [|discriminate].
  destruct (bucket_of bins (Some u)) as [i|] eqn:E; [|discriminate].
  intros H. pose proof (bucket_of_in_bucket bins u i E) as Hb.
  exists u, i. split; [reflexivity|]. split; [exact Hb|].
  destruct Hb as [Hi _].
  rewrite bucket_labels_nth in H by lia. now inversion H.
Qed.

End Placement.

(** C3.  For strictly increasing edges: a value [v] gets the label of
    bucket [i] exactly when [edges[i-1] <= v < edges[i]]; it lies in at
    most one bucket; below the first edge or not below the last it gets
    no label.  And [bin_customers] places the customers by this rule: a
    customer whose recency lies in bucket [i] of the recency edges and
    whose frequency lies in bucket [j] of the frequency edges is in the
    segmented table, unchanged but for the labels [R<i>], [F<j>] and the
    segment [F<j>_R<i>]; every row of the segmented table is such a
    customer; no customer with an out-of-range recency or frequency is
    in it. *)
Theorem binning_rule
    (recency_bins frequency_bins : list edge) (df : loc) (w : World) (t : DataFrame) :
  strictly_increasing recency_bins = true -> recency_bins <> [] ->
  strictly_increasing frequency_bins = true -> frequency_bins <> [] ->
  nth_error (tables w) df = Some t ->
  (forall bins prefix v,
     strictly_increasing bins = true ->
     (forall i,
        cut_cell bins (bucket_labels prefix bins) (Some v) = Some (String.append prefix (str i))
        <-> in_bucket bins v i) /\
     (forall i j, in_bucket bins v i -> in_bucket bins v j -> i = j) /\
     (out_of_range bins v -> cut_cell bins (bucket_labels prefix bins) (Some v) = None)) /\
  exists t' w',
    bin_customers df (Some recency_bins) (Some frequency_bins) w = (inr (df, t'), w') /\
    nth_error (tables w') df = Some t' /\
    (forall r v i j,
       In r t -> recency r = Some v ->
       in_bucket recency_bins v i -> in_bucket frequency_bins (frequency r) j ->
       exists r',
         In r' t' /\ r' = labelled recency_bins frequency_bins r /\
         Recency_Bucket r' = Some (String.append "R" (str i)) /\
         Frequency_Bucket r' = Some (String.append "F" (str j)) /\
         Segment r' = Some (String.append (String.append "F" (str j))
                              (String.append "_" (String.append "R" (str i))))) /\
    (forall r',
       In r' t' ->
       exists r v i j,
         In r t /\ recency r = Some v /\
         in_bucket recency_bins v i /\ in_bucket frequency_bins (frequency r) j /\
         r' = labelled recency_bins frequency_bins r /\
         Recency_Bucket r' = Some (String.append "R" (str i)) /\
         Frequency_Bucket r' = Some (String.append "F" (str j))) /\
    (forall v r', out_of_range recency_bins v -> In r' t' -> recency r' <> Some v) /\
    (forall v r', out_of_range frequency_bins v -> In r' t' -> frequency r' <> v).
Proof.
  intros HR HRn HF HFn Hlive. split.
  { intros bins prefix v Hs. split; [|split].
    - intros i. now apply cut_cell_in_bucket.
    - intros i j. now apply in_bucket_unique.
    - intros Ho. now apply cut_cell_out_of_range. }
  pose proof (bin_customers_run df (Some recency_bins) (Some frequency_bins) w t Hlive) as Hrun.
  rewrite !py_or_given in Hrun by assumption.
  specialize (Hrun (strictly_increasing_accepted _ HR HRn)
                   (strictly_increasing_accepted _ HF HFn)).
  eexists. eexists. split; [exact Hrun|].
  split; [apply (written_table w df t _ Hlive)|].
  split; [|split; [|split]].
  - intros r v i j Hr Hv Hi Hj.
    pose proof (proj2 (cut_cell_in_bucket recency_bins "R" v i HR) Hi) as ER.
    pose proof (proj2 (cut_cell_in_bucket frequency_bins "F" (frequency r) j HF) Hj) as EF.
    rewrite <- Hv in ER.
    destruct (labelled_buckets recency_bins frequency_bins r) as (B1 & B2 & B3 & _).
    exists (labelled recency_bins frequency_bins r).
    split; [|split; [reflexivity|]].
    + rewrite segmented_row_by_row. apply in_map. apply filter_In. split; [exact Hr|].
      now rewrite has_buckets_cut, ER, EF.
    + rewrite B1, B2, B3, ER, EF. repeat split.
  - intros r' Hr'. rewrite segmented_row_by_row in Hr'. apply in_map_iff in Hr'.
    destruct Hr' as [r [<- Hr]]. apply filter_In in Hr. destruct Hr as [Hr Hb].
    rewrite has_buckets_cut in Hb.
    destruct (cut_cell recency_bins _ (recency r)) as [a|] eqn:ER; [|discriminate].
    destruct (cut_cell frequency_bins _ (Some (frequency r))) as [b|] eqn:EF; [|discriminate].
    destruct (cut_cell_some _ _ _ _ ER) as (v & i & Hv & Hi & ->).
    destruct (cut_cell_some _ _ _ _ EF) as (f & j & Hf & Hj & ->).
    inversion Hf; subst f.
    destruct (labelled_buckets recency_bins frequency_bins r) as (B1 & B2 & _).
    exists r, v, i, j. rewrite B1, B2, ER, EF.
    split; [exact Hr|]. split; [exact Hv|]. split; [exact Hi|]. split; [exact Hj|].
    split; [reflexivity|]. split; reflexivity.
  - intros v r' Ho Hr' E. apply segmented_In in Hr'.
    destruct Hr' as (r & _ & Hrec & _ & _ & HRb & _ & HRn' & _).
    rewrite Hrec in E. rewrite E in HRb.
    rewrite (cut_cell_out_of_range recency_bins _ v HR Ho) in HRb. contradiction.
  - intros v r' Ho Hr' E. apply segmented_In in Hr'.
    destruct Hr' as (r & _ & _ & Hfreq & _ & _ & HFb & _ & HFn').
    rewrite Hfreq in E. rewrite E in HFb.
    rewrite (cut_cell_out_of_range frequency_bins _ v HF Ho) in HFb. contradiction.
Qed.

Lemma binning_rule_witness :
  strictly_increasing DEFAULT_RECENCY_BINS = true /\ DEFAULT_RECENCY_BINS <> [] /\
  strictly_increasing DEFAULT_FREQUENCY_BINS = true /\ DEFAULT_FREQUENCY_BINS <> [] /\
  nth_error (tables (world_of three_customers)) 0%nat = Some three_customers /\
  (forall bins prefix v,
     strictly_increasing bins = true ->
     (forall i,
        cut_cell bins (bucket_labels prefix bins) (Some v) = Some (String.append prefix (str i))
        <-> in_bucket bins v i) /\
     (forall i j, in_bucket bins v i -> in_bucket bins v j -> i = j) /\
     (out_of_range bins v -> cut_cell bins (bucket_labels prefix bins) (Some v) = None)) /\
  exists t' w',
    bin_customers 0%nat (Some DEFAULT_RECENCY_BINS) (Some DEFAULT_FREQUENCY_BINS)
                  (world_of three_customers) = (inr (0%nat, t'), w') /\
    nth_error (tables w') 0%nat = Some t' /\
    (forall r v i j,
       In r three_customers -> recency r = Some v ->
       in_bucket DEFAULT_RECENCY_BINS v i -> in_bucket DEFAULT_FREQUENCY_BINS (frequency r) j ->
       exists r',
         In r' t' /\ r' = labelled DEFAULT_RECENCY_BINS DEFAULT_FREQUENCY_BINS r /\
         Recency_Bucket r' = Some (String.append "R" (str i)) /\
         Frequency_Bucket r' = Some (String.append "F" (str j)) /\
         Segment r' = Some (String.append (String.append "F" (str j))
                              (String.append "_" (String.append "R" (str i))))) /\
    (forall r',
       In r' t' ->
       exists r v i j,
         In r three_customers /\ recency r = Some v /\
         in_bucket DEFAULT_RECENCY_BINS v i /\
         in_bucket DEFAULT_FREQUENCY_BINS (frequency r) j /\
         r' = labelled DEFAULT_RECENCY_BINS DEFAULT_FREQUENCY_BINS r /\
         Recency_Bucket r' = Some (String.append "R" (str i)) /\
         Frequency_Bucket r' = Some (String.append "F" (str j))) /\
    (forall v r', out_of_range DEFAULT_RECENCY_BINS v -> In r' t' -> recency r' <> Some v) /\
    (forall v r', out_of_range DEFAULT_FREQUENCY_BINS v -> In r' t' -> frequency r' <> v).
Proof.
  assert (H1 : DEFAULT_RECENCY_BINS <> []) by discriminate.
  assert (H2 : DEFAULT_FREQUENCY_BINS <> []) by discriminate.
  split; [reflexivity|]. split; [exact H1|]. split; [reflexivity|]. split; [exact H2|].
  split; [reflexivity|].
  exact (binning_rule DEFAULT_RECENCY_BINS DEFAULT_FREQUENCY_BINS 0%nat
           (world_of three_customers) three_customers eq_refl H1 eq_refl H2 eq_refl).
Defined.

(** The rule at work on three customers with the default edges: [a]
    (recency 0, frequency 1) lies in the first bucket of both dimensions
    and is kept as [F1_R1]; [b] (recency 40) and [c] (recency -1) are
    out of range and are not in the segmented table. *)
Example three_customers_binned :
  in_bucket DEFAULT_RECENCY_BINS 0 1 /\ in_bucket DEFAULT_FREQUENCY_BINS 1 1 /\
  out_of_range DEFAULT_RECENCY_BINS 40 /\ out_of_range DEFAULT_RECENCY_BINS (-1) /\
  fst (bin_customers 0%nat (Some DEFAULT_RECENCY_BINS) (Some DEFAULT_FREQUENCY_BINS)
                     (world_of three_customers))
  = inr (0%nat,
         [mkRow "a" (Some "x@example.org"%string) 1 None 0 0 0 (Some 0)
                (Some "R1"%string) (Some "F1"%string) (Some "F1_R1"%string) None]).
Proof.
  split; [|split; [|split; [|split]]].
  - unfold in_bucket. simpl. repeat split; try lia; reflexivity.
  - unfold in_bucket. simpl. repeat split; try lia; reflexivity.
  - right. reflexivity.
  - left. reflexivity.
  - vm_compute. reflexivity.
Qed.

(** X8.  With strictly increasing edges the segmented table is the input
    table, in the same order, without the customers whose recency or
    frequency is not within its edges ([first <= v < last]); the kept
    rows have their three segmentation columns filled in and nothing else
    changed. *)
Theorem kept_exactly_when_within
    (recency_bins frequency_bins : list edge) (df : loc) (w : World) (t : DataFrame) :
  strictly_increasing recency_bins = true -> recency_bins <> [] ->
  strictly_increasing frequency_bins = true -> frequency_bins <> [] ->
  nth_error (tables w) df = Some t ->
  exists w',
    bin_customers df (Some recency_bins) (Some frequency_bins) w
    = (inr (df, map (labelled recency_bins frequency_bins)
                    (filter (kept recency_bins frequency_bins) t)), w') /\
    nth_error (tables w') df
    = Some (map (labelled recency_bins frequency_bins)
                (filter (kept recency_bins frequency_bins) t)).
Proof.
  intros HR HRn HF HFn Hlive.
  pose proof (bin_customers_run df (Some recency_bins) (Some frequency_bins) w t Hlive) as Hrun.
  rewrite !py_or_given in Hrun by assumption.
  specialize (Hrun (strictly_increasing_accepted _ HR HRn)
                   (strictly_increasing_accepted _ HF HFn)).
  rewrite segmented_row_by_row in Hrun.
  rewrite (filter_ext _ (kept recency_bins frequency_bins)) in Hrun
    by (intros r; now apply has_buckets_labelled).
  eexists. split; [exact Hrun|].
  apply (written_table w df t _ Hlive).
Qed.

Lemma kept_exactly_when_within_witness :
  strictly_increasing DEFAULT_RECENCY_BINS = true /\ DEFAULT_RECENCY_BINS <> [] /\
  strictly_increasing DEFAULT_FREQUENCY_BINS = true /\ DEFAULT_FREQUENCY_BINS <> [] /\
  nth_error (tables (world_of three_customers)) 0%nat = Some three_customers /\
  exists w',
    bin_customers 0%nat (Some DEFAULT_RECENCY_BINS) (Some DEFAULT_FREQUENCY_BINS)
                  (world_of three_customers)
    = (inr (0%nat, map (labelled DEFAULT_RECENCY_BINS DEFAULT_FREQUENCY_BINS)
                       (filter (kept DEFAULT_RECENCY_BINS DEFAULT_FREQUENCY_BINS)
                               three_customers)), w') /\
    nth_error (tables w') 0%nat
    = Some (map (labelled DEFAULT_RECENCY_BINS DEFAULT_FREQUENCY_BINS)
                (filter (kept DEFAULT_RECENCY_BINS DEFAULT_FREQUENCY_BINS) three_customers)).
Proof.
  assert (H1 : DEFAULT_RECENCY_BINS <> []) by discriminate.
  assert (H2 : DEFAULT_FREQUENCY_BINS <> []) by discriminate.
  split; [reflexivity|]. split; [exact H1|]. split; [reflexivity|]. split; [exact H2|].
  split; [reflexivity|].
  exact (kept_exactly_when_within DEFAULT_RECENCY_BINS DEFAULT_FREQUENCY_BINS 0%nat
           (world_of three_customers) three_customers eq_refl H1 eq_refl H2 eq_refl).
Defined.

(** X9.  Segmenting an already segmented table again, with the same
    edges, changes nothing: the second call returns what the first
    returned and leaves the state as the first left it. *)
Theorem bin_customers_twice
    (df : loc) (rb fb : option (list edge)) (w : World) (t : DataFrame) :
  nth_error (tables w) df = Some t ->
  cut_accepts (py_or rb DEFAULT_RECENCY_BINS) = true ->
  cut_accepts (py_or fb DEFAULT_FREQUENCY_BINS) = true ->
  bin_customers df rb fb (snd (bin_customers df rb fb w)) = bin_customers df rb fb w.
Proof.
  intros Hlive HR HF.
  rewrite (bin_customers_run df rb fb w t Hlive HR HF). cbn [snd].
  rewrite (bin_customers_run df rb fb _ _ (written_table w df t _ Hlive) HR HF).
  rewrite segmented_idempotent, with_tables_twice. reflexivity.
Qed.

Lemma bin_customers_twice_witness :
  nth_error (tables (world_of three_customers)) 0%nat = Some three_customers /\
  cut_accepts (py_or None DEFAULT_RECENCY_BINS) = true /\
  cut_accepts (py_or None DEFAULT_FREQUENCY_BINS) = true /\
  bin_customers 0%nat None None
    (snd (bin_customers 0%nat None None (world_of three_customers)))
  = bin_customers 0%nat None None (world_of three_customers).
Proof.
  split; [reflexivity|]. split; [reflexivity|]. split; [reflexivity|].
  exact (bin_customers_twice 0%nat None None (world_of three_customers) three_customers
           eq_refl eq_refl eq_refl).
Defined.

Section SegmentKeys.

Lemma digits_have_no_underscore (d : Decimal.uint) :
  has_char "_" (NilEmpty.string_of_uint d) = false.
Proof. induction d; simpl; auto. Qed.

Lemma str_has_no_underscore (i : nat) : has_char "_" (str i) = false.
Proof. apply digits_have_no_underscore. Qed.

(** A string is cut in only one way at the first occurrence of a
    character. *)
Lemma append_split_unique (c : ascii) (s1 s2 x1 x2 : string) :
  has_char c s1 = false -> has_char c s2 = false ->
  String.append s1 (String c x1) = String.append s2 (String c x2) ->
  s1 = s2 /\ x1 = x2.
Proof.
  revert s2. induction s1 as [|a s1 IH]; intros [|b s2] H1 H2 E; simpl in *.
  - inversion E. auto.
  - inversion E; subst. rewrite Ascii.eqb_refl in H2. discriminate.
  - inversion E; subst. rewrite Ascii.eqb_refl in H1. discriminate.
  - inversion E; subst.
    apply orb_false_iff in H1. apply orb_false_iff in H2.
    destruct (IH s2) as [-> ->]; tauto.
Qed.

(** Every label [pd.cut] hands out is the prefix followed by a bucket
    number. *)
Lemma cut_cell_label (bins : list edge) (prefix : string) (v : option Z) (x : string) :
  cut_cell bins (bucket_labels prefix bins) v = Some x ->
  exists i, x = String.append prefix (str i).
Proof.
  unfold cut_cell. destruct v as [z|]; [|discriminate].
  destruct (bucket_of bins (Some z)) as [i|] eqn:E; [|discriminate].
  apply bucket_of_in_bucket in E. rewrite (bucket_labels_nth prefix bins i (proj1 E)).
  intros H. inversion H. eauto.
Qed.

End SegmentKeys.

(** X10.  The segment key keeps the two buckets apart: two customers of
    the segmented table with the same [Segment] have the same recency
    bucket and the same frequency bucket. *)
Theorem same_segment_same_buckets
    (recency_bins frequency_bins : list edge) (t : DataFrame) (r1 r2 : Row) :
  In r1 (segmented recency_bins frequency_bins t) ->
  In r2 (segmented recency_bins frequency_bins t) ->
  Segment r1 = Segment r2 ->
  Recency_Bucket r1 = Recency_Bucket r2 /\ Frequency_Bucket r1 = Frequency_Bucket r2.
Proof.
  assert (Hshape : forall r, In r (segmented recency_bins frequency_bins t) ->
            exists i j,
              Recency_Bucket r = Some (String.append "R" (str i)) /\
              Frequency_Bucket r = Some (String.append "F" (str j)) /\
              Segment r = Some (String.append (String.append "F" (str j))
                                  (String.append "_" (String.append "R" (str i))))).
  { intros r Hr. rewrite segmented_row_by_row in Hr. apply in_map_iff in Hr.
    destruct Hr as [r0 [<- Hr0]]. apply filter_In in Hr0. destruct Hr0 as [_ Hb].
    assert (E : exists a b,
               cut_cell recency_bins (bucket_labels "R" recency_bins) (recency r0) = Some a /\
               cut_cell frequency_bins (bucket_labels "F" frequency_bins)
                        (Some (frequency r0)) = Some b /\
               Recency_Bucket (labelled recency_bins frequency_bins r0) = Some a /\
               Frequency_Bucket (labelled recency_bins frequency_bins r0) = Some b /\
               Segment (labelled recency_bins frequency_bins r0)
               = Some (String.append b (String.append "_" a))).
    { destruct r0. unfold labelled, has_buckets in *. cbn in Hb |- *.
      destruct (cut_cell recency_bins _ _) as [a|]; [|discriminate].
      destruct (cut_cell frequency_bins _ _) as [b|]; [|discriminate].
      exists a, b. auto. }
    destruct E as (a & b & Ea & Eb & -> & -> & ->).
    apply cut_cell_label in Ea. apply cut_cell_label in Eb.
    destruct Ea as [i ->]. destruct Eb as [j ->]. exists i, j. auto. }
  intros H1 H2 E.
  destruct (Hshape r1 H1) as (i1 & j1 & R1 & F1 & S1).
  destruct (Hshape r2 H2) as (i2 & j2 & R2 & F2 & S2).
  rewrite S1, S2 in E. inversion E as [E'].
  apply append_split_unique in E'; try apply str_has_no_underscore.
  destruct E' as [Ej Ei]. rewrite R1, R2, F1, F2. simpl. rewrite Ej.
  simpl in Ei. now rewrite Ei.
Qed.

Lemma same_segment_same_buckets_witness :
  In (labelled DEFAULT_RECENCY_BINS DEFAULT_FREQUENCY_BINS (summary_row "a" 0 1))
     (segmented DEFAULT_RECENCY_BINS DEFAULT_FREQUENCY_BINS two_alike) /\
  In (labelled DEFAULT_RECENCY_BINS DEFAULT_FREQUENCY_BINS (summary_row "d" 0 1))
     (segmented DEFAULT_RECENCY_BINS DEFAULT_FREQUENCY_BINS two_alike) /\
  Segment (labelled DEFAULT_RECENCY_BINS DEFAULT_FREQUENCY_BINS (summary_row "a" 0 1))
  = Segment (labelled DEFAULT_RECENCY_BINS DEFAULT_FREQUENCY_BINS (summary_row "d" 0 1)) /\
  Recency_Bucket (labelled DEFAULT_RECENCY_BINS DEFAULT_FREQUENCY_BINS (summary_row "a" 0 1))
  = Recency_Bucket (labelled DEFAULT_RECENCY_BINS DEFAULT_FREQUENCY_BINS (summary_row "d" 0 1)) /\
  Frequency_Bucket (labelled DEFAULT_RECENCY_BINS DEFAULT_FREQUENCY_BINS (summary_row "a" 0 1))
  = Frequency_Bucket (labelled DEFAULT_RECENCY_BINS DEFAULT_FREQUENCY_BINS (summary_row "d" 0 1)).
Proof.
  assert (H1 : In (labelled DEFAULT_RECENCY_BINS DEFAULT_FREQUENCY_BINS (summary_row "a" 0 1))
                  (segmented DEFAULT_RECENCY_BINS DEFAULT_FREQUENCY_BINS two_alike))
    by (vm_compute; left; reflexivity).
  assert (H2 : In (labelled DEFAULT_RECENCY_BINS DEFAULT_FREQUENCY_BINS (summary_row "d" 0 1))
                  (segmented DEFAULT_RECENCY_BINS DEFAULT_FREQUENCY_BINS two_alike))
    by (vm_compute; right; left; reflexivity).
  split; [exact H1|]. split; [exact H2|]. split; [reflexivity|].
  exact (same_segment_same_buckets DEFAULT_RECENCY_BINS DEFAULT_FREQUENCY_BINS
           two_alike _ _ H1 H2 eq_refl).
Defined.

(** X11.  When [pd.cut] refuses the frequency edges but not the recency
    edges, [bin_customers] raises after it has already written the
    [Recency_Bucket] column: the caller's table is left with that column
    filled in and no row dropped.  When the recency edges are refused,
    the table is left untouched. *)
Theorem refused_edges_and_the_table
    (df : loc) (rb fb : option (list edge)) (w : World) (t : DataFrame) :
  nth_error (tables w) df = Some t ->
  (cut_accepts (py_or rb DEFAULT_RECENCY_BINS) = false ->
   exists msg, bin_customers df rb fb w = (inl (ValueError msg), w)) /\
  (cut_accepts (py_or rb DEFAULT_RECENCY_BINS) = true ->
   cut_accepts (py_or fb DEFAULT_FREQUENCY_BINS) = false ->
   exists msg,
     bin_customers df rb fb w
     = (inl (ValueError msg),
        with_tables w
          (store_set (tables w) df
             (map (fun r =>
                     set_Recency_Bucket
                       (cut_cell (py_or rb DEFAULT_RECENCY_BINS)
                                 (bucket_labels "R" (py_or rb DEFAULT_RECENCY_BINS))
                                 (recency r)) r) t)))).
Proof.
  intros Hlive.
  assert (Hfail : forall bins default x labels,
            default <> [] -> cut_accepts (py_or bins default) = false ->
            exists msg, pd_cut x (py_or bins default) labels = inl (ValueError msg)).
  { intros bins default x labels Hd Ha. apply pd_cut_rejected.
    unfold cut_accepts in Ha.
    pose proof (py_or_nonempty bins default Hd) as Hne.
    destruct (py_or bins default) as [|e r]; [congruence|].
    simpl (1 <=? _)%nat in Ha. now rewrite andb_true_r in Ha. }
  split.
  - intros HR. unfold bin_customers. cbv zeta.
    rewrite (bind_read df _ w t Hlive).
    destruct (Hfail rb DEFAULT_RECENCY_BINS (map recency t)
                (bucket_labels "R" (py_or rb DEFAULT_RECENCY_BINS))
                ltac:(discriminate) HR) as [msg E].
    rewrite E, bind_lift_inl. eauto.
  - intros HR HF. unfold bin_customers. cbv zeta.
    rewrite (bind_read df _ w t Hlive).
    rewrite (pd_cut_accepted _ _ "R" HR), bind_lift_inr, bind_write.
    rewrite (bind_read df _ _ _ (written_table w df t _ Hlive)).
    match goal with |- context [pd_cut ?x (py_or fb DEFAULT_FREQUENCY_BINS) ?l] =>
      destruct (Hfail fb DEFAULT_FREQUENCY_BINS x l ltac:(discriminate) HF) as [msg E]
    end.
    rewrite E, bind_lift_inl. exists msg. f_equal. f_equal. f_equal.
    rewrite map_map. apply assign_column_map.
Qed.

Lemma refused_edges_and_the_table_witness :
  nth_error (tables (world_of three_customers)) 0%nat = Some three_customers /\
  (cut_accepts (py_or None DEFAULT_RECENCY_BINS) = true ->
   cut_accepts (py_or (Some [metric 2; metric 1]) DEFAULT_FREQUENCY_BINS) = false ->
   exists msg,
     bin_customers 0%nat None (Some [metric 2; metric 1]) (world_of three_customers)
     = (inl (ValueError msg),
        with_tables (world_of three_customers)
          (store_set (tables (world_of three_customers)) 0%nat
             (map (fun r =>
                     set_Recency_Bucket
                       (cut_cell (py_or None DEFAULT_RECENCY_BINS)
                                 (bucket_labels "R" (py_or None DEFAULT_RECENCY_BINS))
                                 (recency r)) r) three_customers)))).
Proof.
  split; [reflexivity|].
  exact (proj2 (refused_edges_and_the_table 0%nat None (Some [metric 2; metric 1])
                  (world_of three_customers) three_customers eq_refl)).
Defined.

(* ================================================================= *)
(** ** More on the cleaning step *)

Section Cleaning.

Lemma bind_read_orders {B} (df : loc) (k : Orders.table -> M B) (w : World)
    (t : Orders.table) :
  nth_error (order_tables w) df = Some t -> bind (read_orders df) k w = k t w.
Proof. intros H. unfold bind, read_orders. now rewrite H. Qed.

Lemma bind_write_orders {B} (df : loc) (t : Orders.table) (k : unit -> M B) (w : World) :
  bind (write_orders df t) k w
  = k tt (with_order_tables w (store_set (order_tables w) df t)).
Proof. reflexivity. Qed.

Lemma written_orders (w : World) (df : loc) (t0 t : Orders.table) :
  nth_error (order_tables w) df = Some t0 ->
  nth_error (order_tables (with_order_tables w (store_set (order_tables w) df t))) df
  = Some t.
Proof.
  intros H. simpl. apply nth_error_store_set_same. apply nth_error_Some. congruence.
Qed.

Lemma with_order_tables_twice (w : World) (df : loc) (a b : Orders.table) :
  with_order_tables (with_order_tables w (store_set (order_tables w) df a))
    (store_set (order_tables (with_order_tables w (store_set (order_tables w) df a))) df b)
  = with_order_tables w (store_set (order_tables w) df b).
Proof. unfold with_order_tables. simpl. now rewrite store_set_twice. Qed.

Lemma cleaned_row_essentials (r : Orders.row) : has_essentials (cleaned_row r) = true.
Proof. reflexivity. Qed.

Lemma cleaned_row_idempotent (r : Orders.row) : cleaned_row (cleaned_row r) = cleaned_row r.
Proof.
  destruct r as [i e o d g ds n]. unfold cleaned_row, astype_str. simpl.
  destruct i, e, o; reflexivity.
Qed.

(** What the cleaning step does to a live table. *)
Lemma clean_run (df : loc) (w : World) (t : Orders.table) :
  nth_error (order_tables w) df = Some t ->
  clean_and_convert_data df w
  = (inr df, with_order_tables w (store_set (order_tables w) df (map cleaned_row t))).
Proof.
  intros Hlive. unfold clean_and_convert_data.
  rewrite (bind_read_orders df _ w t Hlive), bind_write_orders.
  rewrite (bind_read_orders df _ _ _ (written_orders w df t _ Hlive)).
  rewrite bind_write_orders, with_order_tables_twice.
  rewrite (bind_read_orders df _ _ _ (written_orders w df t _ Hlive)).
  rewrite bind_write_orders, with_order_tables_twice.
  rewrite (bind_read_orders df _ _ _ (written_orders w df t _ Hlive)).
  rewrite bind_write_orders, with_order_tables_twice.
  unfold ret. rewrite !map_map.
  rewrite filter_all.
  - reflexivity.
  - intros r Hr. apply in_map_iff in Hr. destruct Hr as [r0 [<- _]]. reflexivity.
Qed.

End Cleaning.

(** X12.  Cleaning returns the table object it was given and loses no
    complete row: every row whose customer id, email and order id are
    all present is in the cleaned table as it was.  Every row of the
    cleaned table has the three as strings and stems from a row of the
    input, whose present keys, date and amounts it carries unchanged; no
    row is added.  (What becomes of a row with a missing key -- kept with
    the string ["nan"] in its place, or dropped at line 63 -- depends on
    what [astype(str)] makes of a missing value; the statement holds
    either way.) *)
Theorem cleaning_keeps_complete_rows (df : loc) (w : World) (t : Orders.table) :
  nth_error (order_tables w) df = Some t ->
  exists t' w',
    clean_and_convert_data df w = (inr df, w') /\
    nth_error (order_tables w') df = Some t' /\
    (forall r, In r t -> has_essentials r = true -> In r t') /\
    (forall r', In r' t' ->
       has_essentials r' = true /\
       exists r, In r t /\
         (forall s, Orders.customer_id r = Some s -> Orders.customer_id r' = Some s) /\
         (forall s, Orders.customer_email r = Some s -> Orders.customer_email r' = Some s) /\
         (forall s, Orders.order_id r = Some s -> Orders.order_id r' = Some s) /\
         Orders.day r' = Orders.day r /\
         Orders.gross_sales r' = Orders.gross_sales r /\
         Orders.discounts r' = Orders.discounts r /\
         Orders.net_sales r' = Orders.net_sales r) /\
    (List.length t' <= List.length t)%nat.
Proof.
  intros Hlive. exists (map cleaned_row t). eexists.
  split; [apply (clean_run df w t Hlive)|].
  split; [apply (written_orders w df t _ Hlive)|].
  split; [|split].
  - intros r Hr He. apply in_map_iff. exists r. split; [|exact Hr].
    destruct r as [i e o d g ds n]. unfold has_essentials in He. simpl in He.
    destruct i, e, o; try discriminate. reflexivity.
  - intros r' Hr'. apply in_map_iff in Hr'. destruct Hr' as [r [<- Hr]].
    split; [apply cleaned_row_essentials|].
    exists r. split; [exact Hr|].
    destruct r as [i e o d g ds n]. unfold cleaned_row, astype_str. simpl.
    repeat split; intros s E; rewrite E; reflexivity.
  - rewrite length_map. apply Nat.le_refl.
Qed.

Lemma cleaning_keeps_complete_rows_witness :
  nth_error (order_tables (orders_world example_orders)) 0%nat = Some example_orders /\
  exists t' w',
    clean_and_convert_data 0%nat (orders_world example_orders) = (inr 0%nat, w') /\
    nth_error (order_tables w') 0%nat = Some t' /\
    (forall r, In r example_orders -> has_essentials r = true -> In r t') /\
    (forall r', In r' t' ->
       has_essentials r' = true /\
       exists r, In r example_orders /\
         (forall s, Orders.customer_id r = Some s -> Orders.customer_id r' = Some s) /\
         (forall s, Orders.customer_email r = Some s -> Orders.customer_email r' = Some s) /\
         (forall s, Orders.order_id r = Some s -> Orders.order_id r' = Some s) /\
         Orders.day r' = Orders.day r /\
         Orders.gross_sales r' = Orders.gross_sales r /\
         Orders.discounts r' = Orders.discounts r /\
         Orders.net_sales r' = Orders.net_sales r) /\
    (List.length t' <= List.length example_orders)%nat.
Proof.
  split; [reflexivity|].
  exact (cleaning_keeps_complete_rows 0%nat (orders_world example_orders) example_orders
           eq_refl).
Defined.

(** X13.  Cleaning a cleaned table again changes nothing. *)
Theorem cleaning_twice (df : loc) (w : World) (t : Orders.table) :
  nth_error (order_tables w) df = Some t ->
  clean_and_convert_data df (snd (clean_and_convert_data df w))
  = clean_and_convert_data df w.
Proof.
  intros Hlive. rewrite (clean_run df w t Hlive). cbn [snd].
  rewrite (clean_run df _ _ (written_orders w df t _ Hlive)).
  rewrite with_order_tables_twice, map_map.
  rewrite (map_ext _ cleaned_row) by apply cleaned_row_idempotent. reflexivity.
Qed.

Lemma cleaning_twice_witness :
  nth_error (order_tables (orders_world example_orders)) 0%nat = Some example_orders /\
  clean_and_convert_data 0%nat
    (snd (clean_and_convert_data 0%nat (orders_world example_orders)))
  = clean_and_convert_data 0%nat (orders_world example_orders).
Proof.
  split; [reflexivity|].
  exact (cleaning_twice 0%nat (orders_world example_orders) example_orders eq_refl).
Defined.

(* ================================================================= *)
(** ** More on the aggregator *)

Section GroupKeys.

Lemma key_eqb_eq (a b : string * string) : key_eqb a b = true <-> a = b.
Proof.
  destruct a as [a1 a2], b as [b1 b2]. unfold key_eqb. simpl.
  rewrite andb_true_iff, !String.eqb_eq. split; [intros [-> ->]; reflexivity|].
  intros E. inversion E. auto.
Qed.

Lemma key_eqb_refl (a : string * string) : key_eqb a a = true.
Proof. now apply key_eqb_eq. Qed.

Lemma dedup_keys_In (k : string * string) (l : list (string * string)) :
  In k (dedup_keys l) <-> In k l.
Proof.
  induction l as [|x l IH]; simpl; [tauto|].
  rewrite filter_In, IH. split.
  - intros [->|[H _]]; auto.
  - intros [->|H]; [now left|].
    destruct (key_eqb x k) eqn:E.
    + apply key_eqb_eq in E. now left.
    + right. split; [exact H | reflexivity].
Qed.

Lemma dedup_keys_NoDup (l : list (string * string)) : NoDup (dedup_keys l).
Proof.
  induction l as [|x l IH]; simpl; constructor.
  - rewrite filter_In. intros [_ H]. now rewrite key_eqb_refl in H.
  - now apply NoDup_filter.
Qed.

Lemma insert_key_perm (k : string * string) (l : list (string * string)) :
  Permutation (insert_key k l) (k :: l).
Proof.
  induction l as [|q l IH]; simpl; [reflexivity|].
  destruct (key_leb k q); [reflexivity|]. rewrite IH. apply perm_swap.
Qed.

Lemma group_keys_perm (t : Orders.table) :
  Permutation (group_keys t) (dedup_keys (present_keys t)).
Proof.
  unfold group_keys. induction (dedup_keys (present_keys t)) as [|k l IH]; simpl;
    [reflexivity|].
  rewrite insert_key_perm. now constructor.
Qed.

Lemma group_keys_NoDup (t : Orders.table) : NoDup (group_keys t).
Proof.
  eapply Permutation_NoDup; [symmetry; apply group_keys_perm | apply dedup_keys_NoDup].
Qed.

Lemma present_keys_In (k : string * string) (t : Orders.table) :
  In k (present_keys t) <-> exists o, In o t /\ group_key o = Some k.
Proof.
  induction t as [|o t IH]; simpl.
  - split; [tauto | intros [? [[] _]]].
  - destruct (group_key o) as [k'|] eqn:E; simpl; rewrite IH; split.
    + intros [->|[o' [H1 H2]]]; [exists o; auto | exists o'; auto].
    + intros [o' [[->|H1] H2]]; [left; congruence | right; eauto].
    + intros [o' [H1 H2]]; eauto.
    + intros [o' [[->|H1] H2]]; [congruence | eauto].
Qed.

Lemma group_keys_In (k : string * string) (t : Orders.table) :
  In k (group_keys t) <-> exists o, In o t /\ group_key o = Some k.
Proof.
  rewrite (Permutation_in' (eq_refl k) (group_keys_perm t)).
  now rewrite dedup_keys_In, present_keys_In.
Qed.

Lemma key_leb_total (a b : string * string) : key_leb a b = false -> key_leb b a = true.
Proof.
  unfold key_leb, String.leb.
  rewrite (String.compare_antisym (fst a) (fst b)).
  rewrite (String.compare_antisym (snd a) (snd b)).
  destruct (String.compare (fst b) (fst a)); simpl;
    destruct (String.compare (snd b) (snd a)); simpl; congruence.
Qed.

Lemma insert_key_sorted (k : string * string) (l : list (string * string)) :
  Sorted (fun a b => key_leb a b = true) l ->
  Sorted (fun a b => key_leb a b = true) (insert_key k l).
Proof.
  induction l as [|q l IH]; intros Hs; simpl.
  - repeat constructor.
  - destruct (key_leb k q) eqn:E.
    + constructor; [exact Hs | constructor; exact E].
    + inversion Hs as [|? ? Hs' Hhd]; subst.
      constructor; [now apply IH|].
      destruct l as [|q' l]; simpl.
      * constructor. now apply key_leb_total.
      * destruct (key_leb k q'); constructor.
        -- now apply key_leb_total.
        -- now inversion Hhd.
Qed.

Lemma group_keys_sorted (t : Orders.table) :
  Sorted (fun a b => key_leb a b = true) (group_keys t).
Proof.
  unfold group_keys. induction (dedup_keys (present_keys t)) as [|k l IH]; simpl.
  - constructor.
  - now apply insert_key_sorted.
Qed.

Lemma Sorted_map {A B} (R : B -> B -> Prop) (f : A -> B) (l : list A) :
  Sorted (fun x y => R (f x) (f y)) l -> Sorted R (map f l).
Proof.
  induction 1 as [|x l Hs IH Hhd]; simpl; constructor; [exact IH|].
  destruct Hhd; simpl; constructor. assumption.
Qed.

(** The summary rows, one per group key. *)
Lemma summary_rows (t : Orders.table) (d : Date) :
  map customer_key (summary_before_dropna t d) = group_keys t.
Proof.
  unfold summary_before_dropna, groupby_agg. rewrite !map_map.
  rewrite <- (map_id (group_keys t)) at 2. apply map_ext. intros [i e]. reflexivity.
Qed.

End GroupKeys.

(** X14.  A summary the aggregator returns has exactly one row for every
    pair (customer_id, customer_email) that occurs, with both cells
    present, in the order table; the rows come in ascending order of that
    pair.  (The aggregator returns when its write at line 104 succeeds.) *)
Theorem one_summary_row_per_customer
    (df : loc) (d : Date) (w : World) (t : Orders.table) :
  nth_error (order_tables w) df = Some t ->
  forall summary,
    fst (aggregate_customer_data df (Some d) w) = inr summary ->
    NoDup (map customer_key summary) /\
    (forall i e,
       In (i, e) (map customer_key summary) <->
       exists o, In o t /\ Orders.customer_id o = Some i /\ Orders.customer_email o = Some e) /\
    (forall r, In r summary -> customer_email r <> None) /\
    Sorted (fun a b => key_leb a b = true) (map customer_key summary).
Proof.
  intros Hlive summary Hret.
  rewrite (aggregate_result df d w t Hlive) in Hret. injection Hret as <-.
  assert (E : map customer_key (summary_before_dropna (filter has_key t) d) = group_keys t).
  { unfold summary_before_dropna. rewrite rows_without_key_not_aggregated.
    apply (summary_rows t d). }
  rewrite E. split; [apply group_keys_NoDup|]. split; [|split].
  - intros i e. rewrite group_keys_In. split.
    + intros [o [Ho Hk]]. exists o. split; [exact Ho|]. unfold group_key in Hk.
      destruct (Orders.customer_id o), (Orders.customer_email o); inversion Hk; auto.
    + intros [o [Ho [Hi He]]]. exists o. split; [exact Ho|]. unfold group_key.
      now rewrite Hi, He.
  - intros r Hr. apply summary_rows_have_email in Hr. unfold has_email in Hr.
    destruct (customer_email r); [discriminate | discriminate].
  - apply group_keys_sorted.
Qed.

Lemma one_summary_row_per_customer_witness :
  nth_error (order_tables (orders_world example_orders)) 0%nat = Some example_orders /\
  fst (aggregate_customer_data 0%nat (Some (mkDate 2025 1 15))
         (orders_world example_orders))
  = inr (summary_before_dropna example_orders (mkDate 2025 1 15)) /\
  NoDup (map customer_key (summary_before_dropna example_orders (mkDate 2025 1 15))) /\
  (forall i e,
     In (i, e) (map customer_key (summary_before_dropna example_orders (mkDate 2025 1 15))) <->
     exists o, In o example_orders /\
               Orders.customer_id o = Some i /\ Orders.customer_email o = Some e) /\
  (forall r, In r (summary_before_dropna example_orders (mkDate 2025 1 15)) ->
             customer_email r <> None) /\
  Sorted (fun a b => key_leb a b = true)
         (map customer_key (summary_before_dropna example_orders (mkDate 2025 1 15))).
Proof.
  split; [reflexivity|]. split; [reflexivity|].
  exact (one_summary_row_per_customer 0%nat (mkDate 2025 1 15)
           (orders_world example_orders) example_orders eq_refl _ eq_refl).
Defined.

Section Conservation.

Lemma Qsum_app (l1 l2 : list Q) : (Qsum (l1 ++ l2) == Qsum l1 + Qsum l2)%Q.
Proof.
  induction l1 as [|x l1 IH]; simpl; [ring|]. rewrite IH. ring.
Qed.

Lemma Qsum_perm (l l' : list Q) : Permutation l l' -> (Qsum l == Qsum l')%Q.
Proof.
  induction 1; simpl.
  - reflexivity.
  - now rewrite IHPermutation.
  - ring.
  - now rewrite IHPermutation1.
Qed.

Lemma Qsum_flat_map {A B} (f : B -> Q) (g : A -> list B) (l : list A) :
  (Qsum (map f (flat_map g l)) == Qsum (map (fun x => Qsum (map f (g x))) l))%Q.
Proof.
  induction l as [|x l IH]; simpl; [reflexivity|].
  now rewrite map_app, Qsum_app, IH.
Qed.

Lemma groups_cover (ks : list (string * string)) (t : Orders.table) :
  NoDup ks ->
  Permutation (flat_map (fun k => group_rows k t) ks)
              (filter (fun o => existsb (fun k => in_group k o) ks) t).
Proof.
  induction ks as [|k ks IH]; intros Hnd; simpl.
  - induction t as [|o t IHt]; simpl; [reflexivity | exact IHt].
  - inversion Hnd as [|? ? Hnotin Hnd']; subst.
    rewrite (IH Hnd'). apply (filter_disjoint_union (in_group k)).
    intros o Ho. destruct (existsb (fun k0 => in_group k0 o) ks) eqn:E; [|reflexivity].
    apply existsb_exists in E. destruct E as [k' [Hk' E]].
    unfold in_group in Ho, E. destruct (group_key o) as [ko|]; [|discriminate].
    apply key_eqb_eq in Ho, E. subst. contradiction.
Qed.

(** The groups, one after the other, are the rows that have both keys. *)
Lemma groups_partition (t : Orders.table) :
  Permutation (flat_map (fun k => group_rows k t) (group_keys t)) (filter has_key t).
Proof.
  rewrite (groups_cover _ t (group_keys_NoDup t)).
  rewrite (filter_ext_in _ has_key); [reflexivity|].
  intros o Ho. unfold has_key.
  destruct (group_key o) as [k|] eqn:E.
  - apply existsb_exists. exists k. split.
    + apply group_keys_In. eauto.
    + unfold in_group. rewrite E. apply key_eqb_refl.
  - destruct (existsb _ _) eqn:X; [|reflexivity].
    apply existsb_exists in X. destruct X as [k [_ X]].
    unfold in_group in X. rewrite E in X. discriminate.
Qed.

Lemma summary_totals (f : Orders.row -> Q) (g : Row -> Q) (t : Orders.table) (d : Date) :
  (forall k, g (set_recency (months_since d (last_order_date (aggregate_group t k)))
                  (aggregate_group t k))
             = Qsum (map f (group_rows k t))) ->
  (Qsum (map g (summary_before_dropna t d)) == Qsum (map f (filter has_key t)))%Q.
Proof.
  intros Hg. unfold summary_before_dropna, groupby_agg. rewrite !map_map.
  rewrite (map_ext _ (fun k => Qsum (map f (group_rows k t)))) by exact Hg.
  rewrite <- Qsum_flat_map. apply Qsum_perm. apply Permutation_map. apply groups_partition.
Qed.

End Conservation.

(** X15.  Aggregation keeps the money: the gross sales, discounts and net
    sales of the rows of a summary the aggregator returns add up to those
    of the order rows that have both a customer id and an email.  (The
    aggregator returns when its write at line 104 succeeds.) *)
Theorem summary_conserves_totals
    (df : loc) (d : Date) (w : World) (t : Orders.table) :
  nth_error (order_tables w) df = Some t ->
  forall summary,
    fst (aggregate_customer_data df (Some d) w) = inr summary ->
    (Qsum (map gross_sales summary)
     == Qsum (map Orders.gross_sales (filter has_key t)))%Q /\
    (Qsum (map discounts summary)
     == Qsum (map Orders.discounts (filter has_key t)))%Q /\
    (Qsum (map net_sales summary)
     == Qsum (map Orders.net_sales (filter has_key t)))%Q.
Proof.
  intros Hlive summary Hret.
  rewrite (aggregate_result df d w t Hlive) in Hret. injection Hret as <-.
  unfold summary_before_dropna at 1 2 3. rewrite rows_without_key_not_aggregated.
  fold (summary_before_dropna t d).
  repeat split; apply summary_totals; intros k; reflexivity.
Qed.

Lemma summary_conserves_totals_witness :
  nth_error (order_tables (orders_world example_orders)) 0%nat = Some example_orders /\
  fst (aggregate_customer_data 0%nat (Some (mkDate 2025 1 15))
         (orders_world example_orders))
  = inr (summary_before_dropna example_orders (mkDate 2025 1 15)) /\
  (Qsum (map gross_sales (summary_before_dropna example_orders (mkDate 2025 1 15)))
   == Qsum (map Orders.gross_sales (filter has_key example_orders)))%Q /\
  (Qsum (map discounts (summary_before_dropna example_orders (mkDate 2025 1 15)))
   == Qsum (map Orders.discounts (filter has_key example_orders)))%Q /\
  (Qsum (map net_sales (summary_before_dropna example_orders (mkDate 2025 1 15)))
   == Qsum (map Orders.net_sales (filter has_key example_orders)))%Q.
Proof.
  split; [reflexivity|]. split; [reflexivity|].
  exact (summary_conserves_totals 0%nat (mkDate 2025 1 15)
           (orders_world example_orders) example_orders eq_refl _ eq_refl).
Defined.

Section Frequency.

Lemma len_uniques_le (l : list string) : len (uniques l) <= len l.
Proof.
  unfold len. induction l as [|x l IH]; simpl; [lia|].
  pose proof (filter_length_le (fun y => negb (String.eqb x y)) (uniques l)). lia.
Qed.

Lemma len_dropna_cells_le (col : list (option string)) : len (dropna_cells col) <= len col.
Proof.
  unfold len. induction col as [|[s|] col IH]; simpl; lia.
Qed.

Lemma nunique_bounds (col : list (option string)) :
  0 <= nunique col /\ nunique col <= len col /\
  ((exists s, In (Some s) col) -> 1 <= nunique col).
Proof.
  unfold nunique. split; [apply len_nonneg|]. split.
  - pose proof (len_uniques_le (dropna_cells col)).
    pose proof (len_dropna_cells_le col). lia.
  - intros [s Hs].
    assert (Hin : In s (uniques (dropna_cells col))).
    { apply uniques_In. induction col as [|[u|] col IH]; simpl in *.
      - contradiction.
      - destruct Hs as [E|Hs]; [left; congruence | right; auto].
      - destruct Hs as [E|Hs]; [discriminate | auto]. }
    unfold len. destruct (uniques (dropna_cells col)); [contradiction | simpl; lia].
Qed.

Lemma group_rows_In (k : string * string) (t : Orders.table) (o : Orders.row) :
  In o (group_rows k t) <-> In o t /\ group_key o = Some k.
Proof.
  unfold group_rows. rewrite filter_In. split; intros [Ho H]; split; try exact Ho.
  - destruct (group_key o) as [k'|]; [|discriminate]. apply key_eqb_eq in H. now subst.
  - rewrite H. apply key_eqb_refl.
Qed.

End Frequency.

(** X16.  Every customer of a summary the pipeline (clean, then
    aggregate) returns has a frequency of at least 1 and at most the
    number of order rows; so with the default frequency edges
    [1, 2, 3, 4, 5, inf] no customer of the pipeline is left out of the
    segmentation for its frequency.  (The pipeline returns when the
    aggregator's write at line 104 succeeds.) *)
Theorem pipeline_frequency_at_least_one
    (df : loc) (d : Date) (w : World) (t : Orders.table) :
  nth_error (order_tables w) df = Some t ->
  forall summary,
    fst (process_order_history df (Some d) w) = inr summary ->
    forall r, In r summary ->
      1 <= frequency r <= len t /\
      within DEFAULT_FREQUENCY_BINS (Some (frequency r)) = true.
Proof.
  intros Hlive summary Hret. unfold process_order_history, bind in Hret.
  rewrite (clean_run df w t Hlive) in Hret.
  rewrite (aggregate_result df d _ (map cleaned_row t)
             (written_orders w df t _ Hlive)) in Hret.
  injection Hret as <-.
  intros r Hr. unfold summary_before_dropna in Hr.
  rewrite rows_without_key_not_aggregated in Hr.
  unfold groupby_agg in Hr. rewrite map_map in Hr. apply in_map_iff in Hr.
  destruct Hr as [k [<- Hk]].
  change (frequency (set_recency _ (aggregate_group (map cleaned_row t) k)))
    with (nunique (map Orders.order_id (group_rows k (map cleaned_row t)))).
  pose proof (nunique_bounds (map Orders.order_id (group_rows k (map cleaned_row t))))
    as (_ & Hle & Hge).
  assert (H1 : 1 <= nunique (map Orders.order_id (group_rows k (map cleaned_row t)))).
  { apply Hge. apply group_keys_In in Hk. destruct Hk as [o [Ho Hko]].
    assert (Hg : In o (group_rows k (map cleaned_row t))) by (apply group_rows_In; auto).
    apply in_map_iff in Ho. destruct Ho as [o0 [<- _]].
    exists (cell_str (Orders.order_id o0)). apply in_map_iff.
    exists (cleaned_row o0). split; [reflexivity | exact Hg]. }
  assert (H2 : nunique (map Orders.order_id (group_rows k (map cleaned_row t))) <= len t).
  { eapply Z.le_trans; [exact Hle|]. unfold len. rewrite length_map.
    unfold group_rows.
    pose proof (filter_length_le
                  (fun r => match group_key r with
                            | Some k' => key_eqb k k'
                            | None => false
                            end) (map cleaned_row t)) as Hf.
    rewrite length_map in Hf. lia. }
  split; [lia|].
  set (f := nunique _) in *. unfold within, DEFAULT_FREQUENCY_BINS. simpl hd. simpl last.
  apply andb_true_iff. split; [|reflexivity].
  unfold metric, edge_leb. apply Qle_bool_iff. rewrite <- Zle_Qle. exact H1.
Qed.

Lemma pipeline_frequency_at_least_one_witness :
  nth_error (order_tables (orders_world example_orders)) 0%nat = Some example_orders /\
  fst (process_order_history 0%nat (Some (mkDate 2025 1 15))
         (orders_world example_orders))
  = inr (summary_before_dropna (map cleaned_row example_orders) (mkDate 2025 1 15)) /\
  forall r,
    In r (summary_before_dropna (map cleaned_row example_orders) (mkDate 2025 1 15)) ->
    1 <= frequency r <= len example_orders /\
    within DEFAULT_FREQUENCY_BINS (Some (frequency r)) = true.
Proof.
  split; [reflexivity|]. split; [reflexivity|].
  exact (pipeline_frequency_at_least_one 0%nat (mkDate 2025 1 15)
           (orders_world example_orders) example_orders eq_refl _ eq_refl).
Defined.

(* ================================================================= *)
(** ** Saving the groups *)

Section Saving.






End Saving.


(* ================================================================= *)
(** ** The handler of "Apply Binning" *)

Section Handler.

Lemma nth_error_snoc_old {A} (l : list A) (x : A) (i : nat) :
  (i < List.length l)%nat -> nth_error (l ++ [x]) i = nth_error l i.
Proof. intros H. now apply nth_error_app1. Qed.

Lemma nth_error_snoc_new {A} (l : list A) (x : A) :
  nth_error (l ++ [x]) (List.length l) = Some x.
Proof. rewrite nth_error_app2 by lia. now rewrite Nat.sub_diag. Qed.

(** The handler, step by step. *)
Lemma apply_binning_run (df : loc) (R F : list edge) (thr : Z) (w : World) (t : DataFrame) :
  nth_error (tables w) df = Some t ->
  let f := filter (recency_at_most thr) t in
  let w1 := with_tables w (tables w ++ [f]) in
  let w2 := with_tables w1 (tables w1 ++ [f]) in
  apply_binning df R F thr w =
  if is_empty f then
    (inr (Shown "No customers have a recency value below the selected maximum threshold."),
     w1)
  else
    match bin_customers (List.length (tables w1)) (Some R) (Some F) w2 with
    | (inl e, w3) =>
        (inr (Shown (String.append "Error processing binning: " (exn_str e))), w3)
    | (inr (l, csv), w3) =>
        match nth_error (tables w3) l with
        | Some seg =>
            (inr (if is_empty seg then
                    Shown "Segmentation resulted in an empty DataFrame. Please check your bin ranges."
                  else Segmented l csv), w3)
        | None =>
            (inr (Shown (String.append "Error processing binning: "
                                       (exn_str DanglingReference))), w3)
        end
    end.
Proof.
  intros Hlive f w1 w2. subst w2 w1.
  unfold apply_binning. rewrite (bind_read df _ w t Hlive).
  unfold try_except, bind at 1, alloc at 1. fold f.
  unfold bind at 1, read at 1.
  match goal with
  | |- context [nth_error ?l (List.length (tables w))] =>
      replace (nth_error l (List.length (tables w))) with (Some f)
        by (symmetry; apply nth_error_snoc_new)
  end.
  destruct (is_empty f); [reflexivity|].
  unfold bind at 1, alloc at 1.
  unfold bind at 1.
  destruct (bin_customers _ (Some R) (Some F) _) as [[e|[l csv]] w3]; [reflexivity|].
  unfold bind, read, ret.
  destruct (nth_error (tables w3) l) as [seg|]; [|reflexivity].
  now destruct (is_empty seg).
Qed.

Lemma recency_labelled (R F : list edge) (r : Row) :
  recency (labelled R F r) = recency r.
Proof. destruct r. reflexivity. Qed.

(** The threshold filter and the segmentation can be swapped. *)
Lemma segmented_filter_recency (R F : list edge) (thr : Z) (t : DataFrame) :
  segmented R F (filter (recency_at_most thr) t)
  = filter (recency_at_most thr) (segmented R F t).
Proof.
  rewrite !segmented_row_by_row.
  induction t as [|r t IH]; [reflexivity|].
  cbn [filter].
  destruct (recency_at_most thr r) eqn:E1;
    destruct (has_buckets (labelled R F r)) eqn:E2; cbn [filter map];
    rewrite ?E2; cbn [filter map]; unfold recency_at_most at 2;
    rewrite ?recency_labelled; fold (recency_at_most thr r); rewrite ?E1, IH; reflexivity.
Qed.

(** A recency within edges whose last is at most [thr + 1] is at most
    [thr]. *)
Lemma within_below_threshold (R : list edge) (thr : Z) (v : option Z) :
  edge_leb (last R NegInf) (metric (thr + 1)) = true ->
  within R v = true ->
  match v with Some z => z <=? thr | None => false end = true.
Proof.
  intros Hlast W. destruct v as [z|]; [|discriminate].
  simpl in W. apply andb_true_iff in W. destruct W as [_ Hhi].
  pose proof (edge_ltb_leb_trans _ _ _ Hhi Hlast) as Hlt.
  unfold edge_ltb, metric, edge_leb in Hlt.
  apply Z.leb_le.
  destruct (Qle_bool (inject_Z (thr + 1)) (inject_Z z)) eqn:E; [discriminate|].
  destruct (Z_le_gt_dec (thr + 1) z) as [Hle|Hgt]; [|lia].
  exfalso. rewrite Zle_Qle in Hle. apply Qle_bool_iff in Hle. congruence.
Qed.

Lemma filter_recency_redundant (R F : list edge) (thr : Z) (t : DataFrame) :
  strictly_increasing R = true -> strictly_increasing F = true ->
  edge_leb (last R NegInf) (metric (thr + 1)) = true ->
  filter (recency_at_most thr) (segmented R F t) = segmented R F t.
Proof.
  intros HR HF Hlast. rewrite segmented_row_by_row.
  apply filter_map_all. intros r Hr. apply filter_In in Hr. destruct Hr as [_ Hb].
  rewrite (has_buckets_labelled R F r HR HF) in Hb.
  unfold kept in Hb. apply andb_true_iff in Hb. destruct Hb as [Hw _].
  unfold recency_at_most. rewrite recency_labelled.
  exact (within_below_threshold R thr (recency r) Hlast Hw).
Qed.

End Handler.

(** X18.  The handler never fails and never changes the customer summary
    it reads: whatever the edges and the threshold, it ends with a stored
    table or a shown error, and every table object that existed before is
    as it was, as are the order tables, the seed and the files.  (It
    works on a copy, which [bin_customers] then updates in place.) *)
Theorem apply_binning_spares_the_summary
    (df : loc) (recency_bins frequency_bins : list edge) (max_recency_threshold : Z)
    (w : World) (t : DataFrame) :
  nth_error (tables w) df = Some t ->
  exists outcome w',
    apply_binning df recency_bins frequency_bins max_recency_threshold w
    = (inr outcome, w') /\
    (forall l, (l < List.length (tables w))%nat ->
               nth_error (tables w') l = nth_error (tables w) l) /\
    order_tables w' = order_tables w /\ np_random_seed w' = np_random_seed w /\
    today w' = today w /\ files w' = files w.
Proof.
  intros Hlive.
  rewrite (apply_binning_run df recency_bins frequency_bins max_recency_threshold w t Hlive).
  cbv zeta.
  set (f := filter (recency_at_most max_recency_threshold) t).
  set (w1 := with_tables w (tables w ++ [f])).
  set (w2 := with_tables w1 (tables w1 ++ [f])).
  destruct (is_empty f).
  { eexists _, _. split; [reflexivity|]. repeat split.
    intros l Hl. subst w1. simpl. now apply nth_error_snoc_old. }
  pose proof (bin_customers_frame (List.length (tables w1)) (Some recency_bins)
                (Some frequency_bins) w2) as Hframe.
  assert (Hold : forall w3, same_but_table (List.length (tables w1)) w2 w3 ->
            (forall l, (l < List.length (tables w))%nat ->
                       nth_error (tables w3) l = nth_error (tables w) l) /\
            order_tables w3 = order_tables w /\ np_random_seed w3 = np_random_seed w /\
            today w3 = today w /\ files w3 = files w).
  { intros w3 (Ho & Hs & Ht & Hf & Htab).
    split; [|now rewrite Ho, Hs, Ht, Hf].
    intros l Hl.
    assert (Hlen : List.length (tables w1) = S (List.length (tables w))).
    { subst w1. simpl. rewrite length_app. simpl. lia. }
    rewrite Htab by lia.
    subst w2 w1. simpl. rewrite nth_error_snoc_old.
    - now apply nth_error_snoc_old.
    - rewrite length_app. simpl. lia. }
  destruct (bin_customers (List.length (tables w1)) (Some recency_bins)
              (Some frequency_bins) w2) as [[e|[l csv]] w3].
  - eexists _, _. split; [reflexivity|]. apply Hold, Hframe.
  - destruct (nth_error (tables w3) l) as [seg|];
      (eexists _, _; split; [reflexivity|]; apply Hold, Hframe).
Qed.

Lemma apply_binning_spares_the_summary_witness :
  nth_error (tables (world_of three_customers)) 0%nat = Some three_customers /\
  exists outcome w',
    apply_binning 0%nat [metric 3; metric 1] DEFAULT_FREQUENCY_BINS 36
                  (world_of three_customers)
    = (inr outcome, w') /\
    (forall l, (l < List.length (tables (world_of three_customers)))%nat ->
               nth_error (tables w') l = nth_error (tables (world_of three_customers)) l) /\
    order_tables w' = order_tables (world_of three_customers) /\
    np_random_seed w' = np_random_seed (world_of three_customers) /\
    today w' = today (world_of three_customers) /\
    files w' = files (world_of three_customers).
Proof.
  split; [reflexivity|].
  exact (apply_binning_spares_the_summary 0%nat [metric 3; metric 1]
           DEFAULT_FREQUENCY_BINS 36 (world_of three_customers) three_customers eq_refl).
Defined.

(** X19.  With strictly increasing edges the handler stores the
    segmentation of the whole summary without the customers above the
    threshold, as a new table object; it shows an error instead when no
    customer is at or below the threshold or none of those is within the
    edges. *)
Theorem apply_binning_outcome
    (df : loc) (recency_bins frequency_bins : list edge) (max_recency_threshold : Z)
    (w : World) (t : DataFrame) :
  strictly_increasing recency_bins = true -> recency_bins <> [] ->
  strictly_increasing frequency_bins = true -> frequency_bins <> [] ->
  nth_error (tables w) df = Some t ->
  fst (apply_binning df recency_bins frequency_bins max_recency_threshold w) =
  inr (if is_empty (filter (recency_at_most max_recency_threshold) t) then
         Shown "No customers have a recency value below the selected maximum threshold."
       else if is_empty (filter (recency_at_most max_recency_threshold)
                                (segmented recency_bins frequency_bins t)) then
         Shown "Segmentation resulted in an empty DataFrame. Please check your bin ranges."
       else
         Segmented (S (List.length (tables w)))
                   (filter (recency_at_most max_recency_threshold)
                           (segmented recency_bins frequency_bins t))).
Proof.
  intros HR HRn HF HFn Hlive.
  rewrite (apply_binning_run df recency_bins frequency_bins max_recency_threshold w t Hlive).
  cbv zeta.
  set (f := filter (recency_at_most max_recency_threshold) t).
  set (w1 := with_tables w (tables w ++ [f])).
  set (w2 := with_tables w1 (tables w1 ++ [f])).
  destruct (is_empty f); [reflexivity|].
  assert (Hcopy : nth_error (tables w2) (List.length (tables w1)) = Some f).
  { subst w2. simpl. apply nth_error_snoc_new. }
  pose proof (bin_customers_run (List.length (tables w1)) (Some recency_bins)
                (Some frequency_bins) w2 f Hcopy) as Hrun.
  rewrite !py_or_given in Hrun by assumption.
  specialize (Hrun (strictly_increasing_accepted _ HR HRn)
                   (strictly_increasing_accepted _ HF HFn)).
  rewrite Hrun.
  rewrite (written_table w2 _ f _ Hcopy).
  subst f. rewrite segmented_filter_recency.
  assert (Hlen : List.length (tables w1) = S (List.length (tables w))).
  { subst w1. simpl. rewrite length_app. simpl. lia. }
  rewrite Hlen. cbn [fst].
  now destruct (is_empty _).
Qed.

Lemma apply_binning_outcome_witness :
  strictly_increasing DEFAULT_RECENCY_BINS = true /\ DEFAULT_RECENCY_BINS <> [] /\
  strictly_increasing DEFAULT_FREQUENCY_BINS = true /\ DEFAULT_FREQUENCY_BINS <> [] /\
  nth_error (tables (world_of three_customers)) 0%nat = Some three_customers /\
  fst (apply_binning 0%nat DEFAULT_RECENCY_BINS DEFAULT_FREQUENCY_BINS 36
                     (world_of three_customers)) =
  inr (if is_empty (filter (recency_at_most 36) three_customers) then
         Shown "No customers have a recency value below the selected maximum threshold."
       else if is_empty (filter (recency_at_most 36)
                                (segmented DEFAULT_RECENCY_BINS DEFAULT_FREQUENCY_BINS
                                           three_customers)) then
         Shown "Segmentation resulted in an empty DataFrame. Please check your bin ranges."
       else
         Segmented (S (List.length (tables (world_of three_customers))))
                   (filter (recency_at_most 36)
                           (segmented DEFAULT_RECENCY_BINS DEFAULT_FREQUENCY_BINS
                                      three_customers))).
Proof.
  assert (H1 : DEFAULT_RECENCY_BINS <> []) by discriminate.
  assert (H2 : DEFAULT_FREQUENCY_BINS <> []) by discriminate.
  split; [reflexivity|]. split; [exact H1|]. split; [reflexivity|]. split; [exact H2|].
  split; [reflexivity|].
  exact (apply_binning_outcome 0%nat DEFAULT_RECENCY_BINS DEFAULT_FREQUENCY_BINS 36
           (world_of three_customers) three_customers eq_refl H1 eq_refl H2 eq_refl).
Defined.

(** X20.  When the last recency edge is at most the threshold plus one,
    as with the defaults (last edge 37, threshold 36), the threshold
    removes no customer the edges would keep: the handler stores the
    segmentation of the whole summary. *)
Theorem threshold_redundant_below_last_edge
    (df : loc) (recency_bins frequency_bins : list edge) (max_recency_threshold : Z)
    (w : World) (t : DataFrame) :
  strictly_increasing recency_bins = true -> recency_bins <> [] ->
  strictly_increasing frequency_bins = true -> frequency_bins <> [] ->
  edge_leb (last recency_bins NegInf) (metric (max_recency_threshold + 1)) = true ->
  nth_error (tables w) df = Some t ->
  segmented recency_bins frequency_bins t <> [] ->
  fst (apply_binning df recency_bins frequency_bins max_recency_threshold w) =
  inr (Segmented (S (List.length (tables w))) (segmented recency_bins frequency_bins t)).
Proof.
  intros HR HRn HF HFn Hlast Hlive Hne.
  rewrite (apply_binning_run df recency_bins frequency_bins max_recency_threshold w t Hlive).
  cbv zeta.
  set (f := filter (recency_at_most max_recency_threshold) t).
  set (w1 := with_tables w (tables w ++ [f])).
  set (w2 := with_tables w1 (tables w1 ++ [f])).
  assert (Hseg : segmented recency_bins frequency_bins f
                 = segmented recency_bins frequency_bins t).
  { subst f. rewrite segmented_filter_recency.
    now apply filter_recency_redundant. }
  assert (Hf : is_empty f = false).
  { destruct f; [|reflexivity]. exfalso. apply Hne. rewrite <- Hseg. reflexivity. }
  rewrite Hf.
  assert (Hcopy : nth_error (tables w2) (List.length (tables w1)) = Some f).
  { subst w2. simpl. apply nth_error_snoc_new. }
  pose proof (bin_customers_run (List.length (tables w1)) (Some recency_bins)
                (Some frequency_bins) w2 f Hcopy) as Hrun.
  rewrite !py_or_given in Hrun by assumption.
  specialize (Hrun (strictly_increasing_accepted _ HR HRn)
                   (strictly_increasing_accepted _ HF HFn)).
  rewrite Hrun.
  rewrite (written_table w2 _ f _ Hcopy).
  rewrite Hseg.
  assert (Hlen : List.length (tables w1) = S (List.length (tables w))).
  { subst w1. simpl. rewrite length_app. simpl. lia. }
  rewrite Hlen. cbn [fst].
  destruct (segmented recency_bins frequency_bins t); [congruence | reflexivity].
Qed.

Lemma threshold_redundant_below_last_edge_witness :
  strictly_increasing DEFAULT_RECENCY_BINS = true /\ DEFAULT_RECENCY_BINS <> [] /\
  strictly_increasing DEFAULT_FREQUENCY_BINS = true /\ DEFAULT_FREQUENCY_BINS <> [] /\
  edge_leb (last DEFAULT_RECENCY_BINS NegInf) (metric (36 + 1)) = true /\
  nth_error (tables (world_of three_customers)) 0%nat = Some three_customers /\
  segmented DEFAULT_RECENCY_BINS DEFAULT_FREQUENCY_BINS three_customers <> [] /\
  fst (apply_binning 0%nat DEFAULT_RECENCY_BINS DEFAULT_FREQUENCY_BINS 36
                     (world_of three_customers)) =
  inr (Segmented (S (List.length (tables (world_of three_customers))))
                 (segmented DEFAULT_RECENCY_BINS DEFAULT_FREQUENCY_BINS three_customers)).
Proof.
  assert (H1 : DEFAULT_RECENCY_BINS <> []) by discriminate.
  assert (H2 : DEFAULT_FREQUENCY_BINS <> []) by discriminate.
  assert (H3 : segmented DEFAULT_RECENCY_BINS DEFAULT_FREQUENCY_BINS three_customers <> [])
    by (vm_compute; discriminate).
  split; [reflexivity|]. split; [exact H1|]. split; [reflexivity|]. split; [exact H2|].
  split; [reflexivity|]. split; [reflexivity|]. split; [exact H3|].
  exact (threshold_redundant_below_last_edge 0%nat DEFAULT_RECENCY_BINS
           DEFAULT_FREQUENCY_BINS 36 (world_of three_customers) three_customers
           eq_refl H1 eq_refl H2 eq_refl eq_refl H3).
Defined.

(* ================================================================= *)
(** ** Recency *)

Section Recency.

Lemma date_leb_spec (a b : Date) :
  date_leb a b = true <->
  (year a < year b \/
   (year a = year b /\
    (month a < month b \/ (month a = month b /\ day_of_month a <= day_of_month b)))).
Proof.
  unfold date_leb.
  rewrite !orb_true_iff, !andb_true_iff, !orb_true_iff, !andb_true_iff.
  rewrite !Z.ltb_lt, !Z.eqb_eq, Z.leb_le. tauto.
Qed.

Lemma date_leb_refl (a : Date) : date_leb a a = true.
Proof. apply date_leb_spec. lia. Qed.

Lemma date_leb_trans (a b c : Date) :
  date_leb a b = true -> date_leb b c = true -> date_leb a c = true.
Proof. rewrite !date_leb_spec. lia. Qed.

Lemma date_leb_total (a b : Date) : date_leb a b = false -> date_leb b a = true.
Proof.
  intros H. apply date_leb_spec.
  destruct (date_leb a b) eqn:E; [discriminate|].
  assert (N : ~ (year a < year b \/
                 (year a = year b /\
                  (month a < month b \/
                   (month a = month b /\ day_of_month a <= day_of_month b)))))
    by (intros X; apply date_leb_spec in X; congruence).
  lia.
Qed.

(** The maximum is one of the dates and not before any of them. *)
Lemma date_max_In (col : list (option Date)) (m : Date) :
  date_max col = Some m -> In (Some m) col.
Proof.
  revert m. induction col as [|[d|] col IH]; intros m H; simpl in *.
  - discriminate.
  - destruct (date_max col) as [m'|].
    + destruct (date_leb d m'); inversion H; subst; auto.
    + inversion H; subst; auto.
  - auto.
Qed.

Lemma date_max_upper (col : list (option Date)) (d : Date) :
  In (Some d) col -> exists m, date_max col = Some m /\ date_leb d m = true.
Proof.
  induction col as [|[x|] col IH]; intros H; simpl in *.
  - contradiction.
  - destruct H as [E|H].
    + inversion E; subst x. destruct (date_max col) as [m'|].
      * destruct (date_leb d m') eqn:L; eexists; split; try reflexivity.
        -- exact L.
        -- apply date_leb_refl.
      * eexists; split; [reflexivity | apply date_leb_refl].
    + destruct (IH H) as [m [-> Hm]].
      destruct (date_leb x m) eqn:L; eexists; split; try reflexivity.
      * exact Hm.
      * eapply date_leb_trans; [exact Hm | now apply date_leb_total].
  - destruct H as [E|H]; [discriminate | auto].
Qed.

(** A later order is fewer months back, months being 1 to 12. *)
Lemma months_antitone (cur a b : Date) :
  1 <= month a <= 12 -> 1 <= month b <= 12 -> date_leb a b = true ->
  (year cur - year b) * 12 + (month cur - month b)
  <= (year cur - year a) * 12 + (month cur - month a).
Proof. intros Ha Hb H. apply date_leb_spec in H. lia. Qed.

End Recency.

(** X21.  In a summary the aggregator returns, the recency of a customer
    counts from the latest of its dated orders: the summary row carries
    that date, the date is the date of one of the customer's orders and
    not before any of them, and the recency is at most the months since
    any of the customer's orders.  (The aggregator returns when its write
    at line 104 succeeds.) *)
Theorem recency_counts_from_latest_order
    (df : loc) (d : Date) (w : World) (t : Orders.table) :
  nth_error (order_tables w) df = Some t ->
  (forall o day, In o t -> Orders.day o = Some day -> 1 <= month day <= 12) ->
  forall summary,
    fst (aggregate_customer_data df (Some d) w) = inr summary ->
    forall r o day,
      In r summary -> In o t -> group_key o = Some (customer_key r) ->
      Orders.day o = Some day ->
      exists latest,
        last_order_date r = Some latest /\
        date_leb day latest = true /\
        (exists o', In o' t /\ group_key o' = Some (customer_key r) /\
                    Orders.day o' = Some latest) /\
        recency r = Some ((year d - year latest) * 12 + (month d - month latest)) /\
        (year d - year latest) * 12 + (month d - month latest)
        <= (year d - year day) * 12 + (month d - month day).
Proof.
  intros Hlive Hvalid summary Hret.
  rewrite (aggregate_result df d w t Hlive) in Hret. injection Hret as <-.
  intros r o day Hr Ho Hk Hday.
  unfold summary_before_dropna in Hr. rewrite rows_without_key_not_aggregated in Hr.
  unfold groupby_agg in Hr. rewrite map_map in Hr. apply in_map_iff in Hr.
  destruct Hr as [k [<- _]].
  change (customer_key (set_recency _ (aggregate_group t k))) with (fst k, snd k) in *.
  rewrite <- surjective_pairing in *.
  assert (Hin : In (Some day) (map Orders.day (group_rows k t))).
  { apply in_map_iff. exists o. split; [exact Hday|]. now apply group_rows_In. }
  destruct (date_max_upper _ _ Hin) as [latest [Hmax Hle]].
  exists latest.
  change (last_order_date (set_recency _ (aggregate_group t k)))
    with (date_max (map Orders.day (group_rows k t))).
  change (recency (set_recency (months_since d (last_order_date (aggregate_group t k)))
                               (aggregate_group t k)))
    with (months_since d (date_max (map Orders.day (group_rows k t)))).
  rewrite Hmax. split; [reflexivity|]. split; [exact Hle|].
  pose proof (date_max_In _ _ Hmax) as Hl. apply in_map_iff in Hl.
  destruct Hl as [o' [Hd' Ho']]. apply group_rows_In in Ho'. destruct Ho' as [Ho' Hk'].
  split; [exists o'; auto|]. split; [reflexivity|].
  apply months_antitone; [exact (Hvalid o day Ho Hday) | exact (Hvalid o' latest Ho' Hd') |
                          exact Hle].
Qed.

Lemma recency_counts_from_latest_order_witness :
  nth_error (order_tables (orders_world example_orders)) 0%nat = Some example_orders /\
  (forall o day, In o example_orders -> Orders.day o = Some day -> 1 <= month day <= 12) /\
  fst (aggregate_customer_data 0%nat (Some (mkDate 2025 1 15))
         (orders_world example_orders))
  = inr (summary_before_dropna example_orders (mkDate 2025 1 15)) /\
    forall r o day,
      In r (summary_before_dropna example_orders (mkDate 2025 1 15)) ->
      In o example_orders -> group_key o = Some (customer_key r) ->
      Orders.day o = Some day ->
      exists latest,
        last_order_date r = Some latest /\
        date_leb day latest = true /\
        (exists o', In o' example_orders /\ group_key o' = Some (customer_key r) /\
                    Orders.day o' = Some latest) /\
        recency r = Some ((year (mkDate 2025 1 15) - year latest) * 12
                          + (month (mkDate 2025 1 15) - month latest)) /\
        (year (mkDate 2025 1 15) - year latest) * 12
        + (month (mkDate 2025 1 15) - month latest)
        <= (year (mkDate 2025 1 15) - year day) * 12
           + (month (mkDate 2025 1 15) - month day).
Proof.
  assert (Hvalid : forall o day, In o example_orders -> Orders.day o = Some day ->
                                 1 <= month day <= 12).
  { intros o day [<-|[<-|[<-|[]]]] E; inversion E; simpl; lia. }
  split; [reflexivity|]. split; [exact Hvalid|]. split; [reflexivity|].
  exact (recency_counts_from_latest_order 0%nat (mkDate 2025 1 15)
           (orders_world example_orders) example_orders eq_refl Hvalid _ eq_refl).
Defined.
